(** * queuectl: a shallow embedding of the job-queue engine

    The development follows [src/queuectl.py]: the SQLite store is a record
    of three tables, every function that receives a connection is a
    computation in a state-and-exception monad over that record, and the
    wall clock, the uuid generator, the command executor, the console and
    store faults are explicit inputs. *)

From Stdlib Require Import ZArith Lia Bool.
From Stdlib Require Import Strings.String Strings.Ascii.
From Stdlib Require Import Sorting.Sorted Sorting.Permutation.
From stdpp Require Import gmap strings list fin_maps.

Local Open Scope Z_scope.
#[local] Set Warnings "-register-all".

(** ** Python's [datetime] in UTC and [isoformat] *)

Module Clock.

(** A [datetime] is the number of microseconds elapsed since
    0001-01-01T00:00:00 UTC, the first instant Python can represent. *)
Definition datetime := Z.

Definition US_PER_SECOND : Z := 1000000.
Definition US_PER_DAY : Z := 86400 * US_PER_SECOND.

(** 9999-12-31 has proleptic Gregorian ordinal 3652059. *)
Definition MAX_DAYS : Z := 3652059.

Definition in_range (t : datetime) : bool :=
  (0 <=? t) && (t <? MAX_DAYS * US_PER_DAY).

(** Civil date of the day number [d] (days since 0001-01-01). *)
Definition civil_of_days (d : Z) : Z * Z * Z :=
  let z := d + 306 in
  let era := z / 146097 in
  let doe := z - era * 146097 in
  let yoe := (doe - doe / 1460 + doe / 36524 - doe / 146096) / 365 in
  let doy := doe - (365 * yoe + yoe / 4 - yoe / 100) in
  let mp := (5 * doy + 2) / 153 in
  let day := doy - (153 * mp + 2) / 5 + 1 in
  let month := if mp <? 10 then mp + 3 else mp - 9 in
  let year := yoe + era * 400 + (if month <=? 2 then 1 else 0) in
  (year, month, day).

Definition digit (n : Z) : ascii := ascii_of_N (48 + Z.to_N (n mod 10)).

(** [zpad w n]: the last [w] decimal digits of [n], zero padded. *)
Fixpoint zpad (w : nat) (n : Z) : string :=
  match w with
  | O => EmptyString
  | S w' => (zpad w' (n / 10) ++ String (digit n) EmptyString)%string
  end.

(** [datetime.isoformat()] of a timezone-aware UTC value: the fraction is
    printed only when the microsecond field is not zero. *)
Definition isoformat (t : datetime) : string :=
  let days := t / US_PER_DAY in
  let rest := t mod US_PER_DAY in
  let secs := rest / US_PER_SECOND in
  let us := rest mod US_PER_SECOND in
  let '(y, m, d) := civil_of_days days in
  (zpad 4 y ++ "-" ++ zpad 2 m ++ "-" ++ zpad 2 d ++ "T"
   ++ zpad 2 (secs / 3600)%Z ++ ":" ++ zpad 2 (secs / 60 mod 60)%Z ++ ":"
   ++ zpad 2 (secs mod 60)%Z
   ++ (if (us =? 0)%Z then "" else "." ++ zpad 6 us)
   ++ "+00:00")%string.

(** The instant [s] seconds after [t], when Python can represent it:
    [datetime + timedelta(seconds=s)] raises [OverflowError] when the day
    count of the delta exceeds 999999999 in magnitude, or when the sum
    leaves the years 1..9999. *)
Definition add_seconds (t : datetime) (s : Z) : option datetime :=
  if (Z.abs (s / 86400) <=? 999999999) && in_range (t + s * US_PER_SECOND)
  then Some (t + s * US_PER_SECOND)
  else None.

End Clock.

(** ** The fragment of Python the program relies on *)

Module Py.

Inductive exn_class :=
| KeyError | ValueError | ZeroDivisionError | OverflowError
| IntegrityError | OperationalError | InterfaceError
| TimeoutExpired | OSError | MarkupError.

(** An exception value; [str(e)] is its message.  Every class above derives
    from [Exception], so [except Exception] catches all of them. *)
Record exn := Exn { exn_cls : exn_class; exn_msg : string }.

Definition str_of_exn (e : exn) : string := exn_msg e.

Inductive outcome (A : Type) :=
| Ok (a : A)
| Raise (e : exn).
Arguments Ok {A} a.
Arguments Raise {A} e.

(** JSON values as [json.loads] delivers them.  Fractional numbers (Python
    [float]) are not modelled. *)
Inductive pyval :=
| PNone
| PBool (b : bool)
| PInt (n : Z)
| PStr (s : string)
| PList (l : list pyval)
| PDict (l : list (string * pyval)).

(** Truth value testing: [None], [False], zero, and empty strings and
    containers are false. *)
Definition truthy (v : pyval) : bool :=
  match v with
  | PNone => false
  | PBool b => b
  | PInt n => negb (n =? 0)
  | PStr s => negb (String.eqb s "")
  | PList l => match l with [] => false | _ => true end
  | PDict l => match l with [] => false | _ => true end
  end.

(** [x or y] evaluates to [x] when [x] is true and to [y] otherwise. *)
Definition py_or (x y : pyval) : pyval := if truthy x then x else y.

(** *** Texts

    A [string] is the sequence of the code points of a Python [str].  The
    model covers the texts whose code points are all below 256; on these
    the order [String.leb] is the order of their UTF-8 encodings, which is
    the order in which SQLite compares texts. *)

Definition code (c : ascii) : Z := Z.of_N (N_of_ascii c).

Definition chr (n : Z) : ascii := ascii_of_N (Z.to_N n).

(** [c.isspace()]: the Unicode white space below 256 is TAB..CR, FS..US,
    SPACE, U+0085 and U+00A0. *)
Definition is_space (c : ascii) : bool :=
  let n := code c in
  ((9 <=? n) && (n <=? 13)) || ((28 <=? n) && (n <=? 32))
  || (n =? 133) || (n =? 160).

Fixpoint lstrip (l : list ascii) : list ascii :=
  match l with
  | c :: l' => if is_space c then lstrip l' else l
  | [] => []
  end.

(** [s.strip()] *)
Definition strip (s : string) : string :=
  string_of_list_ascii
    (rev (lstrip (rev (lstrip (list_ascii_of_string s))))).

(** [repr(s)]: double quotes when the text holds a single quote and no
    double quote; the quote in use and the backslash are escaped, TAB, LF
    and CR are written [\t], [\n], [\r], and the other characters that are
    not printable (below SPACE, DEL..U+00A0, U+00AD) as [\xNN]. *)
Definition hex_digit (n : Z) : ascii :=
  if n <? 10 then chr (48 + n) else chr (87 + n).

Definition backslash : ascii := chr 92.
Definition single_quote : ascii := chr 39.
Definition double_quote : ascii := chr 34.

Definition repr_char (quote c : ascii) : list ascii :=
  let n := code c in
  if Ascii.eqb c quote || Ascii.eqb c backslash then [backslash; c]
  else if n =? 9 then [backslash; "t"%char]
  else if n =? 10 then [backslash; "n"%char]
  else if n =? 13 then [backslash; "r"%char]
  else if (n <? 32) || ((127 <=? n) && (n <=? 160)) || (n =? 173)
  then [backslash; "x"%char; hex_digit (n / 16); hex_digit (n mod 16)]
  else [c].

Definition repr (s : string) : string :=
  let l := list_ascii_of_string s in
  let quote :=
    if existsb (Ascii.eqb single_quote) l
       && negb (existsb (Ascii.eqb double_quote) l)
    then double_quote else single_quote in
  string_of_list_ascii
    (quote :: flat_map (repr_char quote) l ++ [quote]).

(** [str(n)] for an integer. *)
Fixpoint digits_of (fuel : nat) (n : Z) (acc : string) : string :=
  match fuel with
  | O => acc
  | S f =>
      let acc' := String (Clock.digit n) acc in
      if n <? 10 then acc' else digits_of f (n / 10) acc'
  end.

Definition str_of_int (n : Z) : string :=
  if n <? 0
  then String "-" (digits_of (S (Z.to_nat (Z.log2 (- n)))) (- n) "")
  else digits_of (S (Z.to_nat (Z.log2 n))) n "".

(** *** [int(s)]

    [int] first turns the white space above 127 (U+0085, U+00A0) into
    blanks; what is left of the characters above 126 is no digit.  The text
    is then read as a C string, which ends at its first NUL: white space as
    C's [isspace] knows it (TAB..CR and SPACE, not FS..US) is skipped on
    both sides, a sign may come first, and the digits may be separated by
    single underscores. *)
Definition is_int_space (c : ascii) : bool :=
  let n := code c in
  ((9 <=? n) && (n <=? 13)) || (n =? 32) || (n =? 133) || (n =? 160).

Definition is_nul (c : ascii) : bool := code c =? 0.

Fixpoint before_nul (l : list ascii) : list ascii :=
  match l with
  | c :: l' => if is_nul c then [] else c :: before_nul l'
  | [] => []
  end.

Fixpoint skip_int_space (l : list ascii) : list ascii :=
  match l with
  | c :: l' => if is_int_space c then skip_int_space l' else l
  | [] => []
  end.

Definition is_digit (c : ascii) : bool :=
  let n := code c in (48 <=? n) && (n <=? 57).

Definition digit_val (c : ascii) : Z := code c - 48.

(** Decimal digits in which single underscores may separate digits: the
    number read and the count of its digits. *)
Fixpoint parse_digits (l : list ascii) (acc count : Z) (after_digit : bool)
  : option (Z * Z) :=
  match l with
  | [] => if after_digit then Some (acc, count) else None
  | c :: l' =>
      if is_digit c
      then parse_digits l' (10 * acc + digit_val c) (count + 1) true
      else if Ascii.eqb c "_" && after_digit
      then parse_digits l' acc count false
      else None
  end.

(** The largest number of digits [int] converts
    ([sys.get_int_max_str_digits()]). *)
Definition MAX_STR_DIGITS : Z := 4300.

Definition invalid_literal {A} (s : string) : outcome A :=
  Raise (Exn ValueError
           ("invalid literal for int() with base 10: "
            ++ string_of_list_ascii
                 (firstn 200 (list_ascii_of_string (repr s))))%string).

(** [int(s)] for a text [s], in base ten.  A literal that is well formed
    up to a NUL is still refused, after the limit on its digits has been
    applied. *)
Definition int_of_str (s : string) : outcome Z :=
  let text := list_ascii_of_string s in
  let body := rev (skip_int_space (rev (skip_int_space (before_nul text)))) in
  let '(sign, digits) :=
    match body with
    | c :: l' =>
        if Ascii.eqb c "-" then (-1, l')
        else if Ascii.eqb c "+" then (1, l')
        else (1, body)
    | [] => (1, [])
    end in
  match parse_digits digits 0 0 false with
  | None => invalid_literal s
  | Some (n, count) =>
      if MAX_STR_DIGITS <? count then
        Raise (Exn ValueError
                 ("Exceeds the limit (4300 digits) for integer string "
                  ++ "conversion: value has " ++ str_of_int count
                  ++ " digits; use sys.set_int_max_str_digits() "
                  ++ "to increase the limit")%string)
      else if existsb is_nul text then invalid_literal s
      else Ok (sign * n)
  end.

(** An integer converts to [float] unless it rounds to 2^1024 or beyond. *)
Definition float_overflows (n : Z) : bool :=
  2 ^ 1024 - 2 ^ 970 <=? Z.abs n.

(** [int(pow(base, e))] on integers.  A negative exponent makes [pow]
    compute in floating point: zero cannot be raised to it, a base too
    large for a float overflows, and otherwise the result has magnitude
    below one (truncated to 0) unless the base is 1 or -1. *)
Definition int_pow (base e : Z) : outcome Z :=
  if 0 <=? e then Ok (base ^ e)
  else if base =? 0 then
    Raise (Exn ZeroDivisionError "0.0 cannot be raised to a negative power")
  else if float_overflows base then
    Raise (Exn OverflowError "int too large to convert to float")
  else if base =? 1 then Ok 1
  else if base =? -1 then Ok (if Z.even e then 1 else -1)
  else Ok 0.

End Py.

(** ** The SQLite store *)

Module Queuectl.
Import Py.

(** What column [run_timeout] can hold: NULL, a 64-bit integer, text, or
    a number read from numeric text.  [SReal s] is the floating-point
    number SQLite reads from the text [s] (kept as an integer when that
    number is whole and within 64 bits); the model names it by its text
    and does not compute it, so two such values with different texts may
    be the same number. *)
Inductive sqlval :=
| SNull
| SInt (n : Z)
| SText (s : string)
| SReal (s : string).

(** One row of table [jobs], columns in schema order. *)
Record job := mkJob {
  id : string;
  command : string;
  state : string;
  attempts : Z;
  max_retries : Z;
  created_at : string;
  updated_at : string;
  available_at : string;
  priority : Z;
  run_timeout : sqlval;
  worker_id : option string;
  started_at : option string;
  finished_at : option string;
  last_error : option string;
  output : option string
}.

(** One row of table [workers]; its primary key is the key of the map. *)
Record worker := mkWorker {
  pid : Z;
  w_started_at : string;
  heartbeat_at : string;
  status : string
}.

(** The database: [jobs] in rowid order (the order of insertion, which is
    the order a table scan visits), [kv] and [workers] keyed by their
    primary keys. *)
Record db := mkDb {
  jobs : list job;
  kv : gmap string string;
  workers : gmap string worker
}.

Definition empty_db : db := mkDb [] ∅ ∅.

Definition with_jobs (d : db) (js : list job) : db :=
  mkDb js (kv d) (workers d).
Definition with_kv (d : db) (m : gmap string string) : db :=
  mkDb (jobs d) m (workers d).
Definition with_workers (d : db) (m : gmap string worker) : db :=
  mkDb (jobs d) (kv d) m.

(** Computations on a connection: they read and write the database and
    either return or raise. *)
Definition M (A : Type) : Type := db -> outcome A * db.

Definition ret {A} (a : A) : M A := fun d => (Ok a, d).
Definition raise {A} (e : exn) : M A := fun d => (Raise e, d).
Definition bind {A B} (m : M A) (k : A -> M B) : M B :=
  fun d => match m d with
           | (Ok a, d') => k a d'
           | (Raise e, d') => (Raise e, d')
           end.
(** [try: m except Exception as e: h e] *)
Definition try_except {A} (m : M A) (h : exn -> M A) : M A :=
  fun d => match m d with
           | (Ok a, d') => (Ok a, d')
           | (Raise e, d') => h e d'
           end.
Definition lift {A} (o : outcome A) : M A := fun d => (o, d).

Declare Scope queue_scope.
Delimit Scope queue_scope with queue.
Notation "'let!' x ':=' c 'in' k" := (bind c (fun x => k))
  (at level 10, x name, c at level 100, k at level 200) : queue_scope.
Local Open Scope queue_scope.

(** SQLite stores integers in 64 bits; binding a larger Python integer
    raises [OverflowError]. *)
Definition fits_int64 (n : Z) : bool :=
  (- 2 ^ 63 <=? n) && (n <? 2 ^ 63).

Definition bind_int (n : Z) : outcome Z :=
  if fits_int64 n then Ok n
  else Raise (Exn OverflowError
                "Python int too large to convert to SQLite INTEGER").

(** Adapting a Python value to a statement parameter: [None] is NULL,
    [True] and [False] are the integers 1 and 0, an integer must fit 64
    bits, a text is bound as text, and a list or a dict cannot be
    bound. *)
Definition bind_value (v : pyval) : outcome sqlval :=
  match v with
  | PNone => Ok SNull
  | PBool b => Ok (SInt (if b then 1 else 0))
  | PInt n => match bind_int n with Ok n' => Ok (SInt n') | Raise e => Raise e end
  | PStr s => Ok (SText s)
  | PList _ | PDict _ =>
      Raise (Exn InterfaceError
               "Error binding parameter - probably unsupported type.")
  end.

(** *** The INTEGER affinity of column [run_timeout]

    A text stored in a column declared INTEGER is converted when the whole
    of it reads as a number: white space (TAB..CR, SPACE), a sign, digits,
    a point with digits, an exponent with at least one digit, white space;
    with at least one digit before the exponent. *)
Definition is_sql_space (c : ascii) : bool :=
  let n := code c in ((9 <=? n) && (n <=? 13)) || (n =? 32).

Fixpoint skip_sql_space (l : list ascii) : list ascii :=
  match l with
  | c :: l' => if is_sql_space c then skip_sql_space l' else l
  | [] => []
  end.

(** The digits at the head of [l]: their value, their number, the rest. *)
Fixpoint take_digits (l : list ascii) (acc count : Z)
  : Z * Z * list ascii :=
  match l with
  | c :: l' =>
      if is_digit c then take_digits l' (10 * acc + digit_val c) (count + 1)
      else (acc, count, l)
  | [] => (acc, count, [])
  end.

Definition skip_sign (l : list ascii) : Z * list ascii :=
  match l with
  | c :: l' =>
      if Ascii.eqb c "-" then (-1, l')
      else if Ascii.eqb c "+" then (1, l')
      else (1, l)
  | [] => (1, [])
  end.

Inductive numeric_text :=
| NotNumeric
| IntegerText (n : Z)
| RealText.

Definition numeric_text_of (s : string) : numeric_text :=
  let '(sign, l1) := skip_sign (skip_sql_space (list_ascii_of_string s)) in
  let '(n, k1, l2) := take_digits l1 0 0 in
  let '(k2, point, l3) :=
    match l2 with
    | c :: l =>
        if Ascii.eqb c "." then
          let '(_, k, l') := take_digits l 0 0 in (k, true, l')
        else (0, false, l2)
    | [] => (0, false, [])
    end in
  let '(exponent_ok, exponent, l4) :=
    match l3 with
    | c :: l =>
        if Ascii.eqb c "e" || Ascii.eqb c "E" then
          let '(_, k, l') := take_digits (snd (skip_sign l)) 0 0 in
          (0 <? k, true, l')
        else (true, false, l3)
    | [] => (true, false, [])
    end in
  match skip_sql_space l4 with
  | [] =>
      if exponent_ok && (0 <? k1 + k2) then
        if point || exponent then RealText else IntegerText (sign * n)
      else NotNumeric
  | _ :: _ => NotNumeric
  end.

(** The value the column keeps of the value bound to it. *)
Definition integer_affinity (v : sqlval) : sqlval :=
  match v with
  | SText s =>
      match numeric_text_of s with
      | NotNumeric => SText s
      | IntegerText n => if fits_int64 n then SInt n else SReal s
      | RealText => SReal s
      end
  | _ => v
  end.

(** [UPDATE jobs SET ... WHERE p]: every row that satisfies [p] is
    rewritten by [f]; [rowcount] is the number of such rows. *)
Definition sql_update (p : job -> bool) (f : job -> job) (rows : list job)
  : list job :=
  map (fun j => if p j then f j else j) rows.

Definition rowcount (p : job -> bool) (rows : list job) : nat :=
  length (List.filter p rows).

(** [ORDER BY]: a stable insertion sort, so that rows with equal keys stay
    in scan order; [LIMIT 1] is [head]. *)
Fixpoint insert_by {A} (le : A -> A -> bool) (x : A) (l : list A) : list A :=
  match l with
  | [] => [x]
  | y :: l' => if le x y then x :: l else y :: insert_by le x l'
  end.

Definition order_by {A} (le : A -> A -> bool) (l : list A) : list A :=
  foldr (insert_by le) [] l.

(** Comparison of a nullable text column: NULL sorts before every text. *)
Definition opt_leb (a b : option string) : bool :=
  match a, b with
  | None, _ => true
  | Some _, None => false
  | Some x, Some y => String.leb x y
  end.

Definition opt_eqb (a : option string) (b : string) : bool :=
  match a with Some x => String.eqb x b | None => false end.

Definition DEFAULT_MAX_RETRIES : Z := 3.
Definition DEFAULT_BACKOFF_BASE : Z := 2.
(** [str(DEFAULT_POLL_IDLE_SECS)] *)
Definition DEFAULT_POLL_IDLE_SECS : string := "0.5".

Definition now_utc (t : Clock.datetime) : string := Clock.isoformat t.

Definition ensure_default_config (key value : string) : M unit :=
  fun d => match kv d !! key with
           | None => (Ok tt, with_kv d (<[key := value]> (kv d)))
           | Some _ => (Ok tt, d)
           end.

Definition init_db : M unit :=
  let! _ := ensure_default_config "max_retries_default"
                                   (str_of_int DEFAULT_MAX_RETRIES) in
  let! _ := ensure_default_config "backoff_base"
                                   (str_of_int DEFAULT_BACKOFF_BASE) in
  ensure_default_config "poll_idle_secs" DEFAULT_POLL_IDLE_SECS.

Definition get_config (key default : string) : M string :=
  fun d => (Ok (match kv d !! key with Some v => v | None => default end), d).

Definition set_config (key value : string) : M unit :=
  fun d => (Ok tt, with_kv d (<[key := value]> (kv d))).

(** The JSON object handed to [enqueue_job], one field per key the function
    looks at ([None]: the key is absent).  Keys that feed a text or integer
    column carry a value of that type; [timeout] and [run_timeout] carry
    any JSON value. *)
Record job_spec := mkSpec {
  s_id : option string;
  s_command : option string;
  s_state : option string;
  s_attempts : option Z;
  s_max_retries : option Z;
  s_created_at : option string;
  s_updated_at : option string;
  s_available_at : option string;
  s_priority : option Z;
  s_timeout : option pyval;
  s_run_timeout : option pyval
}.

(** [job.get(key)] on the two timeout keys. *)
Definition get_or_none (o : option pyval) : pyval := default PNone o.

Definition has_id (job_id : string) (j : job) : bool :=
  String.eqb (id j) job_id.

(** [INSERT INTO jobs]: the primary key rejects an id that is present. *)
Definition insert_job (row : job) : M unit :=
  fun d => if existsb (has_id (id row)) (jobs d)
           then (Raise (Exn IntegrityError "UNIQUE constraint failed: jobs.id"), d)
           else (Ok tt, with_jobs d (jobs d ++ [row])).

(** [uuid4] is the value of [str(uuid.uuid4())] and [now] the reading of
    the clock taken by [now_utc()]. *)
Definition enqueue_job (job : job_spec) (uuid4 : string)
    (now : Clock.datetime) : M string :=
  let! _ := init_db in
  let job_id := default uuid4 (s_id job) in
  let job_state := default "pending"%string (s_state job) in
  let job_attempts := default 0 (s_attempts job) in
  let job_max_retries := default DEFAULT_MAX_RETRIES (s_max_retries job) in
  let job_created_at := default (now_utc now) (s_created_at job) in
  let job_updated_at := default job_created_at (s_updated_at job) in
  let job_available_at := default job_created_at (s_available_at job) in
  let job_priority := default 0 (s_priority job) in
  let job_run_timeout :=
    py_or (py_or (get_or_none (s_timeout job))
                 (get_or_none (s_run_timeout job))) PNone in
  match s_command job with
  | None => raise (Exn KeyError "'command'")
  | Some job_command =>
      let! a := lift (bind_int job_attempts) in
      let! m := lift (bind_int job_max_retries) in
      let! p := lift (bind_int job_priority) in
      let! r := lift (bind_value job_run_timeout) in
      let! _ := insert_job
        (mkJob job_id job_command job_state a m job_created_at job_updated_at
               job_available_at p (integer_affinity r)
               None None None None None) in
      ret job_id
  end.

Definition compute_backoff_delay (base attempts : Z) : outcome Z :=
  int_pow base attempts.

(** [state='pending' AND available_at <= now] *)
Definition eligible (now : string) (j : job) : bool :=
  String.eqb (state j) "pending" && String.leb (available_at j) now.

(** [ORDER BY priority ASC, created_at ASC] *)
Definition claim_order (a b : job) : bool :=
  (priority a <? priority b)
  || ((priority a =? priority b) && String.leb (created_at a) (created_at b)).

Definition select_next (now : string) (rows : list job) : option job :=
  head (order_by claim_order (List.filter (eligible now) rows)).

(** [SET state='processing', worker_id=?, started_at=?, updated_at=?] *)
Definition set_processing (w now : string) (j : job) : job :=
  mkJob (id j) (command j) "processing" (attempts j) (max_retries j)
        (created_at j) now (available_at j) (priority j) (run_timeout j)
        (Some w) (Some now) (finished_at j) (last_error j) (output j).

(** [worker_id=? AND state='processing'] *)
Definition held_by (w : string) (j : job) : bool :=
  opt_eqb (worker_id j) w && String.eqb (state j) "processing".

(** [ORDER BY started_at DESC] *)
Definition latest_first (a b : job) : bool :=
  opt_leb (started_at b) (started_at a).

(** The transaction brackets are no-ops here: every operation of the model
    runs to completion before the next one starts. *)
Definition atomic_claim_next_job (w : string) (t : Clock.datetime)
  : M (option job) :=
  fun d =>
    let now := now_utc t in
    let target := select_next now (jobs d) in
    let hit j := match target with
                 | Some s => String.eqb (id j) (id s)
                 | None => false
                 end in
    if Nat.eqb (rowcount hit (jobs d)) 0 then (Ok None, d)
    else
      let rows := sql_update hit (set_processing w now) (jobs d) in
      (Ok (head (order_by latest_first (List.filter (held_by w) rows))),
       with_jobs d rows).

(** The upsert keeps [started_at] of an existing registration. *)
Definition update_worker_heartbeat (w : string) (p : Z) (st : string)
    (t1 t2 : Clock.datetime) : M unit :=
  fun d =>
    let row := match workers d !! w with
               | None => mkWorker p (now_utc t1) (now_utc t2) st
               | Some old => mkWorker p (w_started_at old) (now_utc t2) st
               end in
    (Ok tt, with_workers d (<[w := row]> (workers d))).

(** [SET state='completed', finished_at=?, updated_at=?, output=?] *)
Definition set_completed (fin upd out : string) (j : job) : job :=
  mkJob (id j) (command j) "completed" (attempts j) (max_retries j)
        (created_at j) upd (available_at j) (priority j) (run_timeout j)
        (worker_id j) (started_at j) (Some fin) (last_error j) (Some out).

Definition finish_job_success (job_id out : string)
    (t1 t2 : Clock.datetime) : M unit :=
  fun d => (Ok tt, with_jobs d
    (sql_update (has_id job_id)
                (set_completed (now_utc t1) (now_utc t2) out) (jobs d))).

(** [SET state='dead', attempts=?, finished_at=?, updated_at=?, last_error=?] *)
Definition set_dead (a : Z) (fin upd err : string) (j : job) : job :=
  mkJob (id j) (command j) "dead" a (max_retries j)
        (created_at j) upd (available_at j) (priority j) (run_timeout j)
        (worker_id j) (started_at j) (Some fin) (Some err) (output j).

(** [SET state='pending', attempts=?, available_at=?, updated_at=?, last_error=?] *)
Definition set_retry (a : Z) (avail upd err : string) (j : job) : job :=
  mkJob (id j) (command j) "pending" a (max_retries j)
        (created_at j) upd avail (priority j) (run_timeout j)
        (worker_id j) (started_at j) (finished_at j) (Some err) (output j).

(** [int(get_config(conn, "backoff_base", "2"))] on the text read. *)
Definition parse_base (raw : string) : outcome Z := int_of_str raw.

(** [timedelta(seconds=s)] for an integer [s]: the whole days of the
    delta are converted to a C int and must have magnitude at most
    999999999. *)
Definition timedelta_seconds (s : Z) : outcome Z :=
  let days := s / 86400 in
  if negb ((- 2 ^ 31 <=? days) && (days <? 2 ^ 31)) then
    Raise (Exn OverflowError "Python int too large to convert to C int")
  else if 999999999 <? Z.abs days then
    Raise (Exn OverflowError
             ("days=" ++ str_of_int days
              ++ "; must have magnitude <= 999999999")%string)
  else Ok s.

(** [(datetime.now(timezone.utc) + timedelta(seconds=delay)).isoformat()]:
    the sum must stay within the years 1 to 9999. *)
Definition next_time_after (t : Clock.datetime) (delay : Z) : outcome string :=
  match timedelta_seconds delay with
  | Ok s =>
      let t' := t + s * Clock.US_PER_SECOND in
      if Clock.in_range t' then Ok (Clock.isoformat t')
      else Raise (Exn OverflowError "date value out of range")
  | Raise e => Raise e
  end.

(** [job] is the row the worker read when it claimed the job.  [t1] and
    [t2] are the two readings of the clock, in program order. *)
Definition finish_job_failure (job : job) (error : string)
    (t1 t2 : Clock.datetime) : M unit :=
  let a := attempts job + 1 in
  let! raw := get_config "backoff_base" (str_of_int DEFAULT_BACKOFF_BASE) in
  let! base := lift (parse_base raw) in
  let! delay := lift (compute_backoff_delay base a) in
  if max_retries job <? a then
    let! a' := lift (bind_int a) in
    fun d => (Ok tt, with_jobs d
      (sql_update (has_id (id job))
                  (set_dead a' (now_utc t1) (now_utc t2) error) (jobs d)))
  else
    let! next_time := lift (next_time_after t1 delay) in
    let! a' := lift (bind_int a) in
    fun d => (Ok tt, with_jobs d
      (sql_update (has_id (id job))
                  (set_retry a' next_time (now_utc t2) error) (jobs d))).

(** [SET state='pending', attempts=0, available_at=?, updated_at=?,
     last_error=NULL, finished_at=NULL] *)
Definition set_requeued (avail upd : string) (j : job) : job :=
  mkJob (id j) (command j) "pending" 0 (max_retries j)
        (created_at j) upd avail (priority j) (run_timeout j)
        (worker_id j) (started_at j) None None (output j).

(** What a command hands to the console: one line, or a table given by
    its rows. *)
Inductive printed :=
| Line (s : string)
| Table (rows : list (list string)).

(** [console.print(...)]: rich reads a line, and each cell of a table, as
    markup, and raises when the markup is in error.  What rich makes of
    what it is handed is given from outside the program. *)
Definition console := printed -> outcome unit.

(** [dlq retry]: the session is closed, and the update committed, before
    the line is printed. *)
Definition dlq_retry (print : console) (job_id : string)
    (t1 t2 : Clock.datetime) : M unit :=
  let! _ := init_db in
  let! _ := (fun d => (Ok tt, with_jobs d
               (sql_update (has_id job_id)
                           (set_requeued (now_utc t1) (now_utc t2)) (jobs d)))) in
  lift (print (Line ("[green]Requeued:[/green] " ++ job_id)%string)).

Definition config_set_cmd (print : console) (key value : string) : M unit :=
  let! _ := init_db in
  let! _ := set_config key value in
  lift (print (Line ("[green]Updated[/green] " ++ key ++ " = "
                     ++ value)%string)).

(** A command that returns exits with code 0, one that raises with
    code 1. *)
Definition exit_code {A} (o : outcome A) : Z :=
  match o with Ok _ => 0 | Raise _ => 1 end.

(** ** The worker *)

(** What one pass through the loop body receives from outside the program:
    the readings of the clock (numbered in program order: 0,1 idle
    heartbeat; 2 claim; 3,4 processing heartbeat; 5,6 finalization inside
    [try]; 7,8 finalization inside [except]; in the entry that finds the
    shutdown flag set, 0 is the reading of the final update), the process
    id, the executor ([run_command] applied to a command and its timeout),
    the idle pause ([time.sleep(float(text))]), and for each [with db()]
    block, the one after the loop included, the exception with which the
    store refuses the session, if any. *)
Record iter_env := mkEnv {
  clock : nat -> Clock.datetime;
  getpid : Z;
  run_command : string -> sqlval -> outcome (Z * string * string);
  sleep_float : string -> outcome unit;
  fault_claim : option exn;
  fault_idle : option exn;
  fault_mark : option exn;
  fault_try : option exn;
  fault_except : option exn;
  fault_stop : option exn
}.

(** [with db() as conn: body] *)
Definition with_db {A} (fault : option exn) (body : M A) : M A :=
  match fault with
  | Some e => raise e
  | None => body
  end.

(** The suite of the [try] statement that ends the loop body: run the
    command, then finalize according to its exit code. *)
Definition try_suite (env : iter_env) (job : job) : M unit :=
  let! r := lift (run_command env (command job) (run_timeout job)) in
  let '(code, out, err) := r in
  with_db (fault_try env)
    (if code =? 0
     then finish_job_success (id job) out (clock env 5%nat) (clock env 6%nat)
     else finish_job_failure job (strip err)
                             (clock env 5%nat) (clock env 6%nat)).

(** The suite of [except Exception as e]. *)
Definition except_suite (env : iter_env) (job : job) (e : exn) : M unit :=
  with_db (fault_except env)
    (finish_job_failure job (str_of_exn e)
                        (clock env 7%nat) (clock env 8%nat)).

Definition run_and_finalize (env : iter_env) (job : job) : M unit :=
  try_except (try_suite env job) (except_suite env job).

Definition worker_iteration (w : string) (env : iter_env) : M unit :=
  let! claimed :=
    with_db (fault_claim env)
      (let! _ := update_worker_heartbeat w (getpid env) "idle"
                   (clock env 0%nat) (clock env 1%nat) in
       atomic_claim_next_job w (clock env 2%nat)) in
  match claimed with
  | None =>
      let! idle := with_db (fault_idle env)
                     (get_config "poll_idle_secs" DEFAULT_POLL_IDLE_SECS) in
      lift (sleep_float env idle)
  | Some job =>
      let! _ := with_db (fault_mark env)
                  (update_worker_heartbeat w (getpid env)
                     ("processing:" ++ id job)%string
                     (clock env 3%nat) (clock env 4%nat)) in
      run_and_finalize env job
  end.

(** [UPDATE workers SET status='stopped', heartbeat_at=? WHERE id=?] *)
Definition mark_stopped (w : string) (t : Clock.datetime) : M unit :=
  fun d => (Ok tt, with_workers d
    (alter (fun r => mkWorker (pid r) (w_started_at r) (now_utc t) "stopped")
           w (workers d))).

(** The loop, driven by a script: one entry per test of the shutdown flag,
    holding the value read and the environment of the pass that follows.
    The script running out stands for the observer no longer watching. *)
Fixpoint worker_loop (w : string) (script : list (bool * iter_env))
  : M unit :=
  match script with
  | [] => ret tt
  | (shutdown, env) :: rest =>
      if shutdown
      then with_db (fault_stop env) (mark_stopped w (clock env 0%nat))
      else let! _ := worker_iteration w env in worker_loop w rest
  end.

(** ** Sequences of engine operations *)

Inductive op :=
| Enqueue (spec : job_spec) (uuid4 : string) (now : Clock.datetime)
| Claim (w : string) (now : Clock.datetime)
| FinalizeSuccess (job_id out : string) (t1 t2 : Clock.datetime)
| FinalizeFailure (job : job) (error : string) (t1 t2 : Clock.datetime)
| DlqRetry (print : console) (job_id : string) (t1 t2 : Clock.datetime)
| ConfigSet (print : console) (key value : string).

(** The database an operation leaves behind, whether it returns or raises. *)
Definition run_op (o : op) (d : db) : db :=
  match o with
  | Enqueue spec uuid4 now => snd (enqueue_job spec uuid4 now d)
  | Claim w now => snd (atomic_claim_next_job w now d)
  | FinalizeSuccess job_id out t1 t2 => snd (finish_job_success job_id out t1 t2 d)
  | FinalizeFailure job error t1 t2 => snd (finish_job_failure job error t1 t2 d)
  | DlqRetry print job_id t1 t2 => snd (dlq_retry print job_id t1 t2 d)
  | ConfigSet print key value => snd (config_set_cmd print key value d)
  end.

Definition run_ops (ops : list op) (d : db) : db :=
  fold_left (fun d o => run_op o d) ops d.

(** ** What a claim is expected to do *)



(** ** What a failure finalization is expected to do *)

(** The integer the program reads from key [backoff_base]; [None] when the
    text stored there is not an integer literal. *)
Definition configured_base (d : db) : option Z :=
  match int_of_str (default (str_of_int DEFAULT_BACKOFF_BASE)
                            (kv d !! "backoff_base"%string)) with
  | Ok base => Some base
  | Raise _ => None
  end.

(** With [a' = attempts + 1] and [delay = base ^ a'] seconds, the call
    returns and rewrites the rows carrying the job's id: to [dead] when
    [a' > max_retries], to [pending] with [available_at] = first reading
    of the clock + [delay] otherwise. *)
Definition failure_post (d : db) (job : job) (error : string)
    (t1 t2 : Clock.datetime) (base : Z) : Prop :=
  let a' := attempts job + 1 in
  let delay := base ^ a' in
  finish_job_failure job error t1 t2 d =
  (Ok tt,
   with_jobs d
     (sql_update (has_id (id job))
        (if max_retries job <? a'
         then set_dead a' (now_utc t1) (now_utc t2) error
         else set_retry a' (Clock.isoformat (t1 + delay * Clock.US_PER_SECOND))
                        (now_utc t2) error)
        (jobs d))).

(** ** What enqueue is expected to store as the timeout *)

(** The values Python takes for false. *)
Definition is_false (v : pyval) : bool :=
  match v with
  | PNone | PBool false | PInt 0 | PStr EmptyString | PList [] | PDict [] =>
      true
  | _ => false
  end.

(** The value of key [timeout] if it is true, otherwise the value of key
    [run_timeout] if it is true, otherwise [None]. *)
Definition timeout_choice (spec : job_spec) : pyval :=
  let second := match s_run_timeout spec with
                | Some v => if is_false v then PNone else v
                | None => PNone
                end in
  match s_timeout spec with
  | Some v => if is_false v then second else v
  | None => second
  end.

(** What column [run_timeout] holds once a value has been stored in it,
    [None] when the value cannot be stored: nothing for [None], 1 and 0
    for true and false, an integer within 64 bits as it is; a text as the
    integer it reads as, as a number when it reads as any other number,
    and as it is when it does not read as a number. *)
Definition column_value (v : pyval) : option sqlval :=
  match v with
  | PNone => Some SNull
  | PBool true => Some (SInt 1)
  | PBool false => Some (SInt 0)
  | PInt n => if fits_int64 n then Some (SInt n) else None
  | PStr s =>
      Some match numeric_text_of s with
           | IntegerText n => if fits_int64 n then SInt n else SReal s
           | RealText => SReal s
           | NotNumeric => SText s
           end
  | PList _ | PDict _ => None
  end.

(** The conditions under which the INSERT of enqueue goes through: a
    command is given, the integers fit 64 bits, the chosen timeout is a
    value the column can store, and the id is not taken. *)
Definition store_accepts (d : db) (spec : job_spec) (uuid4 : string) : Prop :=
  is_Some (s_command spec)
  /\ fits_int64 (default 0 (s_attempts spec)) = true
  /\ fits_int64 (default DEFAULT_MAX_RETRIES (s_max_retries spec)) = true
  /\ fits_int64 (default 0 (s_priority spec)) = true
  /\ (exists r, column_value (timeout_choice spec) = Some r)
  /\ existsb (has_id (default uuid4 (s_id spec))) (jobs d) = false.

(** The three configuration keys [init_db] seeds are present. *)
Definition initialised (d : db) : Prop :=
  is_Some (kv d !! "max_retries_default"%string)
  /\ is_Some (kv d !! "backoff_base"%string)
  /\ is_Some (kv d !! "poll_idle_secs"%string).

(** ** The bound on attempts *)

(** [attempts <= max_retries + 1], with equality only for a [dead] job
    whose last attempt left an error. *)
Definition attempts_bounded (j : job) : Prop :=
  attempts j <= max_retries j + 1
  /\ (attempts j = max_retries j + 1 ->
      state j = "dead"%string /\ exists e, last_error j = Some e).

(** A specification that leaves [state] and [attempts] to enqueue and asks
    for no negative [max_retries]. *)
Definition plain_spec (spec : job_spec) : Prop :=
  s_state spec = None /\ s_attempts spec = None
  /\ match s_max_retries spec with Some m => 0 <= m | None => True end.

(** The operations a producer, an operator and sequential workers perform
    on database [d]: a worker finalizes a job that is [processing], with
    the row as it stands. *)
Inductive admitted (d : db) : op -> Prop :=
| adm_enqueue spec uuid4 now :
    plain_spec spec -> admitted d (Enqueue spec uuid4 now)
| adm_claim w now : admitted d (Claim w now)
| adm_success j out t1 t2 :
    In j (jobs d) -> state j = "processing"%string ->
    admitted d (FinalizeSuccess (id j) out t1 t2)
| adm_failure j error t1 t2 :
    In j (jobs d) -> state j = "processing"%string ->
    admitted d (FinalizeFailure j error t1 t2)
| adm_retry print job_id t1 t2 : admitted d (DlqRetry print job_id t1 t2)
| adm_config print key value : admitted d (ConfigSet print key value).

Inductive reachable : db -> Prop :=
| reach_empty : reachable empty_db
| reach_step d o : reachable d -> admitted d o -> reachable (run_op o d).

(** The primary key of [jobs]. *)
Definition unique_ids (d : db) : Prop := List.NoDup (map id (jobs d)).

(** Unique ids, and every row within the bound with no negative
    [max_retries]: what the admitted operations preserve. *)
Definition good_rows (rows : list job) : Prop :=
  List.NoDup (map id rows)
  /\ forall r, In r rows -> 0 <= max_retries r /\ attempts_bounded r.

(** ** Example data *)

Definition t_2026 : Clock.datetime := 63902822400000000.
Definition seconds (n : Z) : Z := n * Clock.US_PER_SECOND.

Definition pending_job (job_id cmd : string) (prio : Z) (created : string)
  : job :=
  mkJob job_id cmd "pending" 0 3 created created created prio SNull
        None None None None None.

(** The id of the job a claim returned, if it returned one. *)
Definition returned_id (o : outcome (option job)) : option string :=
  match o with
  | Ok (Some j) => Some (id j)
  | _ => None
  end.

Definition db_of (rows : list job) : db :=
  mkDb rows {[ "max_retries_default" := "3"; "backoff_base" := "2";
               "poll_idle_secs" := "0.5" ]}%string ∅.

(** Priorities 5, 0, 5 enqueued one second apart. *)
Definition three_jobs : db :=
  db_of [ pending_job "a" "echo a" 5 "2026-01-01T00:00:00+00:00";
          pending_job "b" "echo b" 0 "2026-01-01T00:00:01+00:00";
          pending_job "c" "echo c" 5 "2026-01-01T00:00:02+00:00" ].

(** Worker [w1] still holds job [a], started at 00:00:10; job [b] waits. *)
Definition held_later : db :=
  db_of [ set_processing "w1" "2026-01-01T00:00:10+00:00"
            (pending_job "a" "sleep 60" 0 "2026-01-01T00:00:00+00:00");
          pending_job "b" "echo b" 0 "2026-01-01T00:00:01+00:00" ].

(** A job that failed once, with three retries allowed. *)
Definition failed_once : job :=
  mkJob "j1" "false" "processing" 1 3 "2026-01-01T00:00:00+00:00"
        "2026-01-01T00:00:03+00:00" "2026-01-01T00:00:02+00:00" 0 SNull
        (Some "w1") (Some "2026-01-01T00:00:03+00:00") None (Some "exit 1")
        None.

(** [config set backoff_base 1000000] *)
Definition big_base : db :=
  mkDb [failed_once]
       {[ "max_retries_default" := "3"; "backoff_base" := "1000000";
          "poll_idle_secs" := "0.5" ]}%string ∅.

(** [config set backoff_base two] *)
Definition bad_base : db :=
  mkDb [failed_once]
       {[ "max_retries_default" := "3"; "backoff_base" := "two";
          "poll_idle_secs" := "0.5" ]}%string ∅.

(** [{"command": "sleep 5", "run_timeout": 0}] *)
Definition spec_zero_timeout : job_spec :=
  mkSpec None (Some "sleep 5"%string) None None None None None None None
         None (Some (PInt 0)).

(** [{"command": "echo hi"}] *)
Definition spec_echo : job_spec :=
  mkSpec None (Some "echo hi"%string) None None None None None None None
         None None.

(** [{"command": "false", "max_retries": 0}] *)
Definition spec_no_retry : job_spec :=
  mkSpec None (Some "false"%string) None None (Some 0) None None None None
         None None.

(** [{"command": "true", "max_retries": -2}] *)
Definition spec_negative_retries : job_spec :=
  mkSpec None (Some "true"%string) None None (Some (-2)) None None None None
         None None.

(** The row a worker reads when it claims the job of [spec_no_retry]. *)
Definition claimed_no_retry : job :=
  mkJob "id-1" "false" "processing" 0 0 "2026-01-01T00:00:00+00:00"
        "2026-01-01T00:00:01+00:00" "2026-01-01T00:00:00+00:00" 0 SNull
        (Some "w1") (Some "2026-01-01T00:00:01+00:00") None None None.

(** A job as a worker reads it on its first claim. *)
Definition claimed_echo : job :=
  mkJob "j2" "echo hi" "processing" 0 3 "2026-01-01T00:00:00+00:00"
        "2026-01-01T00:00:02+00:00" "2026-01-01T00:00:00+00:00" 0 SNull
        (Some "w1") (Some "2026-01-01T00:00:02+00:00") None None None.

(** The store accepts every session; the clock advances one second per
    reading, from 00:00:05; every command exits with [code], printing
    [hi] and, on standard error, [err]. *)
Definition env_exit (code : Z) (err : string) : iter_env :=
  mkEnv (fun n => t_2026 + seconds (5 + Z.of_nat n)) 4242
        (fun _ _ => Ok (code, "hi"%string, err)) (fun _ => Ok tt)
        None None None None None None.


(** The second row of [three_jobs]. *)
Definition job_b : job :=
  pending_job "b" "echo b" 0 "2026-01-01T00:00:01+00:00".

(** [failed_once] in a database whose [kv] table has lost its rows. *)
Definition no_base : db := mkDb [failed_once] ∅ ∅.

(** [{"command": "sleep 60", "timeout": 30, "run_timeout": 0}] *)
Definition spec_timeout_30 : job_spec :=
  mkSpec None (Some "sleep 60"%string) None None None None None None None
         (Some (PInt 30)) (Some (PInt 0)).

(** [{"id": "[/x]", "command": "echo hi"}] *)
Definition spec_markup_id : job_spec :=
  mkSpec (Some "[/x]"%string) (Some "echo hi"%string) None None None None
         None None None None None.

(** [{"command": "sleep 60", "timeout": "5"}] *)
Definition spec_text_timeout : job_spec :=
  mkSpec None (Some "sleep 60"%string) None None None None None None None
         (Some (PStr "5")) None.

(** A console as rich behaves on the texts of the examples below.  These
    hold no tag but the balanced pair at their head and, some of them, the
    closing tag [[/x]]: that tag has no open tag to close, and rich
    refuses the text, naming the position of the tag. *)
Definition markup_text (text : string) : outcome unit :=
  match index 0 "[/x]" text with
  | Some n =>
      Raise (Exn MarkupError
               ("closing tag '[/x]' at position "
                ++ str_of_int (Z.of_nat n)
                ++ " doesn't match any open tag")%string)
  | None => Ok tt
  end.

(** The cells of a table in the order in which rich reads them when it
    measures the columns: column by column, each from top to bottom. *)
Definition by_columns (rows : list (list string)) : list string :=
  flat_map (fun i =>
              flat_map (fun row => match nth_error row i with
                                   | Some cell => [cell]
                                   | None => []
                                   end) rows)
           (seq 0 (fold_right Nat.max 0%nat (map (@length string) rows))).

Definition markup_console : console :=
  fun p =>
    match p with
    | Line text => markup_text text
    | Table rows =>
        fold_right (fun cell rest =>
                      match markup_text cell with
                      | Ok _ => rest
                      | Raise e => Raise e
                      end) (Ok tt) (by_columns rows)
    end.

Definition locked : exn := Exn OperationalError "database is locked".

(** Every command runs out of time; the store accepts every session. *)
Definition env_timeout : iter_env :=
  mkEnv (fun n => t_2026 + seconds (5 + Z.of_nat n)) 4242
        (fun _ _ => Raise (Exn TimeoutExpired "timed out after 1 seconds"))
        (fun _ => Ok tt) None None None None None None.

(** As [env_timeout], but the store also refuses the session of the
    handler. *)
Definition env_timeout_locked : iter_env :=
  mkEnv (fun n => t_2026 + seconds (5 + Z.of_nat n)) 4242
        (fun _ _ => Raise (Exn TimeoutExpired "timed out after 1 seconds"))
        (fun _ => Ok tt) None None None None (Some locked) None.

(** The command exits with code 0; the store refuses the session opened
    inside [try], and accepts the one opened by the handler. *)
Definition env_locked_once : iter_env :=
  mkEnv (fun n => t_2026 + seconds (Z.of_nat n)) 4242
        (fun _ _ => Ok (0, "hi", ""))%string (fun _ => Ok tt)
        None None None (Some locked) None None.

(** ** The commands that only read *)

(** [WHERE state=?] *)
Definition in_state (s : string) (j : job) : bool := String.eqb (state j) s.

(** [SELECT COUNT( * ) FROM jobs WHERE ...] *)
Definition count_where (p : job -> bool) (rows : list job) : Z :=
  Z.of_nat (length (List.filter p rows)).

(** The five numbers [status] and the dashboard compute. *)
Record counts := mkCounts {
  n_total : Z;
  n_pending : Z;
  n_processing : Z;
  n_completed : Z;
  n_dead : Z
}.

Definition count_jobs (rows : list job) : counts :=
  mkCounts (Z.of_nat (length rows))
           (count_where (in_state "pending") rows)
           (count_where (in_state "processing") rows)
           (count_where (in_state "completed") rows)
           (count_where (in_state "dead") rows).

(** The rows (Metric, Count) of the table of [status]. *)
Definition status_table (c : counts) : printed :=
  Table [ ["Total Jobs"; str_of_int (n_total c)];
          ["Pending"; str_of_int (n_pending c)];
          ["Processing"; str_of_int (n_processing c)];
          ["Completed"; str_of_int (n_completed c)];
          ["Dead (DLQ)"; str_of_int (n_dead c)] ]%string.

Definition status_cmd (print : console) : M unit :=
  let! _ := init_db in
  let! c := (fun d => (Ok (count_jobs (jobs d)), d)) in
  lift (print (status_table c)).

(** [ORDER BY created_at] *)
Definition by_created_at (a b : job) : bool :=
  String.leb (created_at a) (created_at b).

(** The query of [list]: the filter applies when the option is given and
    is not the empty string. *)
Definition list_query (st : option string) (rows : list job) : list job :=
  match st with
  | Some s =>
      if String.eqb s "" then order_by by_created_at rows
      else order_by by_created_at (List.filter (in_state s) rows)
  | None => order_by by_created_at rows
  end.

Definition list_row (r : job) : list string :=
  [ id r; state r; command r; str_of_int (attempts r);
    str_of_int (max_retries r); available_at r; updated_at r ].

Definition list_cmd (print : console) (st : option string) : M unit :=
  let! _ := init_db in
  let! rows := (fun d => (Ok (list_query st (jobs d)), d)) in
  match rows with
  | [] => lift (print (Line "[yellow]No jobs found.[/yellow]"))
  | _ => lift (print (Table (map list_row rows)))
  end.

(** [r["last_error"] or ""] *)
Definition dlq_row (r : job) : list string :=
  [ id r; str_of_int (attempts r); str_of_int (max_retries r);
    default ""%string (last_error r) ].

Definition dlq_list (print : console) : M unit :=
  let! _ := init_db in
  let! rows := (fun d => (Ok (List.filter (in_state "dead") (jobs d)), d)) in
  match rows with
  | [] => lift (print (Line "[yellow]DLQ is empty.[/yellow]"))
  | _ => lift (print (Table (map dlq_row rows)))
  end.

Definition config_get (print : console) (key : string) : M unit :=
  let! _ := init_db in
  let! v := get_config key "" in
  lift (print (Line (key ++ " = " ++ v)%string)).

(** [enqueue]: [loaded] is what [json.loads] makes of the argument, a job
    object or the exception it raises.  Every exception raised inside
    [try], that of the first [print] included, is caught and its text
    printed; an exception raised by that second [print] leaves the
    command. *)
Definition enqueue_cmd (print : console) (loaded : outcome job_spec)
    (uuid4 : string) (now : Clock.datetime) : M unit :=
  try_except
    (let! job := lift loaded in
     let! job_id := enqueue_job job uuid4 now in
     lift (print (Line ("[green]Enqueued job:[/green] " ++ job_id)%string)))
    (fun e =>
       lift (print (Line ("[red]Error:[/red] " ++ str_of_exn e)%string))).

(** *** The dashboard ([dashboard.py]) *)

(** [ORDER BY updated_at DESC] *)
Definition by_updated_desc (a b : job) : bool :=
  String.leb (updated_at b) (updated_at a).

(** [SELECT * FROM jobs ORDER BY updated_at DESC LIMIT 20] *)
Definition recent_jobs (rows : list job) : list job :=
  firstn 20 (order_by by_updated_desc rows).

(** What [home] passes to the template: the counts, the worker
    registrations (their order in the page is not modelled) and the recent
    jobs. *)
Record page := mkPage {
  p_counts : counts;
  p_workers : gmap string worker;
  p_jobs : list job
}.

Definition home (d : db) : page :=
  mkPage (count_jobs (jobs d)) (workers d) (recent_jobs (jobs d)).

(** Every enqueue among [ops] creates its job in state [pending]: the
    specification gives no [state], or gives that one. *)
Definition enqueues_pending (ops : list op) : Prop :=
  forall spec uuid4 now,
    In (Enqueue spec uuid4 now) ops ->
    default "pending"%string (s_state spec) = "pending"%string.

(** One of the four states the program itself writes. *)
Definition legal_state (j : job) : bool :=
  in_state "pending" j || in_state "processing" j
  || in_state "completed" j || in_state "dead" j.

(** The rows [list] is asked for. *)
Definition wanted_rows (st : option string) (rows : list job) : list job :=
  match st with
  | Some s => if String.eqb s "" then rows else List.filter (in_state s) rows
  | None => rows
  end.

(** The configuration [init_db] seeds. *)
Definition default_config : gmap string string :=
  {[ "max_retries_default"%string := str_of_int DEFAULT_MAX_RETRIES;
     "backoff_base"%string := str_of_int DEFAULT_BACKOFF_BASE;
     "poll_idle_secs"%string := DEFAULT_POLL_IDLE_SECS ]}.

(** The columns no statement of the program writes after the INSERT. *)
Definition fixed_columns (j : job)
  : string * string * Z * string * Z * sqlval :=
  (id j, command j, max_retries j, created_at j, priority j, run_timeout j).

(** The shape of a row in each state: who holds a [processing] job, what
    a [completed] and a [dead] job carry. *)
Definition well_shaped (j : job) : Prop :=
  (state j = "pending" \/ state j = "processing"
   \/ state j = "completed" \/ state j = "dead")%string
  /\ (state j = "processing"%string ->
      worker_id j <> None /\ started_at j <> None)
  /\ (state j = "completed"%string ->
      output j <> None /\ finished_at j <> None)
  /\ (state j = "dead"%string ->
      last_error j <> None /\ finished_at j <> None).

(** What worker [w] may have changed between [d] and [d']: not the
    configuration, not the fixed columns or the number and order of the
    jobs, not the registration of another worker, not its own
    [started_at]. *)
Definition worker_frame (w : string) (d d' : db) : Prop :=
  kv d' = kv d
  /\ map fixed_columns (jobs d') = map fixed_columns (jobs d)
  /\ (forall w', w' <> w -> workers d' !! w' = workers d !! w')
  /\ (forall r, workers d !! w = Some r ->
        exists r', workers d' !! w = Some r'
                   /\ w_started_at r' = w_started_at r).

(** The registration a heartbeat of worker [w] writes on database [d]. *)
Definition registration (d : db) (w : string) (p : Z) (st : string)
    (t1 t2 : Clock.datetime) : worker :=
  mkWorker p
           (match workers d !! w with
            | Some old => w_started_at old
            | None => now_utc t1
            end)
           (now_utc t2) st.

(** A computation keeps within the frame of worker [w]. *)
Definition frames {A} (w : string) (m : M A) : Prop :=
  forall d, worker_frame w d (snd (m d)).

(** ** The calendar behind [Clock.isoformat] *)

(** The pieces of [Clock.civil_of_days]: the year of a 400-year era (which
    starts on 1 March) that a day of the era falls in, the day of the era
    on which a year starts, and the month and day of a day of such a
    year. *)
Definition year_of_era (doe : Z) : Z :=
  (doe - doe / 1460 + doe / 36524 - doe / 146096) / 365.

Definition start_of_year (k : Z) : Z := 365 * k + k / 4 - k / 100.

Definition month_day (doy : Z) : Z * Z :=
  let mp := (5 * doy + 2) / 153 in
  (if mp <? 10 then mp + 3 else mp - 9, doy - (153 * mp + 2) / 5 + 1).

(** The place of a month in a year that runs from March to February. *)
Definition month_rank (m : Z) : Z := if m <=? 2 then m + 12 else m.

(** The same day counted without the restriction to one era: the era's
    last year ends on day 146097. *)
Definition era_start (k : Z) : Z := start_of_year k + k / 400.

Definition check_year (k : Z) : bool :=
  (year_of_era (era_start k) =? k)
  && (year_of_era (era_start (k + 1) - 1) =? k)
  && (era_start k <? era_start (k + 1))
  && (era_start (k + 1) - era_start k <=? 366).

Definition check_doy (doy : Z) : bool :=
  let '(m, d) := month_day doy in
  let '(m', d') := month_day (doy + 1) in
  (1 <=? m) && (m <=? 12) && (1 <=? d) && (d <=? 31)
  && ((306 <=? doy) || (3 <=? m))
  && ((doy =? 365)
      || (month_rank m <? month_rank m')
      || ((month_rank m =? month_rank m') && (d <? d'))).

Fixpoint all_from (fuel : nat) (i : Z) (p : Z -> bool) : bool :=
  match fuel with
  | O => true
  | S f => p i && all_from f (i + 1) p
  end.

Definition era_numerator (doe : Z) : Z :=
  doe - doe / 1460 + doe / 36524 - doe / 146096.

(** Order of two (month, day) pairs within a year from March to
    February. *)
Definition md_lt (a b : Z * Z) : Prop :=
  month_rank (fst a) < month_rank (fst b)
  \/ (month_rank (fst a) = month_rank (fst b) /\ snd a < snd b).

(** Lexicographic order on (year, month, day). *)
Definition date_lt (a b : Z * Z * Z) : Prop :=
  let '(y1, m1, d1) := a in
  let '(y2, m2, d2) := b in
  y1 < y2 \/ (y1 = y2 /\ (m1 < m2 \/ (m1 = m2 /\ d1 < d2))).

(** * Properties *)

(** ** Text comparison and [ORDER BY] *)

Section TextOrder.

Lemma ascii_compare_lt_l (a b c : ascii) :
  Ascii.compare a b = Lt -> Ascii.compare b c <> Gt ->
  Ascii.compare a c = Lt.
Proof.
  unfold Ascii.compare. rewrite N.compare_le_iff, !N.compare_lt_iff. lia.
Qed.

Lemma string_compare_trans (a b c : string) :
  String.compare a b <> Gt -> String.compare b c <> Gt ->
  String.compare a c <> Gt.
Proof.
  revert b c. induction a as [|x a IH]; intros [|y b] [|z c]; simpl;
    try congruence.
  destruct (Ascii.compare x y) eqn:Hxy; try congruence;
    destruct (Ascii.compare y z) eqn:Hyz; try congruence; intros Hab Hbc.
  - apply Ascii.compare_eq_iff in Hxy, Hyz. subst.
    assert (Ascii.compare z z = Eq) as ->
      by (unfold Ascii.compare; apply N.compare_refl).
    eauto.
  - apply Ascii.compare_eq_iff in Hxy. subst. rewrite Hyz. congruence.
  - apply Ascii.compare_eq_iff in Hyz. subst. rewrite Hxy. congruence.
  - rewrite (ascii_compare_lt_l x y z); congruence.
Qed.

Lemma leb_trans (a b c : string) :
  String.leb a b = true -> String.leb b c = true -> String.leb a c = true.
Proof.
  unfold String.leb. intros Hab Hbc.
  pose proof (string_compare_trans a b c) as H.
  destruct (String.compare a b), (String.compare b c),
    (String.compare a c); try congruence; exfalso; apply H; congruence.
Qed.

Lemma opt_leb_total (a b : option string) :
  opt_leb a b = true \/ opt_leb b a = true.
Proof. destruct a, b; simpl; auto using String.leb_total. Qed.

Lemma opt_leb_trans (a b c : option string) :
  opt_leb a b = true -> opt_leb b c = true -> opt_leb a c = true.
Proof. destruct a, b, c; simpl; try congruence. apply leb_trans. Qed.

End TextOrder.

Section OrderBy.
Context {A : Type} (le : A -> A -> bool).
Hypothesis le_total : forall a b, le a b = true \/ le b a = true.
Hypothesis le_trans :
  forall a b c, le a b = true -> le b c = true -> le a c = true.

Lemma head_insert_by (x : A) (l : list A) :
  head (insert_by le x l) =
  Some (match l with
        | [] => x
        | y :: _ => if le x y then x else y
        end).
Proof. destruct l as [|y l]; simpl; [|destruct (le x y)]; reflexivity. Qed.

Lemma head_order_by_nil (l : list A) :
  head (order_by le l) = None <-> l = [].
Proof.
  destruct l as [|x l]; simpl; [tauto|].
  rewrite head_insert_by. split; discriminate.
Qed.

(** [LIMIT 1] after [ORDER BY] yields a row of the input that precedes or
    equals every other row. *)
Lemma head_order_by_min (l : list A) (m : A) :
  head (order_by le l) = Some m ->
  In m l /\ forall y, In y l -> le m y = true.
Proof.
  revert m. induction l as [|x l IH]; simpl; intros m; [discriminate|].
  rewrite head_insert_by.
  destruct (order_by le l) as [|y s] eqn:Hs.
  - intros [= <-]. assert (l = []) as -> by (apply head_order_by_nil; rewrite Hs; reflexivity).
    split; [auto|]. intros y [<-|[]]. destruct (le_total x x); assumption.
  - destruct (IH y eq_refl) as [Hy Hmin].
    destruct (le x y) eqn:Hxy; intros [= <-].
    + split; [auto|]. intros z [<-|Hz].
      * destruct (le_total x x); assumption.
      * eapply le_trans; eauto.
    + split; [auto|]. intros z [<-|Hz]; [|auto].
      destruct (le_total x y); congruence.
Qed.

(** A row that no other row precedes or equals is the one returned. *)
Lemma head_order_by_strict (l : list A) (x : A) :
  In x l ->
  (forall y, In y l -> le y x = true -> y = x) ->
  head (order_by le l) = Some x.
Proof.
  intros Hx Hstrict.
  destruct (head (order_by le l)) as [m|] eqn:Hm.
  - destruct (head_order_by_min l m Hm) as [Hin Hmin].
    f_equal. apply Hstrict; auto.
  - apply head_order_by_nil in Hm. subst. destruct Hx.
Qed.

End OrderBy.




Lemma filter_none {A} (p : A -> bool) (l : list A) :
  (forall a, In a l -> p a = false) -> List.filter p l = [].
Proof.
  induction l as [|x l IH]; simpl; intros H; [reflexivity|].
  rewrite (H x) by auto. auto.
Qed.

Lemma NoDup_map_eq {A B} (f : A -> B) (l : list A) (x y : A) :
  List.NoDup (map f l) -> In x l -> In y l -> f x = f y -> x = y.
Proof.
  induction l as [|a l IH]; simpl; [tauto|].
  intros Hnd Hx Hy Hxy. apply List.NoDup_cons_iff in Hnd as [Hnotin Hnd].
  destruct Hx as [->|Hx], Hy as [->|Hy]; auto.
  - exfalso. apply Hnotin. rewrite Hxy. apply in_map. assumption.
  - exfalso. apply Hnotin. rewrite <- Hxy. apply in_map. assumption.
Qed.

(** ** Claim *)

Section Claim.

Lemma claim_order_total (a b : job) :
  claim_order a b = true \/ claim_order b a = true.
Proof.
  unfold claim_order.
  destruct (Z.ltb_spec (priority a) (priority b)); [auto|].
  destruct (Z.ltb_spec (priority b) (priority a)); [auto|].
  assert (priority a = priority b) as -> by lia.
  rewrite Z.eqb_refl. simpl. apply String.leb_total.
Qed.

Lemma claim_order_trans (a b c : job) :
  claim_order a b = true -> claim_order b c = true -> claim_order a c = true.
Proof.
  unfold claim_order. rewrite !orb_true_iff, !andb_true_iff.
  rewrite !Z.ltb_lt, !Z.eqb_eq.
  intros [Hab|[Hab Hs1]] [Hbc|[Hbc Hs2]]; try (left; lia).
  right. split; [lia|]. eapply leb_trans; eauto.
Qed.

Lemma latest_first_total (a b : job) :
  latest_first a b = true \/ latest_first b a = true.
Proof. unfold latest_first. apply opt_leb_total. Qed.

Lemma latest_first_trans (a b c : job) :
  latest_first a b = true -> latest_first b c = true ->
  latest_first a c = true.
Proof. unfold latest_first. intros. eapply opt_leb_trans; eauto. Qed.


Lemma select_next_some (now : string) (rows : list job) (s : job) :
  select_next now rows = Some s ->
  In s rows /\ eligible now s = true
  /\ forall j, In j rows -> eligible now j = true -> claim_order s j = true.
Proof.
  unfold select_next. intros H.
  apply (head_order_by_min claim_order claim_order_total claim_order_trans)
    in H as [Hin Hmin].
  apply filter_In in Hin as [Hin He]. repeat split; auto.
  intros j Hj Hej. apply Hmin. apply filter_In. auto.
Qed.


Lemma held_by_set_processing (w now : string) (j : job) :
  held_by w (set_processing w now j) = true.
Proof. unfold held_by. simpl. rewrite String.eqb_refl. reflexivity. Qed.

Lemma claim_readback (w now : string) (rows : list job) (s : job) :
  In s rows ->
  (forall j, In j rows -> has_id (id s) j = true -> j = s) ->
  (forall j, In j rows -> held_by w j = true ->
             opt_leb (Some now) (started_at j) = false) ->
  head (order_by latest_first
          (List.filter (held_by w)
             (sql_update (has_id (id s)) (set_processing w now) rows)))
  = Some (set_processing w now s).
Proof.
  intros Hs Huniq Hheld.
  apply (head_order_by_strict latest_first latest_first_total
           latest_first_trans).
  - apply filter_In. split; [|apply held_by_set_processing].
    unfold sql_update. apply in_map_iff. exists s. split; [|assumption].
    unfold has_id. rewrite String.eqb_refl. reflexivity.
  - intros y Hy Hle. apply filter_In in Hy as [Hy Hw].
    unfold sql_update in Hy. apply in_map_iff in Hy as (j & <- & Hj).
    destruct (has_id (id s) j) eqn:Hid.
    + rewrite (Huniq j Hj Hid). reflexivity.
    + exfalso. specialize (Hheld j Hj Hw).
      unfold latest_first in Hle. cbn [started_at set_processing] in Hle.
      congruence.
Qed.


End Claim.

(** ** Failure finalization *)

Section Failure.

Lemma bind_int_fits (n : Z) : fits_int64 n = true -> bind_int n = Ok n.
Proof. unfold bind_int. intros ->. reflexivity. Qed.

Lemma fits_attempt (a : Z) : 0 <= a -> a + 1 < 2 ^ 63 -> fits_int64 (a + 1) = true.
Proof. unfold fits_int64. lia. Qed.

Lemma configured_base_parse (d : db) (base : Z) :
  configured_base d = Some base ->
  parse_base (match kv d !! "backoff_base"%string with
              | Some v => v
              | None => str_of_int DEFAULT_BACKOFF_BASE
              end) = Ok base.
Proof.
  unfold configured_base, parse_base.
  destruct (kv d !! "backoff_base"%string); cbv [from_option Datatypes.id];
    destruct (int_of_str _); intros [= ->]; reflexivity.
Qed.

(** Every exception of [int] is a [ValueError]. *)
Lemma int_of_str_raises (s : string) (e : exn) :
  int_of_str s = Raise e -> exn_cls e = ValueError.
Proof.
  unfold int_of_str, invalid_literal.
  destruct (rev _) as [|c l'];
    [|destruct (Ascii.eqb c "-"), (Ascii.eqb c "+")];
    destruct (parse_digits _ 0 0 false) as [[n count]|];
    try destruct (MAX_STR_DIGITS <? count);
    try destruct (existsb is_nul _);
    intros [= <-]; reflexivity.
Qed.

(** The sum of an instant and a delay in seconds is representable exactly
    when [timedelta] accepts the delay and the sum stays within the years
    1 to 9999; otherwise one of the two raises [OverflowError]. *)
Lemma next_time_after_some (t t' : Clock.datetime) (s : Z) :
  Clock.add_seconds t s = Some t' ->
  next_time_after t s = Ok (Clock.isoformat (t + s * Clock.US_PER_SECOND)).
Proof.
  unfold Clock.add_seconds, next_time_after, timedelta_seconds.
  destruct (Z.leb_spec (Z.abs (s / 86400)) 999999999) as [Habs|Habs];
    simpl; [|discriminate].
  assert (((- 2 ^ 31 <=? s / 86400) && (s / 86400 <? 2 ^ 31)) = true) as ->
    by lia.
  assert ((999999999 <? Z.abs (s / 86400)) = false) as -> by lia.
  simpl. destruct (Clock.in_range _); [reflexivity|discriminate].
Qed.

Lemma next_time_after_none (t : Clock.datetime) (s : Z) :
  Clock.add_seconds t s = None ->
  exists msg, next_time_after t s = Raise (Exn OverflowError msg).
Proof.
  unfold Clock.add_seconds, next_time_after, timedelta_seconds.
  destruct ((- 2 ^ 31 <=? s / 86400) && (s / 86400 <? 2 ^ 31)); simpl;
    [|eauto].
  destruct (Z.ltb_spec 999999999 (Z.abs (s / 86400))) as [Habs|Habs];
    [eauto|].
  assert ((Z.abs (s / 86400) <=? 999999999) = true) as -> by lia.
  simpl. destruct (Clock.in_range _); [discriminate|eauto].
Qed.

Lemma finish_job_failure_run (d : db) (job : job) (error : string)
    (t1 t2 : Clock.datetime) (base : Z) :
  0 <= attempts job ->
  attempts job + 1 < 2 ^ 63 ->
  configured_base d = Some base ->
  (attempts job + 1 <= max_retries job ->
   Clock.add_seconds t1 (base ^ (attempts job + 1)) <> None) ->
  failure_post d job error t1 t2 base.
Proof.
  intros Ha Hfit Hbase Hrange.
  unfold failure_post, finish_job_failure, bind, lift, get_config,
    compute_backoff_delay, int_pow.
  rewrite (configured_base_parse d base Hbase).
  assert ((0 <=? attempts job + 1) = true) as -> by lia.
  rewrite (bind_int_fits _ (fits_attempt _ Ha Hfit)).
  destruct (max_retries job <? attempts job + 1) eqn:Hdead; [reflexivity|].
  apply Z.ltb_ge in Hdead. specialize (Hrange Hdead).
  destruct (Clock.add_seconds t1 (base ^ (attempts job + 1))) as [t'|] eqn:Hadd;
    [|congruence].
  rewrite (next_time_after_some _ _ _ Hadd). reflexivity.
Qed.

Lemma finish_job_failure_overflow (d : db) (job : job) (error : string)
    (t1 t2 : Clock.datetime) (base : Z) :
  0 <= attempts job ->
  configured_base d = Some base ->
  attempts job + 1 <= max_retries job ->
  Clock.add_seconds t1 (base ^ (attempts job + 1)) = None ->
  exists msg,
    finish_job_failure job error t1 t2 d = (Raise (Exn OverflowError msg), d).
Proof.
  intros Ha Hbase Hle Hadd.
  unfold finish_job_failure, bind, lift, get_config,
    compute_backoff_delay, int_pow.
  rewrite (configured_base_parse d base Hbase).
  assert ((0 <=? attempts job + 1) = true) as -> by lia.
  assert ((max_retries job <? attempts job + 1) = false) as -> by lia.
  destruct (next_time_after_none _ _ Hadd) as [msg ->]. eauto.
Qed.

(** A failure finalization either raises and leaves the database as it
    was, or returns after one of its two UPDATE statements. *)
Lemma finish_job_failure_cases (job : job) (error : string)
    (t1 t2 : Clock.datetime) (d : db) :
  (exists e, finish_job_failure job error t1 t2 d = (Raise e, d))
  \/ (max_retries job < attempts job + 1
      /\ finish_job_failure job error t1 t2 d =
         (Ok tt, with_jobs d
            (sql_update (has_id (id job))
               (set_dead (attempts job + 1) (now_utc t1) (now_utc t2) error)
               (jobs d))))
  \/ (attempts job + 1 <= max_retries job
      /\ exists next_time,
          finish_job_failure job error t1 t2 d =
          (Ok tt, with_jobs d
             (sql_update (has_id (id job))
                (set_retry (attempts job + 1) next_time (now_utc t2) error)
                (jobs d)))).
Proof.
  unfold finish_job_failure, bind, lift, get_config.
  destruct (parse_base _) as [base|e]; [|left; eauto].
  destruct (compute_backoff_delay _ _) as [delay|e]; [|left; eauto].
  destruct (max_retries job <? attempts job + 1) eqn:Hdead.
  - apply Z.ltb_lt in Hdead. unfold bind_int.
    destruct (fits_int64 _); [|left; eauto]. right. left. auto.
  - apply Z.ltb_ge in Hdead.
    destruct (next_time_after t1 delay) as [nt|e]; [|left; eauto].
    unfold bind_int. destruct (fits_int64 _); [|left; eauto].
    right. right. eauto.
Qed.

(** C2, as amended.  For a job with attempts count [a >= 0] whose
    successor [a' = a + 1] fits a 64-bit integer, and a configuration whose
    [backoff_base] reads as the integer [base] (2 when the key is absent),
    let [delay = base ^ a'].  When [a' > max_retries] the call sets
    [state='dead'], [attempts=a'], [finished_at] and [updated_at] to the
    readings of the clock and [last_error] to the error text.  Otherwise,
    when the first reading plus [delay] seconds is a representable
    [datetime], it sets [state='pending'], [attempts=a'], [available_at]
    to that instant, [updated_at] to the second reading and [last_error]
    to the error text; when it is not, the call raises [OverflowError] and
    changes nothing.  The remaining columns of the row, and all other
    rows, are unchanged. *)
Theorem finish_job_failure_sets :
  forall (d : db) (job : job) (error : string) (t1 t2 : Clock.datetime)
         (base : Z),
    0 <= attempts job ->
    attempts job + 1 < 2 ^ 63 ->
    configured_base d = Some base ->
    let a' := attempts job + 1 in
    let delay := base ^ a' in
    (max_retries job < a' \/ Clock.add_seconds t1 delay <> None ->
     failure_post d job error t1 t2 base)
    /\ (a' <= max_retries job -> Clock.add_seconds t1 delay = None ->
        exists msg,
          finish_job_failure job error t1 t2 d =
          (Raise (Exn OverflowError msg), d))
    /\ (forall r : Queuectl.job,
          let r' := set_dead a' (now_utc t1) (now_utc t2) error r in
          state r' = "dead"%string /\ attempts r' = a'
          /\ finished_at r' = Some (now_utc t1)
          /\ updated_at r' = now_utc t2 /\ last_error r' = Some error)
    /\ (forall (r : Queuectl.job) (avail : string),
          let r' := set_retry a' avail (now_utc t2) error r in
          state r' = "pending"%string /\ attempts r' = a'
          /\ available_at r' = avail
          /\ updated_at r' = now_utc t2 /\ last_error r' = Some error).
Proof.
  intros d job error t1 t2 base Ha Hfit Hbase a' delay.
  split; [|split; [|split; intros; repeat split]].
  - intros Hok. apply finish_job_failure_run; try assumption.
    intros Hle. destruct Hok as [Hlt|Hsome]; [subst a'; lia|exact Hsome].
  - intros Hle Hadd. apply finish_job_failure_overflow with (base := base);
      assumption.
Qed.

Lemma sql_update_columns {B} (col : job -> B) (p : job -> bool)
    (f : job -> job) (rows : list job) :
  (forall r, col (f r) = col r) ->
  map col (sql_update p f rows) = map col rows.
Proof.
  intros Hf. unfold sql_update. rewrite map_map. apply map_ext.
  intros r. destruct (p r); auto.
Qed.

(** C4, as amended.  A failure finalization never writes [worker_id] or
    [started_at]: whether it returns or raises, these columns of every row
    are what they were.  When it returns having rescheduled the job
    ([attempts + 1 <= max_retries]), each row that carries the job's id is
    [pending] with one more attempt and still names the worker, and the
    start, that the claim wrote. *)
Theorem finish_job_failure_keeps_worker :
  forall (d : db) (job : job) (error : string) (t1 t2 : Clock.datetime),
    let res := finish_job_failure job error t1 t2 d in
    map worker_id (jobs (snd res)) = map worker_id (jobs d)
    /\ map started_at (jobs (snd res)) = map started_at (jobs d)
    /\ (fst res = Ok tt -> attempts job + 1 <= max_retries job ->
        forall r, In r (jobs d) -> id r = id job ->
          exists r', In r' (jobs (snd res)) /\ id r' = id job
                     /\ state r' = "pending"%string
                     /\ attempts r' = attempts job + 1
                     /\ worker_id r' = worker_id r
                     /\ started_at r' = started_at r).
Proof.
  intros d job error t1 t2 res. subst res.
  destruct (finish_job_failure_cases job error t1 t2 d)
    as [[e ->]|[[Hdead ->]|[Hle [next_time ->]]]]; cbn [fst snd jobs with_jobs].
  - repeat split; try reflexivity. discriminate.
  - split; [apply sql_update_columns; reflexivity|].
    split; [apply sql_update_columns; reflexivity|]. intros _ Hle. lia.
  - split; [apply sql_update_columns; reflexivity|].
    split; [apply sql_update_columns; reflexivity|].
    intros _ _ r Hr Hid. eexists. split.
    + unfold sql_update. apply in_map_iff. exists r. split; [|exact Hr].
      unfold has_id. rewrite Hid, String.eqb_refl. reflexivity.
    + simpl. auto.
Qed.

(** C8, as amended.  The fallback to base 2 applies when key
    [backoff_base] is absent: the call then behaves as if the key held the
    text 2, and reschedules or buries the job with [delay = 2 ^ a'].  When
    the key holds a text that [int] refuses, the call raises the
    [ValueError] of [int] and changes nothing. *)
Theorem finish_job_failure_base_fallback :
  forall (d : db) (job : job) (error : string) (t1 t2 : Clock.datetime),
    (kv d !! "backoff_base"%string = None ->
       finish_job_failure job error t1 t2 d =
       (let res := finish_job_failure job error t1 t2
                     (with_kv d (<["backoff_base"%string := "2"%string]> (kv d))) in
        (fst res, with_kv (snd res) (kv d)))
       /\ (0 <= attempts job -> attempts job + 1 < 2 ^ 63 ->
           (attempts job + 1 <= max_retries job ->
            Clock.add_seconds t1 (2 ^ (attempts job + 1)) <> None) ->
           failure_post d job error t1 t2 2))
    /\ (forall raw e,
          kv d !! "backoff_base"%string = Some raw ->
          int_of_str raw = Raise e ->
          exn_cls e = ValueError
          /\ finish_job_failure job error t1 t2 d = (Raise e, d)).
Proof.
  intros d job error t1 t2. split.
  - intros Hkv. split.
    + unfold finish_job_failure, bind, lift, get_config.
      cbn [kv with_kv]. rewrite Hkv, lookup_insert_eq.
      change (parse_base (str_of_int DEFAULT_BACKOFF_BASE)) with (@Ok Z 2).
      change (parse_base "2") with (@Ok Z 2). cbv beta iota.
      destruct (compute_backoff_delay 2 (attempts job + 1));
        [|destruct d; reflexivity].
      destruct (max_retries job <? attempts job + 1).
      * destruct (bind_int (attempts job + 1)); destruct d; reflexivity.
      * destruct (next_time_after t1 a); [|destruct d; reflexivity].
        destruct (bind_int (attempts job + 1)); destruct d; reflexivity.
    + intros Ha Hfit Hadd. apply finish_job_failure_run; try assumption.
      unfold configured_base. rewrite Hkv. reflexivity.
  - intros raw e Hkv Hraw. split; [exact (int_of_str_raises _ _ Hraw)|].
    unfold finish_job_failure, bind, lift, get_config, parse_base.
    rewrite Hkv, Hraw. reflexivity.
Qed.

End Failure.

(** ** Schema initialisation *)

Section InitDb.

Lemma ensure_default_config_spec (key value : string) (d : db) :
  fst (ensure_default_config key value d) = Ok tt
  /\ jobs (snd (ensure_default_config key value d)) = jobs d
  /\ workers (snd (ensure_default_config key value d)) = workers d
  /\ kv d ⊆ kv (snd (ensure_default_config key value d))
  /\ (is_Some (kv d !! key) -> snd (ensure_default_config key value d) = d).
Proof.
  unfold ensure_default_config.
  destruct (kv d !! key) eqn:Hk; simpl; repeat split; auto.
  - apply insert_subseteq. assumption.
  - intros [v Hv]. discriminate.
Qed.

Lemma init_db_spec (d : db) :
  fst (init_db d) = Ok tt
  /\ jobs (snd (init_db d)) = jobs d
  /\ workers (snd (init_db d)) = workers d
  /\ kv d ⊆ kv (snd (init_db d))
  /\ (initialised d -> snd (init_db d) = d).
Proof.
  unfold init_db, bind.
  pose proof (ensure_default_config_spec "max_retries_default"
                (str_of_int DEFAULT_MAX_RETRIES) d) as H1.
  destruct (ensure_default_config "max_retries_default" _ d) as [o1 d1].
  simpl in H1. destruct H1 as (-> & Hj1 & Hw1 & Hk1 & Hi1).
  pose proof (ensure_default_config_spec "backoff_base"
                (str_of_int DEFAULT_BACKOFF_BASE) d1) as H2.
  destruct (ensure_default_config "backoff_base" _ d1) as [o2 d2].
  simpl in H2. destruct H2 as (-> & Hj2 & Hw2 & Hk2 & Hi2).
  pose proof (ensure_default_config_spec "poll_idle_secs"
                DEFAULT_POLL_IDLE_SECS d2) as H3.
  destruct (ensure_default_config "poll_idle_secs" _ d2) as [o3 d3].
  simpl in H3. destruct H3 as (-> & Hj3 & Hw3 & Hk3 & Hi3).
  simpl. repeat split; try congruence.
  - etransitivity; [|exact Hk3]. etransitivity; eassumption.
  - intros (I1 & I2 & I3).
    rewrite (Hi1 I1) in *. rewrite (Hi2 I2) in *. auto.
Qed.

Lemma init_db_ok (d : db) : init_db d = (Ok tt, snd (init_db d)).
Proof.
  pose proof (init_db_spec d) as [H _]. destruct (init_db d). simpl in *.
  congruence.
Qed.

End InitDb.

(** ** Dead-letter retry *)

Section DlqRetry.

Lemma dlq_retry_run (print : console) (job_id : string)
    (t1 t2 : Clock.datetime) (d : db) :
  dlq_retry print job_id t1 t2 d =
  (print (Line ("[green]Requeued:[/green] " ++ job_id)%string),
   with_jobs (snd (init_db d))
     (sql_update (has_id job_id) (set_requeued (now_utc t1) (now_utc t2))
                 (jobs d))).
Proof.
  unfold dlq_retry, bind, lift. rewrite init_db_ok. simpl.
  destruct (init_db_spec d) as (_ & -> & _). reflexivity.
Qed.

(** C3, as amended.  For every job id, whatever the state of the job that
    carries it, [dlq_retry] rewrites that job to [state='pending'],
    [attempts=0], [available_at] and [updated_at] set to the readings of
    the clock, [last_error] and [finished_at] cleared; the other columns
    of the row and the other rows of the table are unchanged.  There is no
    refusal for a job that is not [dead]: the command then prints the
    [Requeued] line, and ends as that [print] ends. *)
Theorem dlq_retry_requeues_any_state :
  forall (print : console) (d : db) (job_id : string)
         (t1 t2 : Clock.datetime),
    let res := dlq_retry print job_id t1 t2 d in
    fst res = print (Line ("[green]Requeued:[/green] " ++ job_id)%string)
    /\ jobs (snd res) =
       map (fun r => if String.eqb (id r) job_id
                     then set_requeued (now_utc t1) (now_utc t2) r else r)
           (jobs d)
    /\ forall r : job,
         let r' := set_requeued (now_utc t1) (now_utc t2) r in
         state r' = "pending"%string /\ attempts r' = 0
         /\ available_at r' = now_utc t1 /\ updated_at r' = now_utc t2
         /\ last_error r' = None /\ finished_at r' = None
         /\ id r' = id r /\ command r' = command r
         /\ max_retries r' = max_retries r /\ created_at r' = created_at r
         /\ priority r' = priority r /\ run_timeout r' = run_timeout r
         /\ worker_id r' = worker_id r /\ started_at r' = started_at r
         /\ output r' = output r.
Proof.
  intros print d job_id t1 t2 res. subst res. rewrite dlq_retry_run. simpl.
  repeat split.
Qed.

Lemma sql_update_no_match (p : job -> bool) (f : job -> job)
    (rows : list job) :
  (forall r, In r rows -> p r = false) -> sql_update p f rows = rows.
Proof.
  intros H. unfold sql_update. rewrite <- (map_id rows) at 2.
  apply map_ext_in. intros r Hr. rewrite (H r Hr). reflexivity.
Qed.

(** C10, as amended.  For a job id that no row carries, [dlq_retry]
    changes no row of [jobs] or [workers]; every row of [kv] is kept, and
    on a database whose configuration has been seeded the database is
    unchanged.  The command hands the [Requeued] line to the console and
    ends as that [print] ends: with exit code 0 when the console accepts
    the line, with the exception of the console and exit code 1 when it
    refuses it. *)
Theorem dlq_retry_unknown_id :
  forall (print : console) (d : db) (job_id : string)
         (t1 t2 : Clock.datetime),
    (forall r, In r (jobs d) -> id r <> job_id) ->
    let res := dlq_retry print job_id t1 t2 d in
    let line := Line ("[green]Requeued:[/green] " ++ job_id)%string in
    fst res = print line
    /\ (print line = Ok tt -> exit_code (fst res) = 0)
    /\ (forall e, print line = Raise e ->
          fst res = Raise e /\ exit_code (fst res) = 1)
    /\ jobs (snd res) = jobs d
    /\ workers (snd res) = workers d
    /\ kv d ⊆ kv (snd res)
    /\ (initialised d -> snd res = d).
Proof.
  intros print d job_id t1 t2 Hfresh res line. subst res line.
  rewrite dlq_retry_run.
  assert (Hsame : sql_update (has_id job_id)
                    (set_requeued (now_utc t1) (now_utc t2)) (jobs d) = jobs d).
  { apply sql_update_no_match. intros r Hr. unfold has_id.
    apply String.eqb_neq. auto. }
  rewrite Hsame. cbn [fst snd].
  destruct (init_db_spec d) as (_ & Hj & Hw & Hk & Hi).
  split; [reflexivity|]. split; [intros ->; reflexivity|].
  split; [intros e ->; split; reflexivity|].
  repeat split; auto.
  intros Hinit. rewrite (Hi Hinit). destruct d; reflexivity.
Qed.

End DlqRetry.

(** ** Enqueue *)

Section Enqueue.

Lemma truthy_is_false (v : pyval) : truthy v = negb (is_false v).
Proof.
  destruct v as [|[]|[]|[]|[]|[]]; reflexivity.
Qed.

Lemma timeout_choice_code (spec : job_spec) :
  py_or (py_or (get_or_none (s_timeout spec))
               (get_or_none (s_run_timeout spec))) PNone
  = timeout_choice spec.
Proof.
  unfold timeout_choice, py_or, get_or_none.
  destruct (s_timeout spec) as [a|], (s_run_timeout spec) as [b|];
    cbv [from_option Datatypes.id];
    try destruct (is_false a) eqn:Ea; try destruct (is_false b) eqn:Eb;
    rewrite ?truthy_is_false, ?Ea, ?Eb; simpl;
    rewrite ?truthy_is_false, ?Ea, ?Eb; simpl; reflexivity.
Qed.

(** Binding a value and storing it under the INTEGER affinity of the
    column. *)
Lemma bind_value_column (v : pyval) :
  match bind_value v with
  | Ok r => column_value v = Some (integer_affinity r)
  | Raise _ => column_value v = None
  end.
Proof.
  destruct v as [|[]|n|s|l|l]; simpl; try reflexivity.
  unfold bind_int. destruct (fits_int64 n); reflexivity.
Qed.

Lemma enqueue_job_run (spec : job_spec) (uuid4 : string)
    (now : Clock.datetime) (d : db) (cmd : string) (r : sqlval) :
  s_command spec = Some cmd ->
  fits_int64 (default 0 (s_attempts spec)) = true ->
  fits_int64 (default DEFAULT_MAX_RETRIES (s_max_retries spec)) = true ->
  fits_int64 (default 0 (s_priority spec)) = true ->
  column_value (timeout_choice spec) = Some r ->
  existsb (has_id (default uuid4 (s_id spec))) (jobs d) = false ->
  enqueue_job spec uuid4 now d =
  (Ok (default uuid4 (s_id spec)),
   with_jobs (snd (init_db d))
     (jobs d ++
      [mkJob (default uuid4 (s_id spec)) cmd
             (default "pending"%string (s_state spec))
             (default 0 (s_attempts spec))
             (default DEFAULT_MAX_RETRIES (s_max_retries spec))
             (default (now_utc now) (s_created_at spec))
             (default (default (now_utc now) (s_created_at spec))
                      (s_updated_at spec))
             (default (default (now_utc now) (s_created_at spec))
                      (s_available_at spec))
             (default 0 (s_priority spec)) r None None None None None])).
Proof.
  intros Hcmd Ha Hm Hp Hr Hfresh.
  unfold enqueue_job, bind. rewrite init_db_ok, Hcmd.
  unfold lift. rewrite !bind_int_fits by assumption.
  rewrite timeout_choice_code.
  pose proof (bind_value_column (timeout_choice spec)) as Hbind.
  destruct (bind_value (timeout_choice spec)) as [r0|e]; [|congruence].
  assert (integer_affinity r0 = r) as -> by congruence.
  unfold insert_job, ret. cbn [id].
  destruct (init_db_spec d) as (_ & -> & _). rewrite Hfresh. reflexivity.
Qed.

Lemma bind_int_raise (n : Z) :
  fits_int64 n = false -> exists e, bind_int n = Raise e.
Proof. unfold bind_int. intros ->. eauto. Qed.

Lemma enqueue_job_refused (spec : job_spec) (uuid4 : string)
    (now : Clock.datetime) (d : db) :
  ~ store_accepts d spec uuid4 ->
  (exists e, fst (enqueue_job spec uuid4 now d) = Raise e)
  /\ jobs (snd (enqueue_job spec uuid4 now d)) = jobs d.
Proof.
  intros Hno. unfold enqueue_job, bind, lift. rewrite init_db_ok.
  destruct (init_db_spec d) as (_ & Hj & _).
  destruct (s_command spec) as [cmd|] eqn:Hcmd; [|simpl; eauto].
  destruct (fits_int64 (default 0 (s_attempts spec))) eqn:Ha;
    [rewrite (bind_int_fits _ Ha)
    |destruct (bind_int_raise _ Ha) as [e ->]; simpl; eauto].
  destruct (fits_int64 (default DEFAULT_MAX_RETRIES (s_max_retries spec)))
    eqn:Hm;
    [rewrite (bind_int_fits _ Hm)
    |destruct (bind_int_raise _ Hm) as [e ->]; simpl; eauto].
  destruct (fits_int64 (default 0 (s_priority spec))) eqn:Hp;
    [rewrite (bind_int_fits _ Hp)
    |destruct (bind_int_raise _ Hp) as [e ->]; simpl; eauto].
  rewrite timeout_choice_code.
  pose proof (bind_value_column (timeout_choice spec)) as Hbind.
  destruct (bind_value (timeout_choice spec)) as [r|e] eqn:Hr;
    [|simpl; eauto].
  unfold insert_job. cbn [id]. rewrite Hj.
  destruct (existsb _ (jobs d)) eqn:Hex; [simpl; eauto|].
  exfalso. apply Hno. unfold store_accepts. rewrite Hcmd. eauto 10.
Qed.

(** C9, as amended.  For every job specification, an enqueue that the
    store accepts appends one row whose [run_timeout] is what the column
    keeps of the value of key [timeout] if that value is true, otherwise
    of the value of key [run_timeout] if that is true, and is NULL
    otherwise.  The column keeps a nonzero integer as it is, and a text
    that reads as an integer as that integer, not as the text; with
    [run_timeout = 0] and no [timeout] it holds NULL.  An enqueue that the
    store refuses (no command, an integer beyond 64 bits, a list or an
    object as the chosen timeout, a taken id) raises and adds no row. *)
Theorem enqueue_stores_timeout_choice :
  forall (d : db) (spec : job_spec) (uuid4 : string) (now : Clock.datetime),
    let res := enqueue_job spec uuid4 now d in
    (store_accepts d spec uuid4 ->
       exists row,
         fst res = Ok (id row)
         /\ jobs (snd res) = jobs d ++ [row]
         /\ column_value (timeout_choice spec) = Some (run_timeout row)
         /\ (forall n, s_timeout spec = Some (PInt n) -> n <> 0 ->
               run_timeout row = SInt n)
         /\ (forall s n, s_timeout spec = Some (PStr s) ->
               numeric_text_of s = IntegerText n -> fits_int64 n = true ->
               run_timeout row = SInt n)
         /\ (s_timeout spec = None -> s_run_timeout spec = Some (PInt 0) ->
               run_timeout row = SNull))
    /\ (~ store_accepts d spec uuid4 ->
          (exists e, fst res = Raise e) /\ jobs (snd res) = jobs d).
Proof.
  intros d spec uuid4 now res. subst res. split.
  - intros ([cmd Hcmd] & Ha & Hm & Hp & [r Hr] & Hfresh).
    rewrite (enqueue_job_run spec uuid4 now d cmd r) by assumption.
    eexists. cbn [fst snd jobs with_jobs].
    refine (conj _ (conj eq_refl _)); [reflexivity|].
    cbn [run_timeout]. split; [exact Hr|].
    unfold timeout_choice in Hr. repeat split.
    + intros n Ht Hn. rewrite Ht in Hr.
      assert (is_false (PInt n) = false) as E
        by (destruct n; [contradiction|reflexivity|reflexivity]).
      rewrite E in Hr. simpl in Hr.
      destruct (fits_int64 n); congruence.
    + intros s n Ht Hnum Hfit. rewrite Ht in Hr.
      assert (is_false (PStr s) = false) as E.
      { destruct s; [|reflexivity]. discriminate Hnum. }
      rewrite E in Hr. simpl in Hr. rewrite Hnum, Hfit in Hr. congruence.
    + intros Ht Hrt. rewrite Ht, Hrt in Hr. simpl in Hr. congruence.
  - apply enqueue_job_refused.
Qed.

End Enqueue.

(** ** The bound on attempts along admitted operations *)

Section Attempts.

Lemma good_rows_update (p : job -> bool) (f : job -> job) (rows : list job) :
  good_rows rows ->
  (forall r, In r rows -> p r = true ->
     id (f r) = id r /\ max_retries (f r) = max_retries r
     /\ attempts_bounded (f r)) ->
  good_rows (sql_update p f rows).
Proof.
  intros [Hnd Hrows] Hf. split.
  - unfold sql_update. rewrite map_map.
    erewrite map_ext_in; [exact Hnd|].
    intros r Hr. simpl. destruct (p r) eqn:Hp; [|reflexivity].
    apply (Hf r Hr Hp).
  - intros r' Hr'. unfold sql_update in Hr'.
    apply in_map_iff in Hr' as (r & <- & Hr).
    destruct (p r) eqn:Hp; [|auto].
    destruct (Hf r Hr Hp) as (_ & -> & Hb). split; [|exact Hb].
    apply (Hrows r Hr).
Qed.

Lemma good_rows_same_id (rows : list job) (j r : job) :
  good_rows rows -> In j rows -> In r rows -> has_id (id j) r = true -> r = j.
Proof.
  intros [Hnd _] Hj Hr Hid. unfold has_id in Hid.
  apply String.eqb_eq in Hid. eapply NoDup_map_eq; eauto.
Qed.

Lemma not_dead_below (r : job) :
  attempts_bounded r -> state r <> "dead"%string ->
  attempts r <= max_retries r.
Proof.
  intros [Hle Heq] Hstate.
  destruct (Z.eq_dec (attempts r) (max_retries r + 1)) as [E|E]; [|lia].
  destruct (Heq E) as [Hdead _]. contradiction.
Qed.

Lemma bounded_below (r : job) :
  attempts r <= max_retries r -> attempts_bounded r.
Proof. intros H. split; [lia|]. intros E. lia. Qed.

Lemma enqueue_rows (spec : job_spec) (uuid4 : string) (now : Clock.datetime)
    (d : db) :
  plain_spec spec -> good_rows (jobs d) ->
  good_rows (jobs (snd (enqueue_job spec uuid4 now d))).
Proof.
  intros (Hst & Hat & Hmax) Hgood.
  unfold enqueue_job, bind, lift. rewrite init_db_ok.
  destruct (init_db_spec d) as (_ & Hj & _).
  destruct (s_command spec) as [cmd|]; [|simpl; rewrite Hj; exact Hgood].
  rewrite Hat. cbn [default from_option Datatypes.id].
  change (bind_int 0) with (@Ok Z 0). cbv beta iota.
  destruct (bind_int (default DEFAULT_MAX_RETRIES (s_max_retries spec)))
    as [m|] eqn:Hm; [|simpl; rewrite Hj; exact Hgood].
  destruct (bind_int (default 0 (s_priority spec))) as [pr|];
    [|simpl; rewrite Hj; exact Hgood].
  destruct (bind_value _) as [rt|]; [|simpl; rewrite Hj; exact Hgood].
  unfold insert_job. cbn [id]. rewrite Hj.
  destruct (existsb _ (jobs d)) eqn:Hex; [simpl; rewrite Hj; exact Hgood|].
  simpl. destruct Hgood as [Hnd Hrows]. split.
  - rewrite map_app. simpl. apply List.NoDup_app; [exact Hnd| |].
    { apply List.NoDup_cons; [simpl; tauto|apply List.NoDup_nil]. }
    intros x Hx [<-|[]].
    apply in_map_iff in Hx as (r & Hid & Hr).
    assert (existsb (has_id (default uuid4 (s_id spec))) (jobs d) = true) as E.
    { apply existsb_exists. exists r. split; [exact Hr|].
      unfold has_id. rewrite Hid. apply String.eqb_refl. }
    congruence.
  - intros r Hr. apply in_app_iff in Hr as [Hr|[<-|[]]]; [auto|].
    simpl. assert (0 <= m) as Hm0.
    { unfold bind_int in Hm. destruct (fits_int64 _); [|discriminate].
      injection Hm as <-. destruct (s_max_retries spec); simpl;
        [assumption|unfold DEFAULT_MAX_RETRIES; lia]. }
    split; [exact Hm0|]. apply bounded_below. simpl. lia.
Qed.

Lemma claim_rows (w : string) (t : Clock.datetime) (d : db) :
  good_rows (jobs d) ->
  good_rows (jobs (snd (atomic_claim_next_job w t d))).
Proof.
  intros Hgood. unfold atomic_claim_next_job.
  destruct (select_next (now_utc t) (jobs d)) as [s|] eqn:Hsel.
  - destruct (Nat.eqb _ 0); [exact Hgood|]. simpl.
    destruct (select_next_some _ _ _ Hsel) as (Hs & Hel & _).
    apply good_rows_update; [exact Hgood|].
    intros r Hr Hid.
    assert (r = s) as -> by (eapply good_rows_same_id; eauto).
    split; [reflexivity|]. split; [reflexivity|].
    apply bounded_below. simpl.
    apply not_dead_below; [apply (proj2 Hgood s Hs)|].
    unfold eligible in Hel. apply andb_true_iff in Hel as [Hp _].
    apply String.eqb_eq in Hp. rewrite Hp. discriminate.
  - destruct (Nat.eqb _ 0); [exact Hgood|]. simpl.
    rewrite sql_update_no_match; [exact Hgood|reflexivity].
Qed.

Lemma success_rows (j : job) (out : string) (t1 t2 : Clock.datetime)
    (d : db) :
  In j (jobs d) -> state j = "processing"%string -> good_rows (jobs d) ->
  good_rows (jobs (snd (finish_job_success (id j) out t1 t2 d))).
Proof.
  intros Hj Hstate Hgood. simpl.
  apply good_rows_update; [exact Hgood|].
  intros r Hr Hid.
  assert (r = j) as -> by (eapply good_rows_same_id; eauto).
  split; [reflexivity|]. split; [reflexivity|].
  apply bounded_below. simpl.
  apply not_dead_below; [apply (proj2 Hgood j Hj)|].
  rewrite Hstate. discriminate.
Qed.

Lemma failure_rows (j : job) (error : string) (t1 t2 : Clock.datetime)
    (d : db) :
  In j (jobs d) -> state j = "processing"%string -> good_rows (jobs d) ->
  good_rows (jobs (snd (finish_job_failure j error t1 t2 d))).
Proof.
  intros Hj Hstate Hgood.
  assert (Hbelow : attempts j <= max_retries j).
  { apply not_dead_below; [apply (proj2 Hgood j Hj)|].
    rewrite Hstate. discriminate. }
  unfold finish_job_failure, bind, lift, get_config.
  destruct (parse_base _) as [base|]; [|exact Hgood].
  destruct (compute_backoff_delay _ _) as [delay|]; [|exact Hgood].
  destruct (max_retries j <? attempts j + 1) eqn:Hdead.
  - destruct (bind_int (attempts j + 1)) as [a|] eqn:Ha; [|exact Hgood].
    simpl. apply good_rows_update; [exact Hgood|].
    intros r Hr Hid.
    assert (r = j) as -> by (eapply good_rows_same_id; eauto).
    unfold bind_int in Ha. destruct (fits_int64 _); [|discriminate].
    injection Ha as <-. apply Z.ltb_lt in Hdead.
    split; [reflexivity|]. split; [reflexivity|].
    split; simpl; [lia|]. intros _. eauto.
  - destruct (next_time_after t1 delay) as [nt|]; [|exact Hgood].
    destruct (bind_int (attempts j + 1)) as [a|] eqn:Ha; [|exact Hgood].
    simpl. apply good_rows_update; [exact Hgood|].
    intros r Hr Hid.
    assert (r = j) as -> by (eapply good_rows_same_id; eauto).
    unfold bind_int in Ha. destruct (fits_int64 _); [|discriminate].
    injection Ha as <-. apply Z.ltb_ge in Hdead.
    split; [reflexivity|]. split; [reflexivity|].
    apply bounded_below. simpl. lia.
Qed.

Lemma retry_rows (print : console) (job_id : string)
    (t1 t2 : Clock.datetime) (d : db) :
  good_rows (jobs d) ->
  good_rows (jobs (snd (dlq_retry print job_id t1 t2 d))).
Proof.
  intros Hgood. rewrite dlq_retry_run. simpl.
  apply good_rows_update; [exact Hgood|].
  intros r Hr _. split; [reflexivity|]. split; [reflexivity|].
  apply bounded_below. simpl. apply (proj2 Hgood r Hr).
Qed.

Lemma config_rows (print : console) (key value : string) (d : db) :
  jobs (snd (config_set_cmd print key value d)) = jobs d.
Proof.
  unfold config_set_cmd, bind, lift. rewrite init_db_ok. simpl.
  apply (init_db_spec d).
Qed.

Lemma reachable_good_rows (d : db) : reachable d -> good_rows (jobs d).
Proof.
  induction 1 as [|d o Hreach IH Hadm].
  - split; [constructor|]. intros r [].
  - destruct Hadm; simpl.
    + apply enqueue_rows; assumption.
    + apply claim_rows; assumption.
    + apply (success_rows j); assumption.
    + apply failure_rows; assumption.
    + apply retry_rows; assumption.
    + rewrite config_rows. assumption.
Qed.

(** C6, as amended.  In every state reached from the empty database by
    enqueue of specifications that leave [state] and [attempts] to their
    defaults and give no negative [max_retries], claim, success and failure
    finalization of a job that is [processing] (with its row as it stands),
    [dlq_retry] and [config set], every job satisfies
    [attempts <= max_retries + 1], and [attempts = max_retries + 1] only
    when the job is [dead] with the error of its last attempt recorded. *)
Theorem attempts_bounded_reachable :
  forall d : db, reachable d ->
    forall j, In j (jobs d) ->
      attempts j <= max_retries j + 1
      /\ (attempts j = max_retries j + 1 ->
          state j = "dead"%string /\ exists e, last_error j = Some e).
Proof.
  intros d Hreach j Hj.
  apply (proj2 (reachable_good_rows d Hreach) j Hj).
Qed.

End Attempts.

(** ** The worker's handling of errors *)

Section Worker.

Lemma try_except_raise {A} (m : M A) (h : exn -> M A) (d d1 : db) (e : exn) :
  m d = (Raise e, d1) -> try_except m h d = h e d1.
Proof. unfold try_except. intros ->. reflexivity. Qed.

Lemma worker_loop_raise (w : string) (env : iter_env)
    (rest : list (bool * iter_env)) (d d' : db) (e : exn) :
  worker_iteration w env d = (Raise e, d') ->
  worker_loop w ((false, env) :: rest) d = (Raise e, d').
Proof. intros H. simpl. unfold bind. rewrite H. reflexivity. Qed.

End Worker.

(** ** The model on small inputs *)

Example isoformat_whole_second :
  Clock.isoformat t_2026 = "2026-01-01T00:00:00+00:00"%string.
Proof. vm_compute. reflexivity. Qed.

Example isoformat_fraction :
  Clock.isoformat (t_2026 + 1500000) = "2026-01-01T00:00:01.500000+00:00"%string.
Proof. vm_compute. reflexivity. Qed.

Example isoformat_last_instant :
  Clock.isoformat (Clock.MAX_DAYS * Clock.US_PER_DAY - 1)
  = "9999-12-31T23:59:59.999999+00:00"%string.
Proof. vm_compute. reflexivity. Qed.

Example int_of_str_samples :
  map int_of_str [" 12_3 "; "-007"; "+5"; String (chr 160) "2"]%string
  = [Ok 123; Ok (-7); Ok 5; Ok 2].
Proof. vm_compute. reflexivity. Qed.

(** Doubled, leading and trailing underscores, a blank after the sign, a
    fraction, the empty text, and U+001F, which [int] does not skip. *)
Example int_of_str_refused :
  let texts := ["1__2"; "_1"; "1_"; "- 1"; "2.0"; ""; String (chr 31) "2"]%string in
  map int_of_str texts = map invalid_literal texts.
Proof. vm_compute. reflexivity. Qed.

Example int_of_str_message :
  int_of_str "two"
  = Raise (Exn ValueError "invalid literal for int() with base 10: 'two'").
Proof. vm_compute. reflexivity. Qed.

Example int_of_str_limit :
  exn_cls <$> (match int_of_str (string_of_list_ascii (repeat "7"%char 4301)) with
               | Ok _ => None
               | Raise e => Some e
               end) = Some ValueError
  /\ int_of_str (string_of_list_ascii (repeat "7"%char 3)) = Ok 777.
Proof. split; vm_compute; reflexivity. Qed.

Example repr_samples :
  map repr ["two"; "it's"; String (chr 31) "2"; String (chr 9) "x"]%string
  = [ "'two'"; String double_quote ("it's" ++ String double_quote "");
      String single_quote (String backslash "x1f2'");
      String single_quote (String backslash "tx'") ]%string.
Proof. vm_compute. reflexivity. Qed.

Example strip_samples :
  strip (String (chr 160) (" boom" ++ String (chr 10) (String (chr 133) "")))
  = "boom"%string.
Proof. vm_compute. reflexivity. Qed.

Example numeric_text_samples :
  map numeric_text_of
      ["5"; " 5 "; "-007"; "5.0"; ".5"; "1e3"; "5e"; "5s"; "0x10"; "-"; ""]%string
  = [IntegerText 5; IntegerText 5; IntegerText (-7); RealText; RealText;
     RealText; NotNumeric; NotNumeric; NotNumeric; NotNumeric; NotNumeric].
Proof. vm_compute. reflexivity. Qed.

(** A delay of 10^12 seconds passes [timedelta] and leaves the calendar;
    10^14 seconds exceed the days of a [timedelta], and 10^18 a C int. *)
Example next_time_after_samples :
  map (next_time_after t_2026) [4; 10 ^ 12; 10 ^ 14; 10 ^ 18]
  = [ Ok "2026-01-01T00:00:04+00:00"%string;
      Raise (Exn OverflowError "date value out of range");
      Raise (Exn OverflowError
               "days=1157407407; must have magnitude <= 999999999");
      Raise (Exn OverflowError "Python int too large to convert to C int") ].
Proof. vm_compute. reflexivity. Qed.

Example backoff_delays :
  map (compute_backoff_delay 2) [1; 2; 3; 4] = [Ok 2; Ok 4; Ok 8; Ok 16].
Proof. vm_compute. reflexivity. Qed.

(** Three claims on [three_jobs] return the priority-0 job, then the two
    priority-5 jobs in the order of their creation. *)
Example claims_in_priority_order :
  let c1 := atomic_claim_next_job "w1" (t_2026 + seconds 5) three_jobs in
  let c2 := atomic_claim_next_job "w2" (t_2026 + seconds 6) (snd c1) in
  let c3 := atomic_claim_next_job "w3" (t_2026 + seconds 7) (snd c2) in
  let c4 := atomic_claim_next_job "w4" (t_2026 + seconds 8) (snd c3) in
  map returned_id [fst c1; fst c2; fst c3; fst c4]
  = [Some "b"; Some "a"; Some "c"; None]%string.
Proof. vm_compute. reflexivity. Qed.

(** One pass of a worker over a database holding one pending job: the
    command exits with 0 and the job ends [completed] with its output. *)
Example iteration_completes_job :
  let env := mkEnv (fun n => t_2026 + seconds (Z.of_nat n)) 4242
                   (fun _ _ => Ok (0, "hi", ""))%string (fun _ => Ok tt)
                   None None None None None None in
  let res := worker_iteration "w1" env
               (db_of [pending_job "j1" "echo hi" 0
                         "2026-01-01T00:00:00+00:00"]) in
  fst res = Ok tt
  /\ map state (jobs (snd res)) = ["completed"%string]
  /\ map output (jobs (snd res)) = [Some "hi"%string]
  /\ map worker_id (jobs (snd res)) = [Some "w1"%string]
  /\ status <$> (workers (snd res) !! "w1"%string) = Some "processing:j1"%string.
Proof. cbv zeta. repeat split; vm_compute; reflexivity. Qed.

Lemma three_jobs_unique : unique_ids three_jobs.
Proof.
  unfold unique_ids. simpl.
  repeat (apply List.NoDup_cons; [simpl; intuition discriminate|]).
  apply List.NoDup_nil.
Qed.

Lemma three_jobs_free (w : string) (j : job) :
  In j (jobs three_jobs) -> held_by w j = false.
Proof.
  simpl. intros [<-|[<-|[<-|[]]]]; unfold held_by; simpl; reflexivity.
Qed.

Lemma three_jobs_select :
  select_next (now_utc (t_2026 + seconds 7)) (jobs three_jobs) = Some job_b.
Proof. vm_compute. reflexivity. Qed.

(** ** The claims on the example data *)


(** With base 2 the second failure of [failed_once] reschedules it four
    seconds later. *)
Lemma finish_job_failure_sets_witness :
  failure_post (db_of [failed_once]) failed_once "exit 1"
               (t_2026 + seconds 4) (t_2026 + seconds 4) 2
  /\ Clock.isoformat (t_2026 + seconds 4 + 2 ^ 2 * Clock.US_PER_SECOND)
     = "2026-01-01T00:00:08+00:00"%string.
Proof.
  split; [|vm_compute; reflexivity].
  apply (finish_job_failure_sets (db_of [failed_once]) failed_once "exit 1"
           (t_2026 + seconds 4) (t_2026 + seconds 4) 2).
  - simpl. lia.
  - simpl. lia.
  - vm_compute. reflexivity.
  - right. vm_compute. discriminate.
Defined.

(** C2 as stated fails on [big_base]: the second failure asks for a delay
    of 10^12 seconds, the sum leaves the years Python can represent, and
    the call raises [OverflowError] instead of rescheduling the job. *)
Lemma big_delay_raises_overflow :
  configured_base big_base = Some 1000000
  /\ finish_job_failure failed_once "exit 1" t_2026 t_2026 big_base
     = (Raise (Exn OverflowError "date value out of range"), big_base)
  /\ ~ failure_post big_base failed_once "exit 1" t_2026 t_2026 1000000.
Proof.
  assert (H : finish_job_failure failed_once "exit 1" t_2026 t_2026 big_base
              = (Raise (Exn OverflowError "date value out of range"), big_base))
    by (vm_compute; reflexivity).
  split; [vm_compute; reflexivity|]. split; [exact H|].
  unfold failure_post. rewrite H. discriminate.
Qed.

(** The second failure of [failed_once] reschedules it: the row is
    [pending] and still names worker [w1]. *)
Lemma finish_job_failure_keeps_worker_witness :
  let res := finish_job_failure failed_once "exit 1" (t_2026 + seconds 4)
               (t_2026 + seconds 4) (db_of [failed_once]) in
  map worker_id (jobs (snd res)) = [Some "w1"%string]
  /\ exists r', In r' (jobs (snd res))
                /\ state r' = "pending"%string /\ attempts r' = 2
                /\ worker_id r' = Some "w1"%string.
Proof.
  destruct (finish_job_failure_keeps_worker (db_of [failed_once])
              failed_once "exit 1" (t_2026 + seconds 4)
              (t_2026 + seconds 4)) as (Hw & _ & H).
  split; [exact Hw|].
  destruct (H ltac:(vm_compute; reflexivity) ltac:(simpl; lia) failed_once
              ltac:(simpl; auto) eq_refl)
    as (r' & Hin & _ & Hstate & Hatt & Hwid & _).
  exists r'. auto.
Defined.

(** C4 as stated fails on [failed_once]: after the failure is finalized the
    job is [pending], yet [worker_id] and [started_at] still hold what the
    claim wrote. *)
Lemma failure_leaves_worker_id :
  exists r,
    jobs (snd (finish_job_failure failed_once "exit 1" (t_2026 + seconds 4)
                 (t_2026 + seconds 4) (db_of [failed_once]))) = [r]
    /\ state r = "pending"%string
    /\ worker_id r = Some "w1"%string
    /\ started_at r = Some "2026-01-01T00:00:03+00:00"%string.
Proof. eexists. vm_compute. repeat split. Qed.

(** Without a [backoff_base] row the second failure of [failed_once]
    waits 2 ^ 2 seconds. *)
Lemma finish_job_failure_base_fallback_witness :
  failure_post no_base failed_once "exit 1"
               (t_2026 + seconds 4) (t_2026 + seconds 4) 2.
Proof.
  destruct (finish_job_failure_base_fallback no_base failed_once "exit 1"
              (t_2026 + seconds 4) (t_2026 + seconds 4)) as [H _].
  destruct (H eq_refl) as [_ Hpost].
  apply Hpost.
  - simpl. lia.
  - simpl. lia.
  - intros _. vm_compute. discriminate.
Defined.

(** C8 as stated fails on [bad_base]: the stored text is not an integer,
    and the call raises [ValueError] instead of falling back to 2. *)
Lemma malformed_base_raises :
  kv bad_base !! "backoff_base"%string = Some "two"%string
  /\ finish_job_failure failed_once "exit 1" t_2026 t_2026 bad_base
     = (Raise (Exn ValueError
                 "invalid literal for int() with base 10: 'two'"),
        bad_base).
Proof. split; vm_compute; reflexivity. Qed.

(** C3 as stated fails on [held_later]: job [a] is [processing], and
    [dlq_retry] returns normally and rewrites it to [pending]. *)
Lemma dlq_retry_resets_processing_job :
  let res := dlq_retry markup_console "a" (t_2026 + seconds 20)
                       (t_2026 + seconds 20) held_later in
  map state (jobs held_later) = ["processing"; "pending"]%string
  /\ fst res = Ok tt
  /\ map state (jobs (snd res)) = ["pending"; "pending"]%string
  /\ jobs (snd res) <> jobs held_later.
Proof. cbv zeta. repeat split; try (vm_compute; congruence). Qed.

(** No job of [three_jobs] has the id [no-such-job]: the command prints
    its line, exits with code 0 and leaves the database as it was. *)
Lemma dlq_retry_unknown_id_witness :
  let res := dlq_retry markup_console "no-such-job" t_2026 t_2026
                       three_jobs in
  exit_code (fst res) = 0 /\ snd res = three_jobs.
Proof.
  pose proof (dlq_retry_unknown_id markup_console three_jobs "no-such-job"
                t_2026 t_2026) as H.
  assert (Hfresh : forall r, In r (jobs three_jobs) -> id r <> "no-such-job"%string).
  { intros r Hr. simpl in Hr.
    destruct Hr as [<-|[<-|[<-|[]]]]; simpl; discriminate. }
  destruct (H Hfresh) as (_ & Hcode & _ & _ & _ & _ & Hinit).
  split; [apply Hcode; reflexivity|]. apply Hinit.
  unfold initialised. repeat split; vm_compute; eauto.
Defined.

(** C10 as stated fails on the id [[/x]], which no job of [three_jobs]
    has: no row changes, but rich refuses the [Requeued] line, and the
    command ends with [MarkupError] and exit code 1. *)
Lemma dlq_retry_markup_id_exits_1 :
  let res := dlq_retry markup_console "[/x]" t_2026 t_2026 three_jobs in
  (forall r, In r (jobs three_jobs) -> id r <> "[/x]"%string)
  /\ fst res
     = Raise (Exn MarkupError
                "closing tag '[/x]' at position 25 doesn't match any open tag")
  /\ exit_code (fst res) = 1
  /\ snd res = three_jobs.
Proof.
  cbv zeta. split.
  - intros r Hr. simpl in Hr.
    destruct Hr as [<-|[<-|[<-|[]]]]; simpl; discriminate.
  - repeat split; vm_compute; reflexivity.
Qed.

(** With [timeout = 30] and [run_timeout = 0] the row holds 30. *)
Lemma enqueue_stores_timeout_choice_witness :
  map run_timeout
      (jobs (snd (enqueue_job spec_timeout_30 "id-1" t_2026 empty_db)))
  = [SInt 30].
Proof.
  destruct (enqueue_stores_timeout_choice empty_db spec_timeout_30 "id-1"
              t_2026) as (Hacc & _).
  destruct Hacc as (row & _ & Hrows & _ & Hint & _).
  { unfold store_accepts. simpl. eauto 10. }
  rewrite Hrows. simpl. f_equal. apply Hint; [reflexivity|discriminate].
Defined.

(** C9 as stated fails on [spec_text_timeout]: the value of key [timeout]
    is the text 5, which is true, and the row holds the integer 5. *)
Lemma text_timeout_is_stored_as_integer :
  let res := enqueue_job spec_text_timeout "id-1" t_2026 empty_db in
  timeout_choice spec_text_timeout = PStr "5"
  /\ fst res = Ok "id-1"%string
  /\ map run_timeout (jobs (snd res)) = [SInt 5]
  /\ SInt 5 <> SText "5".
Proof. cbv zeta. repeat split; try (vm_compute; reflexivity). discriminate. Qed.

(** With [run_timeout = 0] and no [timeout] the row holds NULL. *)
Example zero_timeout_is_null :
  map run_timeout
      (jobs (snd (enqueue_job spec_zero_timeout "id-1" t_2026 empty_db)))
  = [SNull].
Proof. vm_compute. reflexivity. Qed.

(** C5 fails on this input: after [config set max_retries_default 7], a
    job enqueued without [max_retries] is stored with 3, the constant
    [DEFAULT_MAX_RETRIES]; the configuration key is never read. *)
Theorem enqueue_ignores_configured_default :
  let d1 := snd (config_set_cmd markup_console "max_retries_default" "7"
                                empty_db) in
  let res := enqueue_job spec_echo "id-1" t_2026 d1 in
  kv d1 !! "max_retries_default"%string = Some "7"%string
  /\ fst res = Ok "id-1"%string
  /\ map max_retries (jobs (snd res)) = [3].
Proof. cbv zeta. repeat split; vm_compute; reflexivity. Qed.

(** Enqueue, claim, fail: the job is [dead] with [attempts = 1 =
    max_retries + 1]. *)
Lemma attempts_bounded_reachable_witness :
  let d := run_op (FinalizeFailure claimed_no_retry "exit 1"
                     (t_2026 + seconds 2) (t_2026 + seconds 2))
             (run_op (Claim "w1" (t_2026 + seconds 1))
                (run_op (Enqueue spec_no_retry "id-1" t_2026) empty_db)) in
  map attempts (jobs d) = [1] /\ map state (jobs d) = ["dead"%string]
  /\ forall j, In j (jobs d) -> attempts j <= max_retries j + 1.
Proof.
  cbv zeta. split; [vm_compute; reflexivity|].
  split; [vm_compute; reflexivity|].
  intros j Hj. eapply attempts_bounded_reachable; [|exact Hj].
  apply reach_step; [apply reach_step; [apply reach_step|]|].
  - apply reach_empty.
  - apply adm_enqueue. repeat split. simpl. lia.
  - apply adm_claim.
  - apply adm_failure; [|reflexivity]. vm_compute. auto.
Defined.

(** C6 as stated fails after a single enqueue: the program stores
    [max_retries = -2] as given, and the new job has
    [attempts = 0 > max_retries + 1]. *)
Lemma negative_max_retries_breaks_bound :
  ~ (forall ops j, In j (jobs (run_ops ops empty_db)) -> attempts_bounded j).
Proof.
  intros H.
  specialize (H [Enqueue spec_negative_retries "id-1" t_2026]
                (mkJob "id-1" "true" "pending" 0 (-2)
                       "2026-01-01T00:00:00+00:00" "2026-01-01T00:00:00+00:00"
                       "2026-01-01T00:00:00+00:00" 0 SNull
                       None None None None None)).
  destruct H as [Hle _]; [vm_compute; auto|]. simpl in Hle. lia.
Qed.


(** * Further properties of the program *)

(** ** Configuration *)

Section Config.

Lemma ensure_default_config_union (key value : string) (d : db) :
  ensure_default_config key value d =
  (Ok tt, with_kv d (kv d ∪ {[ key := value ]})).
Proof.
  unfold ensure_default_config.
  assert (Hkv : (match kv d !! key with
                 | None => <[key := value]> (kv d)
                 | Some _ => kv d
                 end) = kv d ∪ {[ key := value ]}).
  { apply map_eq. intros k. destruct (kv d !! key) as [old|] eqn:Hk.
    - destruct (decide (k = key)) as [->|Hne].
      + rewrite Hk. symmetry. apply lookup_union_Some_l. exact Hk.
      + symmetry. apply lookup_union_l. apply lookup_singleton_ne. congruence.
    - destruct (decide (k = key)) as [->|Hne].
      + rewrite lookup_insert_eq. symmetry.
        rewrite lookup_union_r by exact Hk. apply lookup_singleton_eq.
      + rewrite lookup_insert_ne by congruence. symmetry.
        apply lookup_union_l. apply lookup_singleton_ne. congruence. }
  rewrite <- Hkv. destruct (kv d !! key); [|reflexivity].
  destruct d; reflexivity.
Qed.

Lemma init_db_union (d : db) :
  init_db d = (Ok tt, with_kv d (kv d ∪ default_config)).
Proof.
  unfold init_db, bind. rewrite !ensure_default_config_union.
  unfold with_kv; cbn [jobs kv workers]. f_equal. f_equal.
  rewrite <- !(assoc_L (∪)). f_equal.
Qed.

Lemma union_default_twice (m : gmap string string) :
  m ∪ default_config ∪ default_config = m ∪ default_config.
Proof.
  apply map_eq. intros k. rewrite !lookup_union.
  destruct (m !! k), (default_config !! k); reflexivity.
Qed.

Lemma union_default_some (m : gmap string string) (k v : string) :
  default_config !! k = Some v -> is_Some ((m ∪ default_config) !! k).
Proof.
  intros Hd. destruct (m !! k) as [x|] eqn:Hm.
  - exists x. apply lookup_union_Some_l. exact Hm.
  - exists v. rewrite lookup_union_r by exact Hm. exact Hd.
Qed.

(** X1.  [init_db] leaves [jobs] and [workers] alone and completes the
    configuration with the three defaults: a key that holds a value keeps
    it, a key that holds none gets its default if it has one; running it
    again changes nothing. *)
Theorem init_db_seeds_missing_keys :
  forall d : db,
    init_db d = (Ok tt, mkDb (jobs d) (kv d ∪ default_config) (workers d))
    /\ init_db (snd (init_db d)) = (Ok tt, snd (init_db d))
    /\ (forall k v, kv d !! k = Some v ->
          kv (snd (init_db d)) !! k = Some v)
    /\ (forall k, kv d !! k = None ->
          kv (snd (init_db d)) !! k = default_config !! k)
    /\ initialised (snd (init_db d)).
Proof.
  intros d. rewrite init_db_union. cbn [snd].
  split; [|split; [|split; [|split]]].
  - reflexivity.
  - rewrite init_db_union. unfold with_kv. cbn [jobs kv workers].
    rewrite union_default_twice. reflexivity.
  - intros k v Hk. cbn [kv with_kv]. apply lookup_union_Some_l. exact Hk.
  - intros k Hk. cbn [kv with_kv]. apply lookup_union_r. exact Hk.
  - unfold initialised. cbn [kv with_kv].
    repeat split; eapply union_default_some; reflexivity.
Qed.

Lemma config_get_run (print : console) (key : string) (d : db) :
  config_get print key d =
  (print (Line (key ++ " = "
                ++ default "" ((kv d ∪ default_config) !! key))%string),
   with_kv d (kv d ∪ default_config)).
Proof.
  unfold config_get, bind, get_config, lift. rewrite init_db_union.
  cbn [kv with_kv].
  destruct ((kv d ∪ default_config) !! key); reflexivity.
Qed.

Lemma config_set_cmd_run (print : console) (key value : string) (d : db) :
  config_set_cmd print key value d =
  (print (Line ("[green]Updated[/green] " ++ key ++ " = " ++ value)%string),
   with_kv d (<[key := value]> (kv d ∪ default_config))).
Proof.
  unfold config_set_cmd, bind, set_config, lift. rewrite init_db_union.
  reflexivity.
Qed.

(** X2.  [config set key value] followed by [config get key] prints the
    value just set, for a seeded key as for any other; what [config get]
    prints for every other key is what it was, [jobs] and [workers] are
    untouched, and [config get] changes nothing after a set.  A key that
    was never set and has no default prints as empty text.  Each command
    ends as its [print] ends. *)
Theorem config_set_then_get :
  forall (print : console) (d : db) (key value : string),
    let d' := snd (config_set_cmd print key value d) in
    config_get print key d'
    = (print (Line (key ++ " = " ++ value)%string), d')
    /\ fst (config_set_cmd print key value d)
       = print (Line ("[green]Updated[/green] " ++ key ++ " = "
                      ++ value)%string)
    /\ (forall k, k <> key ->
          fst (config_get print k d') = fst (config_get print k d))
    /\ jobs d' = jobs d /\ workers d' = workers d
    /\ (forall k, kv d !! k = None -> default_config !! k = None ->
          fst (config_get print k d) = print (Line (k ++ " = ")%string)).
Proof.
  intros print d key value d'. subst d'. rewrite config_set_cmd_run.
  cbn [fst snd].
  split; [|split; [|split; [|split; [|split]]]].
  - rewrite config_get_run. cbn [kv with_kv].
    assert (Hsame : <[key:=value]> (kv d ∪ default_config) ∪ default_config
                    = <[key:=value]> (kv d ∪ default_config)).
    { rewrite <- insert_union_l. rewrite union_default_twice. reflexivity. }
    rewrite Hsame, lookup_insert_eq. destruct d; reflexivity.
  - reflexivity.
  - intros k Hk. rewrite !config_get_run. cbn [fst kv with_kv].
    rewrite <- insert_union_l, union_default_twice.
    rewrite lookup_insert_ne by congruence. reflexivity.
  - reflexivity.
  - reflexivity.
  - intros k Hk Hd. rewrite config_get_run. cbn [fst].
    rewrite lookup_union_r by exact Hk. rewrite Hd. reflexivity.
Qed.

End Config.

(** ** The job table under arbitrary sequences of operations *)

Section JobTable.

Lemma sql_update_same (p : job -> bool) (rows : list job) :
  sql_update p (fun r => r) rows = rows.
Proof.
  unfold sql_update. rewrite <- (map_id rows) at 2. apply map_ext.
  intros r. destruct (p r); reflexivity.
Qed.

(** What an operation does to the rows: it rewrites some of them in place,
    keeping the fixed columns, or it appends one row with a new id. *)
Lemma run_op_rows (o : op) (d : db) :
  (exists p f, jobs (run_op o d) = sql_update p f (jobs d)
               /\ forall r, fixed_columns (f r) = fixed_columns r)
  \/ (exists row, jobs (run_op o d) = jobs d ++ [row]
                  /\ existsb (has_id (id row)) (jobs d) = false).
Proof.
  assert (Hsame : forall rows : list job,
            exists p f, rows = sql_update p f rows
                        /\ forall r, fixed_columns (f r) = fixed_columns r).
  { intros rows. exists (fun _ => false), (fun r => r).
    rewrite sql_update_same. auto. }
  destruct o as [spec uuid4 now|w now|job_id out t1 t2|job error t1 t2
                |job_id t1 t2|key value]; simpl.
  - unfold enqueue_job, bind, lift. rewrite init_db_ok.
    destruct (init_db_spec d) as (_ & Hj & _).
    destruct (s_command spec) as [cmd|]; [|left; simpl; rewrite Hj; auto].
    destruct (bind_int (default 0 (s_attempts spec)));
      [|left; simpl; rewrite Hj; auto].
    destruct (bind_int (default DEFAULT_MAX_RETRIES (s_max_retries spec)));
      [|left; simpl; rewrite Hj; auto].
    destruct (bind_int (default 0 (s_priority spec)));
      [|left; simpl; rewrite Hj; auto].
    destruct (bind_value _); [|left; simpl; rewrite Hj; auto].
    unfold insert_job. cbn [id]. rewrite Hj.
    destruct (existsb _ (jobs d)) eqn:Hex; [left; simpl; rewrite Hj; auto|].
    right. simpl. eexists. split; [reflexivity|]. exact Hex.
  - left. unfold atomic_claim_next_job.
    destruct (Nat.eqb _ 0); simpl; [auto|].
    do 2 eexists. split; [reflexivity|]. reflexivity.
  - left. do 2 eexists. split; [reflexivity|]. reflexivity.
  - left.
    destruct (finish_job_failure_cases job error t1 t2 d)
      as [[e ->]|[[_ ->]|[_ [nt ->]]]]; simpl; [auto| |];
      do 2 eexists; (split; [reflexivity|]); reflexivity.
  - left. rewrite dlq_retry_run. simpl.
    do 2 eexists. split; [reflexivity|]. reflexivity.
  - left. rewrite config_rows. auto.
Qed.

Lemma run_op_fixed_columns (o : op) (d : db) :
  exists extra,
    map fixed_columns (jobs (run_op o d))
    = map fixed_columns (jobs d) ++ extra.
Proof.
  destruct (run_op_rows o d) as [(p & f & -> & Hf)|(row & -> & _)].
  - exists []. rewrite app_nil_r. apply sql_update_columns. exact Hf.
  - eexists. rewrite map_app. reflexivity.
Qed.

Lemma run_op_unique_ids (o : op) (d : db) :
  unique_ids d -> unique_ids (run_op o d).
Proof.
  unfold unique_ids. intros Hnd.
  destruct (run_op_rows o d) as [(p & f & -> & Hf)|(row & -> & Hfresh)].
  - rewrite (sql_update_columns id); [exact Hnd|].
    intros r. specialize (Hf r). unfold fixed_columns in Hf. congruence.
  - rewrite map_app. simpl. apply List.NoDup_app; [exact Hnd| |].
    { apply List.NoDup_cons; [simpl; tauto|apply List.NoDup_nil]. }
    intros x Hx [<-|[]].
    apply in_map_iff in Hx as (r & Hid & Hr).
    assert (existsb (has_id (id row)) (jobs d) = true) as E.
    { apply existsb_exists. exists r. split; [exact Hr|].
      unfold has_id. rewrite Hid. apply String.eqb_refl. }
    congruence.
Qed.

(** X3.  No sequence of operations deletes a job, reorders the table, or
    changes the id, command, max_retries, created_at, priority or
    run_timeout of a job: these columns of the rows present before are a
    prefix of the same columns afterwards. *)
Theorem operations_keep_fixed_columns :
  forall (ops : list op) (d : db),
    exists extra,
      map fixed_columns (jobs (run_ops ops d))
      = map fixed_columns (jobs d) ++ extra.
Proof.
  unfold run_ops. induction ops as [|o ops IH]; intros d; simpl.
  - exists []. rewrite app_nil_r. reflexivity.
  - destruct (IH (run_op o d)) as [extra2 ->].
    destruct (run_op_fixed_columns o d) as [extra1 ->].
    exists (extra1 ++ extra2). rewrite app_assoc. reflexivity.
Qed.

(** X4.  Job ids stay unique under every sequence of operations: enqueue
    refuses an id that is taken, and nothing else writes the id column. *)
Theorem operations_keep_ids_unique :
  forall (ops : list op) (d : db),
    unique_ids d -> unique_ids (run_ops ops d).
Proof.
  unfold run_ops. induction ops as [|o ops IH]; intros d Hd; simpl.
  - exact Hd.
  - apply IH. apply run_op_unique_ids. exact Hd.
Qed.

(** X5.  A failure finalization is all or nothing: when it raises, the
    database is exactly as before; when it returns, it has rewritten only
    rows that carry the job's id, adding and removing none; in both cases
    [kv] and [workers] are untouched. *)
Theorem finish_job_failure_all_or_nothing :
  forall (job : job) (error : string) (t1 t2 : Clock.datetime) (d : db),
    let res := finish_job_failure job error t1 t2 d in
    (forall e, fst res = Raise e -> snd res = d)
    /\ (exists g, jobs (snd res) = sql_update (has_id (id job)) g (jobs d))
    /\ kv (snd res) = kv d /\ workers (snd res) = workers d.
Proof.
  intros job error t1 t2 d res. subst res.
  destruct (finish_job_failure_cases job error t1 t2 d)
    as [[e ->]|[[_ ->]|[_ [nt ->]]]]; simpl.
  - split; [reflexivity|]. split; [|auto].
    exists (fun r => r). rewrite sql_update_same. reflexivity.
  - split; [discriminate|]. split; [eauto|auto].
  - split; [discriminate|]. split; [eauto|auto].
Qed.

End JobTable.

(** ** Claims, one after another *)

Section Claims.

Lemma claim_run_none (w : string) (t : Clock.datetime) (d : db) :
  select_next (now_utc t) (jobs d) = None ->
  atomic_claim_next_job w t d = (Ok None, d).
Proof.
  intros Hsel. unfold atomic_claim_next_job. rewrite Hsel.
  unfold rowcount. rewrite filter_none by reflexivity. reflexivity.
Qed.

Lemma claim_run_rows (w : string) (t : Clock.datetime) (d : db) (s : job) :
  select_next (now_utc t) (jobs d) = Some s ->
  snd (atomic_claim_next_job w t d) =
  with_jobs d (sql_update (has_id (id s)) (set_processing w (now_utc t))
                          (jobs d))
  /\ exists j, fst (atomic_claim_next_job w t d) = Ok (Some j).
Proof.
  intros Hsel. destruct (select_next_some _ _ _ Hsel) as (Hin & Hel & _).
  unfold atomic_claim_next_job. rewrite Hsel.
  change (fun j : job => String.eqb (id j) (id s)) with (has_id (id s)).
  assert (Hcount : rowcount (has_id (id s)) (jobs d) <> 0%nat).
  { unfold rowcount. intros Hz. apply length_zero_iff_nil in Hz.
    assert (In s (List.filter (has_id (id s)) (jobs d))) as Hs.
    { apply filter_In. split; [assumption|].
      unfold has_id. apply String.eqb_refl. }
    rewrite Hz in Hs. destruct Hs. }
  apply Nat.eqb_neq in Hcount. rewrite Hcount. simpl.
  split; [reflexivity|].
  destruct (head _) as [j|] eqn:Hhead; [eauto|].
  exfalso. apply head_order_by_nil in Hhead.
  assert (In (set_processing w (now_utc t) s)
             (List.filter (held_by w)
                (sql_update (has_id (id s)) (set_processing w (now_utc t))
                            (jobs d)))) as Hs.
  { apply filter_In. split; [|apply held_by_set_processing].
    unfold sql_update. apply in_map_iff. exists s. split; [|assumption].
    unfold has_id. rewrite String.eqb_refl. reflexivity. }
  rewrite Hhead in Hs. destruct Hs.
Qed.

Lemma claim_run_some (w : string) (t : Clock.datetime) (d : db) (s : job) :
  unique_ids d ->
  (forall j, In j (jobs d) -> held_by w j = true ->
             opt_leb (Some (now_utc t)) (started_at j) = false) ->
  select_next (now_utc t) (jobs d) = Some s ->
  atomic_claim_next_job w t d =
  (Ok (Some (set_processing w (now_utc t) s)),
   with_jobs d (sql_update (has_id (id s)) (set_processing w (now_utc t))
                           (jobs d))).
Proof.
  intros Hnd Hheld Hsel.
  destruct (select_next_some _ _ _ Hsel) as (Hin & Hel & _).
  destruct (claim_run_rows w t d s Hsel) as [Hrows _].
  unfold atomic_claim_next_job in *. rewrite Hsel in *.
  change (fun j : job => String.eqb (id j) (id s)) with (has_id (id s)) in *.
  destruct (Nat.eqb _ 0); simpl in Hrows.
  - exfalso.
    assert (Hs : In (set_processing w (now_utc t) s) (jobs d)).
    { rewrite Hrows at 1. simpl. unfold sql_update. apply in_map_iff.
      exists s. split; [|assumption].
      unfold has_id. rewrite String.eqb_refl. reflexivity. }
    assert (set_processing w (now_utc t) s = s) as E.
    { eapply NoDup_map_eq; eauto. }
    unfold eligible in Hel. apply andb_true_iff in Hel as [Hp _].
    apply String.eqb_eq in Hp. rewrite <- E in Hp. discriminate.
  - rewrite claim_readback; auto.
    intros j Hj Hid. unfold has_id in Hid. apply String.eqb_eq in Hid.
    eapply NoDup_map_eq; eauto.
Qed.

(** X6.  Two claims in a row never hand out the same job: when each
    worker holds no [processing] job started at or after its own reading
    of the clock, the jobs the two claims return have different ids, and
    the first is still [processing] for the first worker afterwards. *)
Theorem successive_claims_differ :
  forall (d : db) (w1 w2 : string) (t1 t2 : Clock.datetime) (j1 j2 : job),
    unique_ids d ->
    (forall j, In j (jobs d) -> held_by w1 j = true ->
               opt_leb (Some (now_utc t1)) (started_at j) = false) ->
    (forall j, In j (jobs (snd (atomic_claim_next_job w1 t1 d))) ->
               held_by w2 j = true ->
               opt_leb (Some (now_utc t2)) (started_at j) = false) ->
    fst (atomic_claim_next_job w1 t1 d) = Ok (Some j1) ->
    fst (atomic_claim_next_job w2 t2 (snd (atomic_claim_next_job w1 t1 d)))
      = Ok (Some j2) ->
    id j1 <> id j2
    /\ In j1 (jobs (snd (atomic_claim_next_job w2 t2
                           (snd (atomic_claim_next_job w1 t1 d))))).
Proof.
  intros d w1 w2 t1 t2 j1 j2 Hnd H1 H2 Hc1 Hc2.
  assert (Hnd1 : unique_ids (snd (atomic_claim_next_job w1 t1 d)))
    by (apply (run_op_unique_ids (Claim w1 t1)); exact Hnd).
  destruct (select_next (now_utc t1) (jobs d)) as [s1|] eqn:Hs1;
    [|rewrite (claim_run_none _ _ _ Hs1) in Hc1; discriminate].
  rewrite (claim_run_some w1 t1 d s1 Hnd H1 Hs1) in *. cbn [fst snd] in *.
  injection Hc1 as <-.
  set (d1 := with_jobs d _) in *.
  destruct (select_next (now_utc t2) (jobs d1)) as [s2|] eqn:Hs2;
    [|rewrite (claim_run_none _ _ _ Hs2) in Hc2; discriminate].
  rewrite (claim_run_some w2 t2 d1 s2 Hnd1 H2 Hs2) in *. cbn [fst snd] in *.
  injection Hc2 as <-.
  destruct (select_next_some _ _ _ Hs1) as (Hin1 & _ & _).
  destruct (select_next_some _ _ _ Hs2) as (Hin2 & Hel2 & _).
  assert (Hj1 : In (set_processing w1 (now_utc t1) s1) (jobs d1)).
  { subst d1. simpl. unfold sql_update. apply in_map_iff.
    exists s1. split; [|assumption].
    unfold has_id. rewrite String.eqb_refl. reflexivity. }
  assert (Hne : id s1 <> id s2).
  { intros E.
    assert (set_processing w1 (now_utc t1) s1 = s2) as E2.
    { eapply NoDup_map_eq; eauto. }
    unfold eligible in Hel2. apply andb_true_iff in Hel2 as [Hp _].
    apply String.eqb_eq in Hp. rewrite <- E2 in Hp. discriminate. }
  split; [exact Hne|].
  simpl. unfold sql_update. apply in_map_iff.
  exists (set_processing w1 (now_utc t1) s1). split; [|exact Hj1].
  unfold has_id. simpl.
  destruct (String.eqb (id s1) (id s2)) eqn:E; [|reflexivity].
  apply String.eqb_eq in E. contradiction.
Qed.



End Claims.

(** ** The shape of a row in each state *)

Section Shape.

Ltac shape :=
  unfold well_shaped; simpl;
  repeat split; intros; try discriminate; try congruence; auto 6.

Lemma shaped_update (p : job -> bool) (f : job -> job) (rows : list job) :
  (forall r, In r rows -> well_shaped r) ->
  (forall r, well_shaped (f r)) ->
  forall r, In r (sql_update p f rows) -> well_shaped r.
Proof.
  intros Hrows Hf r Hr. unfold sql_update in Hr.
  apply in_map_iff in Hr as (r0 & <- & Hr0).
  destruct (p r0); auto.
Qed.

Lemma run_op_shaped (o : op) (d : db) :
  (forall r, In r (jobs d) -> well_shaped r) ->
  match o with
  | Enqueue spec _ _ =>
      default "pending"%string (s_state spec) = "pending"%string
  | _ => True
  end ->
  forall r, In r (jobs (run_op o d)) -> well_shaped r.
Proof.
  intros Hrows Ho.
  destruct o as [spec uuid4 now|w now|job_id out t1 t2|job error t1 t2
                |job_id t1 t2|key value]; simpl.
  - unfold enqueue_job, bind, lift. rewrite init_db_ok.
    destruct (init_db_spec d) as (_ & Hj & _).
    destruct (s_command spec) as [cmd|]; [|simpl; rewrite Hj; exact Hrows].
    destruct (bind_int (default 0 (s_attempts spec)));
      [|simpl; rewrite Hj; exact Hrows].
    destruct (bind_int (default DEFAULT_MAX_RETRIES (s_max_retries spec)));
      [|simpl; rewrite Hj; exact Hrows].
    destruct (bind_int (default 0 (s_priority spec)));
      [|simpl; rewrite Hj; exact Hrows].
    destruct (bind_value _); [|simpl; rewrite Hj; exact Hrows].
    unfold insert_job. cbn [id]. rewrite Hj.
    destruct (existsb _ (jobs d)); [simpl; rewrite Hj; exact Hrows|].
    simpl. intros r Hr. apply in_app_iff in Hr as [Hr|[<-|[]]]; [auto|].
    unfold well_shaped. cbn [state worker_id started_at output finished_at
                             last_error]. rewrite Ho.
    repeat split; intros; try discriminate. auto.
  - unfold atomic_claim_next_job.
    destruct (Nat.eqb _ 0); simpl; [exact Hrows|].
    apply shaped_update; [exact Hrows|]. intros r. shape.
  - apply shaped_update; [exact Hrows|]. intros r. shape.
  - destruct (finish_job_failure_cases job error t1 t2 d)
      as [[e ->]|[[_ ->]|[_ [nt ->]]]]; simpl; [exact Hrows| |];
      (apply shaped_update; [exact Hrows|]); intros r; shape.
  - rewrite dlq_retry_run. simpl.
    apply shaped_update; [exact Hrows|]. intros r. shape.
  - rewrite config_rows. exact Hrows.
Qed.

(** X8.  Along every sequence of operations whose enqueues create their
    jobs as [pending], every job is in one of the four states, a
    [processing] job names its worker and its start, a [completed] job has
    an output and a finish time, and a [dead] job has an error and a finish
    time.  (Nothing of the kind holds for [pending]: a rescheduled job
    still names the worker that ran it.) *)
Theorem operations_keep_rows_well_shaped :
  forall (ops : list op) (d : db),
    (forall r, In r (jobs d) -> well_shaped r) ->
    enqueues_pending ops ->
    forall r, In r (jobs (run_ops ops d)) -> well_shaped r.
Proof.
  unfold run_ops, enqueues_pending.
  induction ops as [|o ops IH]; intros d Hd Hops; simpl; [exact Hd|].
  apply IH.
  - apply run_op_shaped; [exact Hd|].
    destruct o; auto. apply (Hops spec uuid4 now). left. reflexivity.
  - intros spec uuid4 now Hin. apply (Hops spec uuid4 now). right. exact Hin.
Qed.

End Shape.

(** ** What a worker changes *)

Section WorkerFrame.

Lemma frame_refl (w : string) (d : db) : worker_frame w d d.
Proof. unfold worker_frame. repeat split; eauto. Qed.

Lemma frame_trans (w : string) (d1 d2 d3 : db) :
  worker_frame w d1 d2 -> worker_frame w d2 d3 -> worker_frame w d1 d3.
Proof.
  intros (Hk1 & Hj1 & Ho1 & Hs1) (Hk2 & Hj2 & Ho2 & Hs2).
  unfold worker_frame. repeat split.
  - congruence.
  - congruence.
  - intros w' Hw'. rewrite Ho2, Ho1 by assumption. reflexivity.
  - intros r Hr. destruct (Hs1 r Hr) as (r1 & Hr1 & E1).
    destruct (Hs2 r1 Hr1) as (r2 & Hr2 & E2). exists r2. split; congruence.
Qed.

Lemma frames_ret {A} (w : string) (a : A) : frames w (ret a).
Proof. intros d. apply frame_refl. Qed.

Lemma frames_lift {A} (w : string) (o : outcome A) : frames w (lift o).
Proof. intros d. apply frame_refl. Qed.

Lemma frames_bind {A B} (w : string) (m : M A) (k : A -> M B) :
  frames w m -> (forall a, frames w (k a)) -> frames w (bind m k).
Proof.
  intros Hm Hk d. unfold bind. specialize (Hm d).
  destruct (m d) as [[a|e] d1]; simpl in *; [|exact Hm].
  eapply frame_trans; [exact Hm|apply Hk].
Qed.

Lemma frames_try_except {A} (w : string) (m : M A) (h : exn -> M A) :
  frames w m -> (forall e, frames w (h e)) -> frames w (try_except m h).
Proof.
  intros Hm Hh d. unfold try_except. specialize (Hm d).
  destruct (m d) as [[a|e] d1]; simpl in *; [exact Hm|].
  eapply frame_trans; [exact Hm|apply Hh].
Qed.

Lemma frames_with_db {A} (w : string) (fault : option exn) (m : M A) :
  frames w m -> frames w (with_db fault m).
Proof.
  intros Hm. destruct fault as [e|]; simpl; [|exact Hm].
  intros d. apply frame_refl.
Qed.

Lemma frames_jobs {A} (w : string) (m : M A) :
  (forall d, kv (snd (m d)) = kv d /\ workers (snd (m d)) = workers d
             /\ map fixed_columns (jobs (snd (m d)))
                = map fixed_columns (jobs d)) ->
  frames w m.
Proof.
  intros H d. destruct (H d) as (Hk & Hw & Hj).
  unfold worker_frame. rewrite Hk, Hw, Hj. repeat split; eauto.
Qed.

Lemma frames_heartbeat (w : string) (p : Z) (st : string)
    (t1 t2 : Clock.datetime) :
  frames w (update_worker_heartbeat w p st t1 t2).
Proof.
  intros d. unfold update_worker_heartbeat, worker_frame. simpl.
  repeat split.
  - intros w' Hw'. apply lookup_insert_ne. congruence.
  - intros r Hr. rewrite Hr, lookup_insert_eq. eauto.
Qed.

Lemma frames_claim (w : string) (t : Clock.datetime) :
  frames w (atomic_claim_next_job w t).
Proof.
  apply frames_jobs. intros d. unfold atomic_claim_next_job.
  destruct (Nat.eqb _ 0); simpl; [auto|].
  repeat split. apply sql_update_columns. reflexivity.
Qed.

Lemma frames_success (w job_id out : string) (t1 t2 : Clock.datetime) :
  frames w (finish_job_success job_id out t1 t2).
Proof.
  apply frames_jobs. intros d. simpl. repeat split.
  apply sql_update_columns. reflexivity.
Qed.

Lemma frames_failure (w : string) (job : job) (error : string)
    (t1 t2 : Clock.datetime) :
  frames w (finish_job_failure job error t1 t2).
Proof.
  apply frames_jobs. intros d.
  destruct (finish_job_failure_cases job error t1 t2 d)
    as [[e ->]|[[_ ->]|[_ [nt ->]]]]; simpl; [auto| |];
    repeat split; apply sql_update_columns; reflexivity.
Qed.

Lemma frames_get_config (w key default : string) :
  frames w (get_config key default).
Proof. intros d. apply frame_refl. Qed.

Lemma frames_mark_stopped (w : string) (t : Clock.datetime) :
  frames w (mark_stopped w t).
Proof.
  intros d. unfold mark_stopped, worker_frame. simpl. repeat split.
  - intros w' Hw'. apply lookup_alter_ne. congruence.
  - intros r Hr. rewrite lookup_alter_eq, Hr. simpl. eauto.
Qed.

Lemma frames_iteration (w : string) (env : iter_env) :
  frames w (worker_iteration w env).
Proof.
  unfold worker_iteration. apply frames_bind.
  - apply frames_with_db. apply frames_bind.
    + apply frames_heartbeat.
    + intros _. apply frames_claim.
  - intros [job|].
    + apply frames_bind.
      * apply frames_with_db. apply frames_heartbeat.
      * intros _. unfold run_and_finalize. apply frames_try_except.
        -- unfold try_suite. apply frames_bind; [apply frames_lift|].
           intros [[code out] err]. apply frames_with_db.
           destruct (code =? 0);
             [apply frames_success|apply frames_failure].
        -- intros e. unfold except_suite. apply frames_with_db.
           apply frames_failure.
    + apply frames_bind.
      * apply frames_with_db. apply frames_get_config.
      * intros idle. apply frames_lift.
Qed.

(** X9.  Whatever the executor returns or raises and whichever sessions
    the store refuses, a worker's loop never changes the configuration,
    never adds, deletes or reorders jobs or changes their fixed columns,
    never touches the registration of another worker, and never changes
    its own [started_at] once registered. *)
Theorem worker_loop_frame :
  forall (w : string) (script : list (bool * iter_env)) (d : db),
    worker_frame w d (snd (worker_loop w script d)).
Proof.
  intros w script. induction script as [|[shutdown env] rest IH]; simpl.
  - intros d. apply frame_refl.
  - destruct shutdown.
    + apply frames_with_db. apply frames_mark_stopped.
    + apply (frames_bind w (worker_iteration w env)
               (fun _ => worker_loop w rest)).
      * apply frames_iteration.
      * intros _. exact IH.
Qed.

End WorkerFrame.

(** ** One pass of a worker *)

Section WorkerPass.

Lemma heartbeat_run (w : string) (p : Z) (st : string)
    (t1 t2 : Clock.datetime) (d : db) :
  update_worker_heartbeat w p st t1 t2 d =
  (Ok tt, with_workers d (<[w := registration d w p st t1 t2]> (workers d))).
Proof.
  unfold update_worker_heartbeat, registration.
  destruct (workers d !! w); reflexivity.
Qed.

Lemma sql_update_twice (p : job -> bool) (f g : job -> job)
    (rows : list job) :
  (forall r, p (f r) = p r) ->
  sql_update p g (sql_update p f rows) = sql_update p (fun r => g (f r)) rows.
Proof.
  intros Hp. unfold sql_update. rewrite map_map. apply map_ext.
  intros r. destruct (p r) eqn:E; [rewrite Hp, E|rewrite E]; reflexivity.
Qed.

(** The first two sessions of a pass, when the store accepts them and a
    job is eligible: the worker is registered [idle], claims the job and
    registers as processing it. *)
Lemma pass_claims (w : string) (env : iter_env) (d : db) (s : job) :
  unique_ids d ->
  (forall j, In j (jobs d) -> held_by w j = false) ->
  fault_claim env = None -> fault_mark env = None ->
  select_next (now_utc (clock env 2%nat)) (jobs d) = Some s ->
  let now := now_utc (clock env 2%nat) in
  let idle := registration d w (getpid env) "idle"
                (clock env 0%nat) (clock env 1%nat) in
  worker_iteration w env d =
  run_and_finalize env (set_processing w now s)
    (mkDb (sql_update (has_id (id s)) (set_processing w now) (jobs d))
          (kv d)
          (<[w := mkWorker (getpid env) (w_started_at idle)
                           (now_utc (clock env 4%nat))
                           ("processing:" ++ id s)]> (workers d))).
Proof.
  intros Hnd Hfree Hfc Hfm Hsel now idle.
  unfold worker_iteration. rewrite Hfc, Hfm. cbn [with_db].
  unfold bind. rewrite heartbeat_run.
  set (d1 := with_workers d _).
  assert (Hrun : atomic_claim_next_job w (clock env 2%nat) d1 =
                 (Ok (Some (set_processing w now s)),
                  with_jobs d1 (sql_update (has_id (id s))
                                  (set_processing w now) (jobs d1)))).
  { apply claim_run_some.
    - exact Hnd.
    - intros j Hj Hheld. rewrite (Hfree j Hj) in Hheld. discriminate.
    - exact Hsel. }
  rewrite Hrun. rewrite heartbeat_run.
  f_equal. subst d1. unfold with_jobs, with_workers, registration.
  cbn [jobs kv workers id set_processing]. rewrite lookup_insert_eq.
  rewrite insert_insert_eq. reflexivity.
Qed.

(** X10.  A pass in which the store accepts every session, the worker
    holds no job, a job is eligible and its command exits with code 0:
    the pass returns, the selected job ends [completed] with the command's
    standard output, its [attempts] are what they were, no other job
    changes, and the worker's registration still reads
    [processing:<id>]. *)
Theorem pass_completes_job :
  forall (w : string) (env : iter_env) (d : db) (s : job)
         (out err : string),
    unique_ids d ->
    (forall j, In j (jobs d) -> held_by w j = false) ->
    fault_claim env = None -> fault_mark env = None ->
    fault_try env = None ->
    select_next (now_utc (clock env 2%nat)) (jobs d) = Some s ->
    run_command env (command s) (run_timeout s) = Ok (0, out, err) ->
    let res := worker_iteration w env d in
    let done r := set_completed (now_utc (clock env 5%nat))
                    (now_utc (clock env 6%nat)) out
                    (set_processing w (now_utc (clock env 2%nat)) r) in
    fst res = Ok tt
    /\ jobs (snd res) = sql_update (has_id (id s)) done (jobs d)
    /\ (state (done s) = "completed"%string /\ output (done s) = Some out
        /\ attempts (done s) = attempts s
        /\ last_error (done s) = last_error s
        /\ worker_id (done s) = Some w)
    /\ kv (snd res) = kv d
    /\ status <$> (workers (snd res) !! w)
       = Some ("processing:" ++ id s)%string.
Proof.
  intros w env d s out err Hnd Hfree Hfc Hfm Hft Hsel Hrun res done.
  subst res. rewrite (pass_claims w env d s) by assumption.
  unfold run_and_finalize, try_except, try_suite, bind, lift.
  cbn [command run_timeout set_processing]. rewrite Hrun, Hft.
  cbn [with_db]. simpl.
  split; [reflexivity|]. split.
  - rewrite sql_update_twice by reflexivity. reflexivity.
  - split; [repeat split|]. split; [reflexivity|].
    rewrite lookup_insert_eq. reflexivity.
Qed.

(** X11.  A pass in which no job is eligible: the worker's registration
    becomes [idle] with a fresh heartbeat, the jobs and the configuration
    are untouched, and the pass ends with the pause read from key
    [poll_idle_secs] (0.5 when the key is absent). *)
Theorem pass_without_job_idles :
  forall (w : string) (env : iter_env) (d : db),
    (forall j, In j (jobs d) ->
               eligible (now_utc (clock env 2%nat)) j = false) ->
    fault_claim env = None -> fault_idle env = None ->
    worker_iteration w env d =
    (sleep_float env (default DEFAULT_POLL_IDLE_SECS
                              (kv d !! "poll_idle_secs"%string)),
     with_workers d
       (<[w := registration d w (getpid env) "idle"
                 (clock env 0%nat) (clock env 1%nat)]> (workers d))).
Proof.
  intros w env d Hnone Hfc Hfi.
  unfold worker_iteration. rewrite Hfc, Hfi. cbn [with_db].
  unfold bind. rewrite heartbeat_run.
  rewrite claim_run_none.
  - unfold get_config, lift. cbn [kv with_workers].
    destruct (kv d !! "poll_idle_secs"%string); reflexivity.
  - cbn [jobs with_workers].
    destruct (select_next _ (jobs d)) as [s|] eqn:Hsel; [|reflexivity].
    destruct (select_next_some _ _ _ Hsel) as (Hin & Hel & _).
    rewrite (Hnone s Hin) in Hel. discriminate.
Qed.

(** X12.  A pass in which the store accepts every session, the worker
    holds no job, a job is eligible and its command exits with a code
    other than 0: the pass returns after one failure finalization whose
    error text is the stripped standard error.  The job counts one more
    attempt and is [dead] when that exceeds [max_retries], [pending] with
    its new [available_at] otherwise; no other job changes. *)
Theorem pass_counts_failed_attempt :
  forall (w : string) (env : iter_env) (d : db) (s : job) (code : Z)
         (out err : string) (base : Z),
    unique_ids d ->
    (forall j, In j (jobs d) -> held_by w j = false) ->
    fault_claim env = None -> fault_mark env = None ->
    fault_try env = None ->
    select_next (now_utc (clock env 2%nat)) (jobs d) = Some s ->
    run_command env (command s) (run_timeout s) = Ok (code, out, err) ->
    code <> 0 ->
    0 <= attempts s -> attempts s + 1 < 2 ^ 63 ->
    configured_base d = Some base ->
    (attempts s + 1 <= max_retries s ->
     Clock.add_seconds (clock env 5%nat) (base ^ (attempts s + 1)) <> None) ->
    let res := worker_iteration w env d in
    let a' := attempts s + 1 in
    let claimed := set_processing w (now_utc (clock env 2%nat)) in
    let failed r :=
      if max_retries s <? a'
      then set_dead a' (now_utc (clock env 5%nat))
                    (now_utc (clock env 6%nat)) (strip err) (claimed r)
      else set_retry a'
             (Clock.isoformat (clock env 5%nat
                               + base ^ a' * Clock.US_PER_SECOND))
             (now_utc (clock env 6%nat)) (strip err) (claimed r) in
    fst res = Ok tt
    /\ jobs (snd res) = sql_update (has_id (id s)) failed (jobs d)
    /\ attempts (failed s) = a'
    /\ last_error (failed s) = Some (strip err)
    /\ kv (snd res) = kv d.
Proof.
  intros w env d s code out err base Hnd Hfree Hfc Hfm Hft Hsel Hrun Hcode
    Ha Hfit Hbase Hadd res a' claimed failed.
  subst res. rewrite (pass_claims w env d s) by assumption.
  set (d2 := mkDb _ _ _).
  pose proof (finish_job_failure_run d2
                (set_processing w (now_utc (clock env 2%nat)) s)
                (strip err) (clock env 5%nat) (clock env 6%nat) base
                Ha Hfit Hbase Hadd) as Hpost.
  unfold failure_post in Hpost. cbn [attempts max_retries id set_processing]
    in Hpost.
  unfold run_and_finalize, try_except, try_suite, bind, lift.
  cbn [command run_timeout set_processing]. rewrite Hrun, Hft.
  cbn [with_db]. assert ((code =? 0) = false) as -> by lia.
  rewrite Hpost. cbn [fst snd jobs with_jobs kv].
  split; [reflexivity|]. subst d2 failed claimed a'. cbn [jobs kv].
  destruct (max_retries s <? attempts s + 1);
    (split; [rewrite sql_update_twice by reflexivity; reflexivity|]);
    repeat split.
Qed.

Lemma try_suite_raise (env : iter_env) (job : job) (d d' : db) (e : exn) :
  try_suite env job d = (Raise e, d') -> d' = d.
Proof.
  unfold try_suite, bind, lift.
  destruct (run_command env (command job) (run_timeout job))
    as [[[code out] err]|e0]; [|congruence].
  destruct (fault_try env); cbn [with_db]; [unfold raise; congruence|].
  destruct (code =? 0); [discriminate|].
  destruct (finish_job_failure_cases job (strip err) (clock env 5%nat)
              (clock env 6%nat) d)
    as [[e1 ->]|[[_ ->]|[_ [nt ->]]]]; congruence.
Qed.

(** C7, as amended.  In a pass that has claimed a job: an exception
    raised by the executor, and equally an error with which the store
    refuses the session of the finalization inside [try], is caught and
    converted into the [finalize_failure] call of the handler, with the
    text of the exception as error; so is every other exception raised
    inside [try], the database being then as the claim left it.  An error
    with which the store refuses the session of the handler is not caught:
    the pass ends with it, the job stays [processing], and the loop ends
    with that exception whatever was to follow.  More generally a pass
    that raises ends the loop, and a pass that returns is followed by the
    rest of the loop. *)
Theorem worker_error_propagation :
  forall (w : string) (env : iter_env) (d : db) (s : job)
         (rest : list (bool * iter_env)),
    unique_ids d ->
    (forall j, In j (jobs d) -> held_by w j = false) ->
    fault_claim env = None -> fault_mark env = None ->
    select_next (now_utc (clock env 2%nat)) (jobs d) = Some s ->
    let now := now_utc (clock env 2%nat) in
    let job := set_processing w now s in
    let idle := registration d w (getpid env) "idle"
                  (clock env 0%nat) (clock env 1%nat) in
    let d1 :=
      mkDb (sql_update (has_id (id s)) (set_processing w now) (jobs d))
           (kv d)
           (<[w := mkWorker (getpid env) (w_started_at idle)
                            (now_utc (clock env 4%nat))
                            ("processing:" ++ id s)]> (workers d)) in
    let caught e :=
      run_command env (command job) (run_timeout job) = Raise e
      \/ (exists r, run_command env (command job) (run_timeout job) = Ok r
                    /\ fault_try env = Some e) in
    (forall e, caught e -> fault_except env = None ->
       worker_iteration w env d =
       finish_job_failure job (str_of_exn e)
                          (clock env 7%nat) (clock env 8%nat) d1)
    /\ (forall e d', try_suite env job d1 = (Raise e, d') ->
          d' = d1 /\ worker_iteration w env d = except_suite env job e d1)
    /\ (forall e e2, caught e -> fault_except env = Some e2 ->
          worker_iteration w env d = (Raise e2, d1)
          /\ worker_loop w ((false, env) :: rest) d = (Raise e2, d1)
          /\ exists r, In r (jobs d1) /\ id r = id s
                       /\ state r = "processing"%string)
    /\ (forall e2 d2, worker_iteration w env d = (Raise e2, d2) ->
          worker_loop w ((false, env) :: rest) d = (Raise e2, d2))
    /\ (forall u d2, worker_iteration w env d = (Ok u, d2) ->
          worker_loop w ((false, env) :: rest) d = worker_loop w rest d2).
Proof.
  intros w env d s rest Hnd Hfree Hfc Hfm Hsel now job idle d1 caught.
  assert (Hpass : worker_iteration w env d = run_and_finalize env job d1)
    by (apply pass_claims; assumption).
  assert (Hcaught : forall e, caught e ->
            try_suite env job d1 = (Raise e, d1)).
  { intros e [He|([[code out] err] & Hr & Hf)];
      unfold try_suite, bind, lift.
    - rewrite He. reflexivity.
    - rewrite Hr, Hf. reflexivity. }
  assert (Hhandler : forall e d', try_suite env job d1 = (Raise e, d') ->
            d' = d1 /\ worker_iteration w env d = except_suite env job e d1).
  { intros e d' Htry.
    assert (d' = d1) as -> by (eapply try_suite_raise; eauto).
    split; [reflexivity|]. rewrite Hpass. unfold run_and_finalize.
    apply try_except_raise. exact Htry. }
  split; [|split; [exact Hhandler|split; [|split]]].
  - intros e He Hfe. destruct (Hhandler e d1 (Hcaught e He)) as [_ ->].
    unfold except_suite. rewrite Hfe. reflexivity.
  - intros e e2 He Hfe.
    assert (Hit : worker_iteration w env d = (Raise e2, d1)).
    { destruct (Hhandler e d1 (Hcaught e He)) as [_ ->].
      unfold except_suite. rewrite Hfe. reflexivity. }
    split; [exact Hit|]. split; [apply worker_loop_raise; exact Hit|].
    exists job. destruct (select_next_some _ _ _ Hsel) as (Hin & _).
    split; [|split; reflexivity].
    subst d1. cbn [jobs]. unfold sql_update. apply in_map_iff.
    exists s. split; [|exact Hin].
    unfold has_id. rewrite String.eqb_refl. reflexivity.
  - intros e2 d2. apply worker_loop_raise.
  - intros u d2 Hit. simpl. unfold bind. rewrite Hit. reflexivity.
Qed.

(** The command of job [b] runs out of time: the pass returns, and the
    job has one failed attempt with the text of the exception. *)
Lemma worker_error_propagation_witness :
  let res := worker_iteration "w1" env_timeout three_jobs in
  fst res = Ok tt
  /\ map attempts (jobs (snd res)) = [0; 1; 0]
  /\ map last_error (jobs (snd res))
     = [None; Some "timed out after 1 seconds"%string; None].
Proof.
  cbv zeta.
  rewrite (proj1 (worker_error_propagation "w1" env_timeout three_jobs
                    job_b [] three_jobs_unique (three_jobs_free "w1")
                    eq_refl eq_refl three_jobs_select)
             (Exn TimeoutExpired "timed out after 1 seconds")
             (or_introl eq_refl) eq_refl).
  repeat split; vm_compute; reflexivity.
Defined.

(** C7 as stated fails on [env_locked_once]: the command of job [b] exits
    with 0, the store refuses the session of the finalization inside
    [try], and that error does not propagate: the handler turns it into a
    failed attempt of the job, and the pass returns. *)
Lemma store_error_is_swallowed :
  let res := worker_iteration "w1" env_locked_once three_jobs in
  fst res = Ok tt
  /\ map state (jobs (snd res)) = ["pending"; "pending"; "pending"]%string
  /\ map attempts (jobs (snd res)) = [0; 1; 0]
  /\ map last_error (jobs (snd res))
     = [None; Some "database is locked"%string; None].
Proof. cbv zeta. repeat split; vm_compute; reflexivity. Qed.

(** When the store also refuses the session of the handler, the worker's
    loop ends with that error, and job [b] is left [processing]. *)
Example handler_error_ends_worker :
  let res := worker_loop "w1" [(false, env_timeout_locked);
                               (false, env_timeout)] three_jobs in
  fst res = Raise locked
  /\ map state (jobs (snd res)) = ["pending"; "processing"; "pending"]%string.
Proof. cbv zeta. split; vm_compute; reflexivity. Qed.

End WorkerPass.

(** ** The listings *)

Section Listings.

Section Sorting.
Context {A : Type} (le : A -> A -> bool).
Hypothesis le_total : forall a b, le a b = true \/ le b a = true.
Hypothesis le_trans :
  forall a b c, le a b = true -> le b c = true -> le a c = true.

Lemma insert_by_perm (x : A) (l : list A) :
  Permutation (insert_by le x l) (x :: l).
Proof.
  induction l as [|y l IH]; simpl; [reflexivity|].
  destruct (le x y); [reflexivity|].
  rewrite IH. apply perm_swap.
Qed.

Lemma order_by_perm (l : list A) : Permutation (order_by le l) l.
Proof.
  induction l as [|x l IH]; simpl; [reflexivity|].
  rewrite insert_by_perm. apply perm_skip. exact IH.
Qed.

Lemma insert_by_sorted (x : A) (l : list A) :
  StronglySorted (fun a b => le a b = true) l ->
  StronglySorted (fun a b => le a b = true) (insert_by le x l).
Proof.
  induction l as [|y l IH]; simpl; intros Hs.
  - constructor; constructor.
  - apply StronglySorted_inv in Hs as [Hs Hy].
    destruct (le x y) eqn:Hxy.
    + constructor; [constructor; assumption|].
      constructor; [exact Hxy|].
      rewrite List.Forall_forall in *. intros z Hz. eapply le_trans; eauto.
    + constructor; [apply IH; exact Hs|].
      rewrite List.Forall_forall in *. intros z Hz.
      apply (Permutation_in _ (insert_by_perm x l)) in Hz.
      destruct Hz as [<-|Hz]; [|auto].
      destruct (le_total x y); congruence.
Qed.

Lemma order_by_sorted (l : list A) :
  StronglySorted (fun a b => le a b = true) (order_by le l).
Proof.
  induction l as [|x l IH]; simpl; [constructor|].
  apply insert_by_sorted. exact IH.
Qed.

End Sorting.

Lemma list_cmd_run (print : console) (st : option string) (d : db) :
  list_cmd print st d =
  (print (match list_query st (jobs d) with
          | [] => Line "[yellow]No jobs found.[/yellow]"
          | rows => Table (map list_row rows)
          end),
   snd (init_db d)).
Proof.
  unfold list_cmd, bind, lift. rewrite init_db_ok.
  destruct (init_db_spec d) as (_ & -> & _). cbn [fst snd].
  destruct (list_query st (jobs d)); reflexivity.
Qed.

Lemma list_query_wanted (st : option string) (rows : list job) :
  list_query st rows = order_by by_created_at (wanted_rows st rows).
Proof.
  unfold list_query, wanted_rows. destruct st as [s|]; [|reflexivity].
  destruct (String.eqb s ""); reflexivity.
Qed.

(** X14.  [list] hands the console the jobs in the state asked for, each
    once, in ascending order of [created_at]; without a state, and also
    with the empty text as state, every job.  It hands over the line
    [No jobs found.] exactly when no job is wanted.  The command ends as
    that one [print] ends, and changes no job. *)
Theorem list_cmd_prints_wanted_rows_sorted :
  forall (print : console) (st : option string) (d : db),
    exists rows,
      Permutation rows (wanted_rows st (jobs d))
      /\ StronglySorted
           (fun a b => String.leb (created_at a) (created_at b) = true) rows
      /\ fst (list_cmd print st d)
         = print (match rows with
                  | [] => Line "[yellow]No jobs found.[/yellow]"
                  | _ => Table (map list_row rows)
                  end)
      /\ (rows = [] <-> wanted_rows st (jobs d) = [])
      /\ wanted_rows (Some ""%string) (jobs d) = jobs d
      /\ jobs (snd (list_cmd print st d)) = jobs d.
Proof.
  intros print st d. exists (list_query st (jobs d)).
  rewrite list_cmd_run, list_query_wanted. cbn [fst snd].
  split; [apply order_by_perm|].
  split.
  { apply (order_by_sorted by_created_at).
    - intros a b. apply String.leb_total.
    - intros a b c. apply leb_trans. }
  split; [destruct (order_by _ _); reflexivity|].
  split.
  { split; intros H.
    - apply Permutation_nil. rewrite <- H. apply order_by_perm.
    - rewrite H. reflexivity. }
  split; [reflexivity|]. apply (init_db_spec d).
Qed.

Lemma count_where_cons (p : job -> bool) (r : job) (rows : list job) :
  count_where p (r :: rows) = Z.b2z (p r) + count_where p rows.
Proof.
  unfold count_where. simpl. destruct (p r); simpl length; simpl Z.b2z; lia.
Qed.

Lemma one_state (r : job) :
  Z.b2z (in_state "pending" r) + Z.b2z (in_state "processing" r)
  + Z.b2z (in_state "completed" r) + Z.b2z (in_state "dead" r)
  + Z.b2z (negb (legal_state r)) = 1.
Proof.
  unfold legal_state, in_state. generalize (state r) as x. intros x.
  destruct (String.eqb_spec x "pending") as [->|_]; [reflexivity|].
  destruct (String.eqb_spec x "processing") as [->|_]; [reflexivity|].
  destruct (String.eqb_spec x "completed") as [->|_]; [reflexivity|].
  destruct (String.eqb_spec x "dead") as [->|_]; reflexivity.
Qed.

Lemma count_split (rows : list job) :
  Z.of_nat (length rows)
  = count_where (in_state "pending") rows
    + count_where (in_state "processing") rows
    + count_where (in_state "completed") rows
    + count_where (in_state "dead") rows
    + count_where (fun j => negb (legal_state j)) rows.
Proof.
  induction rows as [|r rows IH]; [reflexivity|].
  rewrite !count_where_cons. pose proof (one_state r).
  change (length (r :: rows)) with (S (length rows)). lia.
Qed.

(** X15.  The numbers [status] hands the console (and the dashboard
    shows): the total is the sum of the four per-state counts plus the
    number of jobs in no such state, which enqueue can create from a
    caller-supplied [state]; when every job is in one of the four states
    the four counts add up to the total.  The command ends as its one
    [print] ends, and changes no job. *)
Theorem status_counts_add_up :
  forall (print : console) (d : db),
    let c := count_jobs (jobs d) in
    fst (status_cmd print d)
    = print (Table [ ["Total Jobs"; str_of_int (n_total c)];
                     ["Pending"; str_of_int (n_pending c)];
                     ["Processing"; str_of_int (n_processing c)];
                     ["Completed"; str_of_int (n_completed c)];
                     ["Dead (DLQ)"; str_of_int (n_dead c)] ]%string)
    /\ p_counts (home d) = c
    /\ n_total c = n_pending c + n_processing c + n_completed c + n_dead c
                   + count_where (fun j => negb (legal_state j)) (jobs d)
    /\ ((forall r, In r (jobs d) -> legal_state r = true) ->
        n_total c = n_pending c + n_processing c + n_completed c + n_dead c)
    /\ jobs (snd (status_cmd print d)) = jobs d.
Proof.
  intros print d c. subst c.
  unfold status_cmd, bind, lift, status_table. rewrite init_db_ok.
  destruct (init_db_spec d) as (_ & Hj & _). rewrite Hj. cbn [fst snd].
  split; [reflexivity|]. split; [reflexivity|].
  unfold count_jobs. cbn [n_total n_pending n_processing n_completed n_dead].
  split; [apply count_split|]. split; [|exact Hj].
  intros Hlegal. rewrite (count_split (jobs d)).
  unfold count_where at 5. rewrite filter_none; [simpl; lia|].
  intros r Hr. rewrite (Hlegal r Hr). reflexivity.
Qed.






(** X17.  [enqueue] as the command line runs it.  When the argument
    loads and the store accepts the job, the table has grown by that job,
    and the [Enqueued job] line with the job's id is handed to the
    console; if the console accepts it the command returns.  If the
    console refuses that line the job stays in the table, and the command
    hands the console the [Error] line with the text of that refusal and
    ends as that second [print] ends.  When the argument does not load or
    the store refuses the job (no command, a taken id, a value the store
    cannot hold) no job is added, the [Error] line carries the text of the
    exception, and the command again ends as that [print] ends.  The
    command exits with code 0 exactly when the last line it printed was
    accepted. *)
Theorem enqueue_cmd_prints_outcome :
  forall (print : console) (loaded : outcome job_spec) (uuid4 : string)
         (now : Clock.datetime) (d : db),
    let res := enqueue_cmd print loaded uuid4 now d in
    let error_line e := Line ("[red]Error:[/red] " ++ str_of_exn e)%string in
    (forall spec, loaded = Ok spec -> store_accepts d spec uuid4 ->
       let line := Line ("[green]Enqueued job:[/green] "
                         ++ default uuid4 (s_id spec))%string in
       (exists row, jobs (snd res) = jobs d ++ [row]
                    /\ id row = default uuid4 (s_id spec))
       /\ (print line = Ok tt -> fst res = Ok tt)
       /\ (forall e, print line = Raise e -> fst res = print (error_line e)))
    /\ (forall spec, loaded = Ok spec -> ~ store_accepts d spec uuid4 ->
          (exists e, fst res = print (error_line e))
          /\ jobs (snd res) = jobs d)
    /\ (forall e, loaded = Raise e -> res = (print (error_line e), d))
    /\ (exit_code (fst res) = 0 <-> fst res = Ok tt).
Proof.
  intros print loaded uuid4 now d res error_line. subst res.
  split; [|split; [|split]].
  - intros spec -> ([cmd Hcmd] & Ha & Hm & Hp & [r Hr] & Hfresh) line.
    unfold enqueue_cmd, try_except, bind, lift.
    rewrite (enqueue_job_run spec uuid4 now d cmd r) by assumption.
    fold line. cbn [fst snd jobs with_jobs].
    destruct (print line) as [[]|e] eqn:Hprint; cbn [fst snd jobs with_jobs].
    + split; [eexists; split; reflexivity|]. split; [reflexivity|].
      intros e [=].
    + split; [eexists; split; reflexivity|]. split; [discriminate|].
      intros e' [= <-]. reflexivity.
  - intros spec -> Hno.
    destruct (enqueue_job_refused spec uuid4 now d Hno) as [[e He] Hjobs].
    unfold enqueue_cmd, try_except, bind, lift.
    destruct (enqueue_job spec uuid4 now d) as [[job_id|e0] d1];
      simpl in He, Hjobs; [discriminate|].
    simpl. split; [eauto|exact Hjobs].
  - intros e ->. reflexivity.
  - destruct (fst _) as [[]|e]; simpl; split; congruence.
Qed.

Lemma sorted_app_le {A} (R : A -> A -> Prop) (l1 l2 : list A) :
  StronglySorted R (l1 ++ l2) ->
  forall a b, In a l1 -> In b l2 -> R a b.
Proof.
  induction l1 as [|x l1 IH]; simpl; intros Hs a b Ha Hb; [destruct Ha|].
  apply StronglySorted_inv in Hs as [Hs Hx].
  destruct Ha as [<-|Ha]; [|eauto].
  rewrite List.Forall_forall in Hx. apply Hx. apply in_or_app. auto.
Qed.

(** X18.  The dashboard's recent jobs: it shows the twenty most recently
    updated jobs, or all of them when there are fewer, latest first; every
    job it leaves out was updated no later than every job it shows. *)
Theorem home_shows_latest_twenty :
  forall d : db,
    let shown := p_jobs (home d) in
    exists hidden,
      Permutation (shown ++ hidden) (jobs d)
      /\ length shown = Nat.min 20 (length (jobs d))
      /\ StronglySorted
           (fun a b => String.leb (updated_at b) (updated_at a) = true)
           shown
      /\ (forall a b, In a shown -> In b hidden ->
            String.leb (updated_at b) (updated_at a) = true).
Proof.
  intros d shown. subst shown. unfold home, recent_jobs. cbn [p_jobs].
  set (sorted := order_by by_updated_desc (jobs d)).
  assert (Hs : StronglySorted
                 (fun a b => String.leb (updated_at b) (updated_at a) = true)
                 sorted).
  { apply (order_by_sorted by_updated_desc).
    - intros a b. apply String.leb_total.
    - intros a b c Hab Hbc. unfold by_updated_desc in *.
      eapply leb_trans; eauto. }
  exists (skipn 20 sorted). rewrite firstn_skipn.
  split; [apply order_by_perm|]. split.
  { rewrite length_firstn. f_equal.
    apply Permutation_length. apply order_by_perm. }
  rewrite <- (firstn_skipn 20 sorted) in Hs. split.
  - revert Hs. generalize (firstn 20 sorted) as l1.
    induction l1 as [|x l1 IH]; simpl; intros Hs; [constructor|].
    apply StronglySorted_inv in Hs as [Hs Hx]. constructor; [auto|].
    rewrite List.Forall_forall in *. intros z Hz. apply Hx.
    apply in_or_app. auto.
  - apply (sorted_app_le _ _ _ Hs).
Qed.

End Listings.

(** ** Timestamps as texts *)

Section Calendar.

Lemma all_from_spec (p : Z -> bool) (fuel : nat) (i0 : Z) :
  all_from fuel i0 p = true ->
  forall i, i0 <= i < i0 + Z.of_nat fuel -> p i = true.
Proof.
  revert i0. induction fuel as [|f IH]; intros i0 H i Hi; [lia|].
  simpl in H. apply andb_true_iff in H as [Hp Hrest].
  destruct (Z.eq_dec i i0) as [->|Hne]; [exact Hp|].
  apply (IH (i0 + 1) Hrest). lia.
Qed.

Lemma years_checked : forall k, 0 <= k < 400 -> check_year k = true.
Proof.
  apply (all_from_spec check_year 400 0). vm_compute. reflexivity.
Qed.

Lemma doys_checked : forall doy, 0 <= doy < 366 -> check_doy doy = true.
Proof.
  apply (all_from_spec check_doy 366 0). vm_compute. reflexivity.
Qed.

Lemma civil_of_days_pieces (d : Z) :
  Clock.civil_of_days d =
  let z := d + 306 in
  let yoe := year_of_era (z mod 146097) in
  let '(m, dd) := month_day (z mod 146097 - start_of_year yoe) in
  (yoe + z / 146097 * 400 + (if m <=? 2 then 1 else 0), m, dd).
Proof.
  unfold Clock.civil_of_days, year_of_era, start_of_year, month_day. cbv zeta.
  replace (d + 306 - (d + 306) / 146097 * 146097) with ((d + 306) mod 146097)
    by (rewrite Z.mod_eq by lia; ring).
  reflexivity.
Qed.

Lemma div_step (a c : Z) : 0 < c -> a / c <= (a + 1) / c <= a / c + 1.
Proof.
  intros Hc. split.
  - apply Z.div_le_mono; lia.
  - assert ((a + 1) / c < a / c + 2); [|lia].
    apply Z.div_lt_upper_bound; [lia|].
    pose proof (Z.mul_succ_div_gt a c Hc). lia.
Qed.

Lemma era_numerator_step (doe : Z) :
  0 <= doe < 146096 -> era_numerator doe <= era_numerator (doe + 1).
Proof.
  intros H. unfold era_numerator.
  destruct (Z.eq_dec doe 146095) as [->|Hne]; [vm_compute; discriminate|].
  rewrite (Z.div_small doe 146096) by lia.
  rewrite (Z.div_small (doe + 1) 146096) by lia.
  pose proof (div_step doe 1460). pose proof (div_step doe 36524). lia.
Qed.

Lemma era_numerator_mono (n : nat) (a : Z) :
  0 <= a -> a + Z.of_nat n <= 146096 ->
  era_numerator a <= era_numerator (a + Z.of_nat n).
Proof.
  induction n as [|n IH]; intros Ha Hb.
  - rewrite Z.add_0_r. lia.
  - replace (a + Z.of_nat (S n)) with (a + Z.of_nat n + 1) by lia.
    pose proof (era_numerator_step (a + Z.of_nat n)). lia.
Qed.

Lemma year_of_era_mono (a b : Z) :
  0 <= a <= b -> b <= 146096 -> year_of_era a <= year_of_era b.
Proof.
  intros Hab Hb. unfold year_of_era. fold (era_numerator a) (era_numerator b).
  apply Z.div_le_mono; [lia|].
  replace b with (a + Z.of_nat (Z.to_nat (b - a))) by lia.
  apply era_numerator_mono; lia.
Qed.

Lemma era_start_step (k : Z) :
  0 <= k < 400 ->
  era_start k < era_start (k + 1) <= era_start k + 366
  /\ year_of_era (era_start k) = k
  /\ year_of_era (era_start (k + 1) - 1) = k.
Proof.
  intros Hk. pose proof (years_checked k Hk) as H. unfold check_year in H.
  rewrite !andb_true_iff in H. destruct H as (((H1 & H2) & H3) & H4).
  lia.
Qed.

Lemma era_start_le (n : nat) (a : Z) :
  0 <= a -> a + Z.of_nat n <= 400 ->
  era_start a <= era_start (a + Z.of_nat n).
Proof.
  induction n as [|n IH]; intros Ha Hb.
  - rewrite Z.add_0_r. lia.
  - replace (a + Z.of_nat (S n)) with (a + Z.of_nat n + 1) by lia.
    pose proof (era_start_step (a + Z.of_nat n)). lia.
Qed.

Lemma year_found (doe : Z) (n : nat) :
  0 <= doe -> doe < era_start (Z.of_nat n) ->
  exists k, 0 <= k < Z.of_nat n /\ era_start k <= doe < era_start (k + 1).
Proof.
  intros Hdoe. induction n as [|n IH]; intros Hlt.
  - change (era_start (Z.of_nat 0)) with 0 in Hlt. lia.
  - destruct (Z_lt_le_dec doe (era_start (Z.of_nat n))) as [Hl|Hg].
    + destruct (IH Hl) as (k & Hk & Hin). exists k. lia.
    + exists (Z.of_nat n). replace (Z.of_nat n + 1) with (Z.of_nat (S n)) by lia.
      lia.
Qed.

(** The year of a day of the era is the year whose span holds the day. *)
Lemma year_of_era_spec (doe : Z) :
  0 <= doe < 146097 ->
  0 <= year_of_era doe < 400
  /\ 0 <= doe - start_of_year (year_of_era doe) <= 365.
Proof.
  intros Hdoe.
  destruct (year_found doe 400) as (k & Hk & Hin); [lia| |].
  { replace (era_start (Z.of_nat 400)) with 146097 by reflexivity. lia. }
  destruct (era_start_step k ltac:(lia)) as (Hstep & Hlo & Hhi).
  assert (Hend : era_start (k + 1) <= 146097).
  { pose proof (era_start_le (Z.to_nat (400 - (k + 1))) (k + 1)) as H.
    replace (k + 1 + Z.of_nat (Z.to_nat (400 - (k + 1)))) with 400 in H by lia.
    replace (era_start 400) with 146097 in H by reflexivity. lia. }
  assert (H0 : 0 <= era_start k).
  { pose proof (era_start_le (Z.to_nat k) 0) as H1.
    replace (0 + Z.of_nat (Z.to_nat k)) with k in H1 by lia.
    replace (era_start 0) with 0 in H1 by reflexivity. lia. }
  assert (year_of_era doe = k) as ->.
  { pose proof (year_of_era_mono (era_start k) doe).
    pose proof (year_of_era_mono doe (era_start (k + 1) - 1)).
    lia. }
  assert (era_start k = start_of_year k) as <-.
  { unfold era_start. rewrite (Z.div_small k 400) by lia. lia. }
  lia.
Qed.

Lemma month_day_facts (doy : Z) :
  0 <= doy <= 365 ->
  1 <= fst (month_day doy) <= 12 /\ 1 <= snd (month_day doy) <= 31
  /\ (doy <= 305 -> 3 <= fst (month_day doy))
  /\ (doy < 365 -> md_lt (month_day doy) (month_day (doy + 1))).
Proof.
  intros Hdoy. pose proof (doys_checked doy ltac:(lia)) as H.
  unfold check_doy, md_lt in *.
  destruct (month_day doy) as [m d], (month_day (doy + 1)) as [m' d'].
  rewrite !andb_true_iff, !orb_true_iff, !andb_true_iff in H. simpl. lia.
Qed.

Lemma month_day_mono (n : nat) (a : Z) :
  0 <= a -> a + Z.of_nat (S n) <= 365 ->
  md_lt (month_day a) (month_day (a + Z.of_nat (S n))).
Proof.
  induction n as [|n IH]; intros Ha Hb.
  - apply month_day_facts; lia.
  - specialize (IH Ha ltac:(lia)).
    replace (a + Z.of_nat (S (S n))) with (a + Z.of_nat (S n) + 1) by lia.
    pose proof (month_day_facts (a + Z.of_nat (S n)) ltac:(lia))
      as (_ & _ & _ & Hstep).
    specialize (Hstep ltac:(lia)). unfold md_lt in *. lia.
Qed.

Lemma civil_of_days_mono (d1 d2 : Z) :
  0 <= d1 < d2 -> date_lt (Clock.civil_of_days d1) (Clock.civil_of_days d2).
Proof.
  intros Hd. rewrite !civil_of_days_pieces. cbv zeta.
  set (z1 := d1 + 306). set (z2 := d2 + 306).
  assert (Hz : 0 <= z1 < z2) by (subst z1 z2; lia).
  pose proof (Z.mod_pos_bound z1 146097 ltac:(lia)) as Hm1.
  pose proof (Z.mod_pos_bound z2 146097 ltac:(lia)) as Hm2.
  pose proof (Z.div_mod z1 146097 ltac:(lia)) as He1.
  pose proof (Z.div_mod z2 146097 ltac:(lia)) as He2.
  pose proof (Z.div_le_mono z1 z2 146097 ltac:(lia) ltac:(lia)) as Hera.
  destruct (year_of_era_spec _ Hm1) as (Hk1 & Hdoy1).
  destruct (year_of_era_spec _ Hm2) as (Hk2 & Hdoy2).
  pose proof (month_day_facts _ Hdoy1) as (Hmo1 & Hda1 & _).
  pose proof (month_day_facts _ Hdoy2) as (Hmo2 & Hda2 & _).
  set (e1 := z1 / 146097) in *. set (e2 := z2 / 146097) in *.
  set (o1 := z1 mod 146097) in *. set (o2 := z2 mod 146097) in *.
  set (k1 := year_of_era o1) in *. set (k2 := year_of_era o2) in *.
  assert (Hsame : e1 = e2 -> k1 <= k2
                  /\ (k1 = k2 ->
                      md_lt (month_day (o1 - start_of_year k1))
                            (month_day (o2 - start_of_year k2)))).
  { intros E. assert (o1 < o2) by lia. split.
    - apply year_of_era_mono; lia.
    - intros Ek. rewrite <- Ek.
      assert (start_of_year k2 = start_of_year k1) by (rewrite Ek; reflexivity).
      replace (o2 - start_of_year k1)
        with (o1 - start_of_year k1
              + Z.of_nat (S (Z.to_nat (o2 - o1 - 1)))) by lia.
      apply month_day_mono; lia. }
  unfold md_lt, month_rank in Hsame.
  destruct (month_day (o1 - start_of_year k1)) as [m1 dd1].
  destruct (month_day (o2 - start_of_year k2)) as [m2 dd2].
  simpl in *. unfold date_lt.
  destruct (m1 <=? 2) eqn:C1, (m2 <=? 2) eqn:C2; lia.
Qed.

Lemma civil_of_days_range (d : Z) :
  0 <= d < Clock.MAX_DAYS ->
  let '(y, m, dd) := Clock.civil_of_days d in
  0 <= y <= 9999 /\ 1 <= m <= 12 /\ 1 <= dd <= 31.
Proof.
  unfold Clock.MAX_DAYS. intros Hd. rewrite civil_of_days_pieces. cbv zeta.
  set (z := d + 306).
  pose proof (Z.mod_pos_bound z 146097 ltac:(lia)) as Hm.
  pose proof (Z.div_mod z 146097 ltac:(lia)) as He.
  assert (0 <= z / 146097) by (apply Z.div_pos; subst z; lia).
  assert (z / 146097 <= 24).
  { assert (z / 146097 < 25); [|lia].
    apply Z.div_lt_upper_bound; subst z; lia. }
  destruct (year_of_era_spec _ Hm) as (Hk & Hdoy).
  pose proof (month_day_facts _ Hdoy) as (Hmo & Hda & Hlate & _).
  set (e := z / 146097) in *. set (o := z mod 146097) in *.
  set (k := year_of_era o) in *.
  assert (Hlast : e = 24 -> k = 399 -> o - start_of_year k <= 305).
  { intros -> ->. change (start_of_year 399) with 145731. subst z. lia. }
  destruct (month_day (o - start_of_year k)) as [m dd]. simpl in *.
  destruct (m <=? 2) eqn:C; lia.
Qed.

End Calendar.

Section IsoformatOrder.

Lemma ascii_compare_refl (c : ascii) : Ascii.compare c c = Eq.
Proof. unfold Ascii.compare. apply N.compare_refl. Qed.

Lemma compare_app (p q a b : string) :
  String.length p = String.length q ->
  String.compare (p ++ a)%string (q ++ b)%string
  = match String.compare p q with
    | Eq => String.compare a b
    | c => c
    end.
Proof.
  revert q. induction p as [|c p IH]; intros [|c' q] Hlen;
    try discriminate; simpl; [reflexivity|].
  destruct (Ascii.compare c c'); try reflexivity.
  apply IH. simpl in Hlen. congruence.
Qed.

Lemma string_compare_refl (s : string) : String.compare s s = Eq.
Proof.
  induction s as [|c s IH]; simpl; [reflexivity|].
  rewrite ascii_compare_refl. exact IH.
Qed.

Lemma compare_cons (c : ascii) (a b : string) :
  String.compare (String c a) (String c b) = String.compare a b.
Proof. simpl. rewrite ascii_compare_refl. reflexivity. Qed.

Lemma length_app (a b : string) :
  String.length (a ++ b)%string = (String.length a + String.length b)%nat.
Proof. induction a as [|c a IH]; simpl; [reflexivity|]. rewrite IH. reflexivity. Qed.

Lemma zpad_length (w : nat) (n : Z) : String.length (Clock.zpad w n) = w.
Proof.
  revert n. induction w as [|w IH]; intros n; simpl; [reflexivity|].
  rewrite length_app, IH. simpl. lia.
Qed.

Lemma digit_compare (a b : Z) :
  Ascii.compare (Clock.digit a) (Clock.digit b) = (a mod 10 ?= b mod 10).
Proof.
  unfold Ascii.compare, Clock.digit.
  pose proof (Z.mod_pos_bound a 10 ltac:(lia)).
  pose proof (Z.mod_pos_bound b 10 ltac:(lia)).
  rewrite !N_ascii_embedding by lia.
  rewrite <- N2Z.inj_compare, !N2Z.inj_add, !Z2N.id by lia.
  apply Z.add_compare_mono_l.
Qed.

Lemma compare_by_digits (a b : Z) :
  (a ?= b) = match a / 10 ?= b / 10 with
             | Eq => a mod 10 ?= b mod 10
             | c => c
             end.
Proof.
  pose proof (Z.div_mod a 10 ltac:(lia)).
  pose proof (Z.div_mod b 10 ltac:(lia)).
  pose proof (Z.mod_pos_bound a 10 ltac:(lia)).
  pose proof (Z.mod_pos_bound b 10 ltac:(lia)).
  destruct (Z.compare_spec (a / 10) (b / 10));
    destruct (Z.compare_spec (a mod 10) (b mod 10));
    destruct (Z.compare_spec a b); try reflexivity; lia.
Qed.

(** Zero-padded numbers of one width compare as texts the way they compare
    as numbers. *)
Lemma zpad_compare (w : nat) (a b : Z) :
  0 <= a < 10 ^ Z.of_nat w -> 0 <= b < 10 ^ Z.of_nat w ->
  String.compare (Clock.zpad w a) (Clock.zpad w b) = (a ?= b).
Proof.
  revert a b. induction w as [|w IH]; intros a b Ha Hb.
  - simpl in *. replace a with 0 by lia. replace b with 0 by lia. reflexivity.
  - rewrite Nat2Z.inj_succ, Z.pow_succ_r in Ha, Hb by lia.
    cbn [Clock.zpad]. rewrite compare_app by (rewrite !zpad_length; reflexivity).
    rewrite IH.
    2,3: split; [apply Z.div_pos; lia|apply Z.div_lt_upper_bound; lia].
    rewrite (compare_by_digits a b). simpl. rewrite digit_compare.
    destruct (a / 10 ?= b / 10); try reflexivity.
    destruct (a mod 10 ?= b mod 10); reflexivity.
Qed.

Lemma zpad_field (w : nat) (a b : Z) (r1 r2 : string) :
  0 <= a < 10 ^ Z.of_nat w -> 0 <= b < 10 ^ Z.of_nat w ->
  String.compare (Clock.zpad w a ++ r1)%string (Clock.zpad w b ++ r2)%string
  = match a ?= b with
    | Eq => String.compare r1 r2
    | c => c
    end.
Proof.
  intros Ha Hb. rewrite compare_app by (rewrite !zpad_length; reflexivity).
  rewrite zpad_compare by assumption. reflexivity.
Qed.

(** The text after the seconds: no fraction sorts before any fraction,
    because [+] precedes [.]. *)
Lemma fraction_lt (u1 u2 : Z) :
  0 <= u1 < u2 -> u2 < 1000000 ->
  String.compare
    ((if (u1 =? 0)%Z then "" else "." ++ Clock.zpad 6 u1) ++ "+00:00")%string
    ((if (u2 =? 0)%Z then "" else "." ++ Clock.zpad 6 u2) ++ "+00:00")%string = Lt.
Proof.
  intros H1 H2.
  destruct (Z.eqb_spec u2 0) as [?|_]; [lia|].
  destruct (Z.eqb_spec u1 0) as [_|Hne]; [reflexivity|].
  change (String.compare (String "." (Clock.zpad 6 u1 ++ "+00:00"))
                         (String "." (Clock.zpad 6 u2 ++ "+00:00")) = Lt).
  rewrite compare_cons.
  rewrite zpad_field by (change (10 ^ Z.of_nat 6) with 1000000; lia).
  destruct (Z.compare_spec u1 u2); try reflexivity; lia.
Qed.

Lemma compare_sep (c : ascii) (a b : string) :
  String.compare (String c EmptyString ++ a)%string
                 (String c EmptyString ++ b)%string
  = String.compare a b.
Proof. apply compare_cons. Qed.

Lemma clock_fields (secs : Z) :
  0 <= secs < 86400 ->
  secs = 3600 * (secs / 3600) + 60 * (secs / 60 mod 60) + secs mod 60
  /\ 0 <= secs / 3600 < 24 /\ 0 <= secs / 60 mod 60 < 60
  /\ 0 <= secs mod 60 < 60.
Proof.
  intros H.
  pose proof (Z.div_mod secs 60 ltac:(lia)).
  pose proof (Z.div_mod (secs / 60) 60 ltac:(lia)).
  pose proof (Z.mod_pos_bound secs 60 ltac:(lia)).
  pose proof (Z.mod_pos_bound (secs / 60) 60 ltac:(lia)).
  replace (secs / 3600) with (secs / 60 / 60)
    by (rewrite Z.div_div by lia; reflexivity).
  assert (0 <= secs / 60 / 60) by (apply Z.div_pos; [apply Z.div_pos|]; lia).
  lia.
Qed.

(** Later instants print as later texts. *)
Lemma isoformat_lt (t1 t2 : Clock.datetime) :
  Clock.in_range t1 = true -> Clock.in_range t2 = true -> t1 < t2 ->
  String.compare (Clock.isoformat t1) (Clock.isoformat t2) = Lt.
Proof.
  unfold Clock.in_range, Clock.isoformat, Clock.US_PER_DAY,
    Clock.US_PER_SECOND, Clock.MAX_DAYS.
  rewrite !andb_true_iff, !Z.leb_le, !Z.ltb_lt.
  change (86400 * 1000000) with 86400000000.
  intros [Hlo1 Hhi1] [Hlo2 Hhi2] Hlt.
  pose proof (Z.div_mod t1 86400000000 ltac:(lia)) as Ht1.
  pose proof (Z.div_mod t2 86400000000 ltac:(lia)) as Ht2.
  pose proof (Z.mod_pos_bound t1 86400000000 ltac:(lia)) as Hr1.
  pose proof (Z.mod_pos_bound t2 86400000000 ltac:(lia)) as Hr2.
  assert (Hd1 : 0 <= t1 / 86400000000 < 3652059)
    by (split; [apply Z.div_pos|apply Z.div_lt_upper_bound]; lia).
  assert (Hd2 : 0 <= t2 / 86400000000 < 3652059)
    by (split; [apply Z.div_pos|apply Z.div_lt_upper_bound]; lia).
  pose proof (civil_of_days_range _ Hd1) as Hc1.
  pose proof (civil_of_days_range _ Hd2) as Hc2.
  pose proof (civil_of_days_mono (t1 / 86400000000) (t2 / 86400000000))
    as Hmono.
  assert (Hsame : t1 / 86400000000 = t2 / 86400000000 ->
                  Clock.civil_of_days (t1 / 86400000000)
                  = Clock.civil_of_days (t2 / 86400000000)) by congruence.
  revert Ht1 Ht2 Hr1 Hr2 Hd1 Hd2 Hc1 Hc2 Hmono Hsame.
  generalize (t1 / 86400000000) (t2 / 86400000000).
  generalize (t1 mod 86400000000) (t2 mod 86400000000).
  intros r1 r2 d1 d2 Ht1 Ht2 Hr1 Hr2 Hd1 Hd2.
  destruct (Clock.civil_of_days d1) as [[y1 m1] dd1].
  destruct (Clock.civil_of_days d2) as [[y2 m2] dd2].
  unfold date_lt. intros Hc1 Hc2 Hmono Hsame.
  assert (Hsame' : d1 = d2 -> y1 = y2 /\ m1 = m2 /\ dd1 = dd2)
    by (intros E; specialize (Hsame E); injection Hsame; auto).
  pose proof (Z.div_mod r1 1000000 ltac:(lia)) as Hs1.
  pose proof (Z.div_mod r2 1000000 ltac:(lia)) as Hs2.
  pose proof (Z.mod_pos_bound r1 1000000 ltac:(lia)) as Hu1.
  pose proof (Z.mod_pos_bound r2 1000000 ltac:(lia)) as Hu2.
  assert (Hq1 : 0 <= r1 / 1000000 < 86400)
    by (split; [apply Z.div_pos|apply Z.div_lt_upper_bound]; lia).
  assert (Hq2 : 0 <= r2 / 1000000 < 86400)
    by (split; [apply Z.div_pos|apply Z.div_lt_upper_bound]; lia).
  pose proof (clock_fields _ Hq1) as (Hf1 & Hh1 & Hn1 & Hx1).
  pose proof (clock_fields _ Hq2) as (Hf2 & Hh2 & Hn2 & Hx2).
  pose proof (fraction_lt (r1 mod 1000000) (r2 mod 1000000)) as Hfrac.
  revert Hs1 Hs2 Hu1 Hu2 Hq1 Hq2 Hf1 Hf2 Hh1 Hh2 Hn1 Hn2 Hx1 Hx2 Hfrac.
  generalize (r1 mod 1000000) (r2 mod 1000000).
  generalize (r1 / 1000000) (r2 / 1000000).
  intros s1 s2 u1 u2 Hs1 Hs2 Hu1 Hu2 Hq1 Hq2.
  generalize (s1 / 3600) (s2 / 3600) (s1 / 60 mod 60) (s2 / 60 mod 60)
    (s1 mod 60) (s2 mod 60).
  intros h1 h2 n1 n2 x1 x2 Hf1 Hf2 Hh1 Hh2 Hn1 Hn2 Hx1 Hx2 Hfrac.
  rewrite (zpad_field 4) by (change (10 ^ Z.of_nat 4) with 10000; lia).
  rewrite compare_sep.
  rewrite (zpad_field 2) by (change (10 ^ Z.of_nat 2) with 100; lia).
  rewrite compare_sep.
  rewrite (zpad_field 2) by (change (10 ^ Z.of_nat 2) with 100; lia).
  rewrite compare_sep.
  rewrite (zpad_field 2) by (change (10 ^ Z.of_nat 2) with 100; lia).
  rewrite compare_sep.
  rewrite (zpad_field 2) by (change (10 ^ Z.of_nat 2) with 100; lia).
  rewrite compare_sep.
  rewrite (zpad_field 2) by (change (10 ^ Z.of_nat 2) with 100; lia).
  assert (Hdays : d1 <= d2) by nia.
  destruct (Z.compare_spec y1 y2); [|reflexivity|exfalso; lia].
  destruct (Z.compare_spec m1 m2); [|reflexivity|exfalso; lia].
  destruct (Z.compare_spec dd1 dd2); [|reflexivity|exfalso; lia].
  assert (d1 = d2) by lia. assert (r1 < r2) by lia.
  assert (s1 <= s2) by nia.
  destruct (Z.compare_spec h1 h2); [|reflexivity|exfalso; lia].
  destruct (Z.compare_spec n1 n2); [|reflexivity|exfalso; lia].
  destruct (Z.compare_spec x1 x2); [|reflexivity|exfalso; lia].
  apply Hfrac; lia.
Qed.

(** The texts of two instants compare as the instants do. *)
Lemma isoformat_leb (t1 t2 : Clock.datetime) :
  Clock.in_range t1 = true -> Clock.in_range t2 = true ->
  String.leb (Clock.isoformat t1) (Clock.isoformat t2) = (t1 <=? t2).
Proof.
  intros H1 H2. unfold String.leb.
  destruct (Z.leb_spec t1 t2) as [Hle|Hgt].
  - destruct (Z.eq_dec t1 t2) as [->|Hne].
    + rewrite string_compare_refl. reflexivity.
    + rewrite (isoformat_lt t1 t2) by (assumption || lia). reflexivity.
  - rewrite String.compare_antisym, (isoformat_lt t2 t1) by (assumption || lia).
    reflexivity.
Qed.

End IsoformatOrder.

(** ** The backoff of a rescheduled job *)

Section Backoff.



(** X19.  The texts [now_utc] writes sort the way the instants do: for
    two readings of the clock within the years 1 to 9999, the text of the
    first is at most the text of the second exactly when the first reading
    is not later, and equal texts come from equal readings.  (A reading on
    a whole second prints no fraction and still sorts before every later
    reading of that second.) *)
Theorem timestamps_sort_by_time :
  forall t1 t2 : Clock.datetime,
    Clock.in_range t1 = true -> Clock.in_range t2 = true ->
    String.leb (now_utc t1) (now_utc t2) = (t1 <=? t2)
    /\ (now_utc t1 = now_utc t2 -> t1 = t2).
Proof.
  intros t1 t2 H1 H2. unfold now_utc. split.
  - apply isoformat_leb; assumption.
  - intros E.
    pose proof (isoformat_leb t1 t2 H1 H2) as H12.
    pose proof (isoformat_leb t2 t1 H2 H1) as H21.
    rewrite E in H12, H21. unfold String.leb in H12, H21.
    rewrite string_compare_refl in H12, H21. lia.
Qed.


(** Two seconds and a half past midnight sorts between the whole
    seconds around it. *)
Lemma timestamps_sort_by_time_witness :
  (String.leb (now_utc (t_2026 + seconds 2))
              (now_utc (t_2026 + seconds 2 + 500000))
   = (t_2026 + seconds 2 <=? t_2026 + seconds 2 + 500000)
   /\ (now_utc (t_2026 + seconds 2) = now_utc (t_2026 + seconds 2 + 500000)
       -> t_2026 + seconds 2 = t_2026 + seconds 2 + 500000))
  /\ now_utc (t_2026 + seconds 2 + 500000)
     = "2026-01-01T00:00:02.500000+00:00"%string.
Proof.
  split; [|vm_compute; reflexivity].
  apply (timestamps_sort_by_time (t_2026 + seconds 2)
           (t_2026 + seconds 2 + 500000)); vm_compute; reflexivity.
Defined.


End Backoff.

(** ** From enqueue to claim *)

Section EnqueueThenClaim.


End EnqueueThenClaim.

(** ** The further properties on the example data *)

Section FurtherExamples.

(** A claim, a retry of [a] and an enqueue under the taken id [a]. *)
Lemma operations_keep_ids_unique_witness :
  unique_ids
    (run_ops [Claim "w1" (t_2026 + seconds 5);
              DlqRetry markup_console "a" (t_2026 + seconds 6)
                       (t_2026 + seconds 6);
              Enqueue spec_echo "a" (t_2026 + seconds 7)] three_jobs).
Proof.
  apply (operations_keep_ids_unique
           [Claim "w1" (t_2026 + seconds 5);
            DlqRetry markup_console "a" (t_2026 + seconds 6)
                       (t_2026 + seconds 6);
            Enqueue spec_echo "a" (t_2026 + seconds 7)] three_jobs).
  exact three_jobs_unique.
Defined.

(** Two workers claim from [three_jobs] one second apart: the first gets
    [b], the second [a]. *)
Lemma successive_claims_differ_witness :
  id (set_processing "w1" (now_utc (t_2026 + seconds 5)) job_b)
  <> id (set_processing "w2" (now_utc (t_2026 + seconds 6))
           (pending_job "a" "echo a" 5 "2026-01-01T00:00:00+00:00")).
Proof.
  refine (proj1 (successive_claims_differ three_jobs "w1" "w2"
                   (t_2026 + seconds 5) (t_2026 + seconds 6) _ _
                   three_jobs_unique _ _ _ _)).
  - intros j Hj Hheld. rewrite (three_jobs_free _ _ Hj) in Hheld.
    discriminate.
  - intros j Hj Hheld. vm_compute in Hj.
    destruct Hj as [<-|[<-|[<-|[]]]]; vm_compute in Hheld; discriminate.
  - vm_compute. reflexivity.
  - vm_compute. reflexivity.
Defined.


(** A claim, a failed attempt of the claimed job and an enqueue. *)
Lemma operations_keep_rows_well_shaped_witness :
  List.Forall well_shaped
    (jobs (run_ops
             [Claim "w1" (t_2026 + seconds 5);
              FinalizeFailure
                (set_processing "w1" (now_utc (t_2026 + seconds 5)) job_b)
                "exit 1" (t_2026 + seconds 6) (t_2026 + seconds 6);
              Enqueue spec_echo "d" (t_2026 + seconds 7)] three_jobs)).
Proof.
  apply List.Forall_forall.
  apply (operations_keep_rows_well_shaped
           [Claim "w1" (t_2026 + seconds 5);
            FinalizeFailure
              (set_processing "w1" (now_utc (t_2026 + seconds 5)) job_b)
              "exit 1" (t_2026 + seconds 6) (t_2026 + seconds 6);
            Enqueue spec_echo "d" (t_2026 + seconds 7)] three_jobs).
  - simpl. intros r [<-|[<-|[<-|[]]]]; unfold well_shaped; simpl;
      (split; [left; reflexivity|]); repeat split; intros; discriminate.
  - intros spec uuid4 now [E|[E|[E|[]]]]; try discriminate.
    injection E as <- _ _. reflexivity.
Defined.

(** A worker runs [b] of [three_jobs]; the command exits with 0. *)
Lemma pass_completes_job_witness :
  fst (worker_iteration "w1" (env_exit 0 "") three_jobs) = Ok tt
  /\ map state (jobs (snd (worker_iteration "w1" (env_exit 0 "") three_jobs)))
     = ["pending"; "completed"; "pending"]%string.
Proof.
  split; [|vm_compute; reflexivity].
  refine (proj1 (pass_completes_job "w1" (env_exit 0 "") three_jobs job_b
                   "hi" "" three_jobs_unique (three_jobs_free "w1")
                   eq_refl eq_refl eq_refl three_jobs_select eq_refl)).
Defined.

(** A worker finds the queue empty. *)
Lemma pass_without_job_idles_witness :
  worker_iteration "w1" (env_exit 0 "") (db_of []) =
  (Ok tt,
   with_workers (db_of [])
     (<["w1"%string :=
          registration (db_of []) "w1" 4242 "idle"
            (t_2026 + seconds 5) (t_2026 + seconds 6)]> ∅)).
Proof.
  apply (pass_without_job_idles "w1" (env_exit 0 "") (db_of [])).
  - intros j [].
  - reflexivity.
  - reflexivity.
Defined.

(** A worker runs [b] of [three_jobs]; the command exits with 1 and the
    job is rescheduled with one attempt counted. *)
Lemma pass_counts_failed_attempt_witness :
  fst (worker_iteration "w1" (env_exit 1 "boom") three_jobs) = Ok tt
  /\ map attempts
       (jobs (snd (worker_iteration "w1" (env_exit 1 "boom") three_jobs)))
     = [0; 1; 0].
Proof.
  split; [|vm_compute; reflexivity].
  refine (proj1 (pass_counts_failed_attempt "w1" (env_exit 1 "boom")
                   three_jobs job_b 1 "hi" "boom" 2 three_jobs_unique
                   (three_jobs_free "w1") eq_refl eq_refl eq_refl
                   three_jobs_select eq_refl _ _ _ _ _)).
  - discriminate.
  - simpl. lia.
  - simpl. lia.
  - vm_compute. reflexivity.
  - intros _. vm_compute. discriminate.
Defined.


(** A job whose id reads as a closing tag is enqueued: rich refuses the
    [Enqueued job] line and then the [Error] line that quotes the tag, so
    the command ends with [MarkupError] and exit code 1, the job being in
    the table. *)
Lemma enqueue_cmd_prints_outcome_witness :
  let res := enqueue_cmd markup_console (Ok spec_markup_id) "u-1" t_2026
                         empty_db in
  map id (jobs (snd res)) = ["[/x]"%string]
  /\ fst res
     = markup_console
         (Line ("[red]Error:[/red] closing tag '[/x]' at position 29 "
                ++ "doesn't match any open tag")%string)
  /\ exit_code (fst res) = 1.
Proof.
  destruct (enqueue_cmd_prints_outcome markup_console (Ok spec_markup_id)
              "u-1" t_2026 empty_db) as (Hacc & _).
  destruct (Hacc spec_markup_id eq_refl) as ((row & Hrows & Hid) & _ & Hprint).
  { unfold store_accepts. simpl. eauto 10. }
  cbv zeta. rewrite Hrows. simpl. rewrite Hid.
  split; [reflexivity|].
  rewrite (Hprint (Exn MarkupError
                     ("closing tag '[/x]' at position 29 "
                      ++ "doesn't match any open tag")%string) eq_refl).
  split; vm_compute; reflexivity.
Defined.

(** After [enqueue] of the job with id [[/x]]: [list] hands the console
    a table with that id in a cell, rich refuses the cell, and the command
    ends with [MarkupError] and exit code 1.  [list --state dead] and
    [dlq list] find no job and print their line, [status] prints numbers
    only: these return. *)
Example listings_of_markup_id :
  let d := snd (enqueue_cmd markup_console (Ok spec_markup_id) "u-1" t_2026
                            empty_db) in
  fst (list_cmd markup_console None d)
  = Raise (Exn MarkupError
             ("closing tag '[/x]' at position 0 "
              ++ "doesn't match any open tag")%string)
  /\ exit_code (fst (list_cmd markup_console None d)) = 1
  /\ fst (list_cmd markup_console (Some "dead"%string) d) = Ok tt
  /\ fst (dlq_list markup_console d) = Ok tt
  /\ fst (status_cmd markup_console d) = Ok tt.
Proof. vm_compute. repeat split; reflexivity. Qed.

End FurtherExamples.

End Queuectl.
